(** * Verification of the access-point controller (network/access_point.go)

    A shallow embedding of the Go code of [network/access_point.go]: the
    status decoder [decodeWifiInfo], the bandwidth sampler [parseBtu], the
    configuration generator [generateTeamAccessPointConfig] and the
    controller around them, together with the parts of the Go standard
    library they call ([strings], [strconv], [regexp], buffered channels).

    Conventions.
    - A Go [string] is a sequence of bytes: Rocq's [string] at the surface,
      [list ascii] inside the library functions.
    - Go's [int] is the 64-bit two's complement integer of the platforms the
      controller runs on; it is a [Z] with the wrap-around written out.
    - Go's [float64] is Rocq's primitive binary64 [float].
    - A run-time panic (index out of range) is an explicit outcome. *)

From Stdlib Require Import ZArith String Ascii List Bool Lia Floats.
From Stdlib Require Import DecimalString DecimalZ.
Import ListNotations.

Local Open Scope Z_scope.

(** ** Bytes and strings *)

Definition bytes := list ascii.

Definition bytesOf (s : string) : bytes := list_ascii_of_string s.
Definition stringOf (l : bytes) : string := string_of_list_ascii l.

Definition byteVal (c : ascii) : Z := Z.of_nat (nat_of_ascii c).

Definition byte (n : nat) : ascii := ascii_of_nat n.

(** The double quote, byte 0x22. *)
Definition dquote : ascii := byte 34.

(** ** Outcomes of Go code that may panic *)

Inductive panic : Type :=
| IndexOutOfRange (index length : nat).

Inductive go (A : Type) : Type :=
| Return (a : A)
| Panic (p : panic).

Arguments Return {A} a.
Arguments Panic {A} p.

Definition bind {A B : Type} (m : go A) (k : A -> go B) : go B :=
  match m with
  | Return a => k a
  | Panic p => Panic p
  end.

Notation "x <- m ;; k" := (bind m (fun x => k))
  (at level 61, m at next level, right associativity).

(** [l[i]] on a slice: a panic when [i] is not below [len(l)]. *)
Definition index {A : Type} (l : list A) (i : nat) : go A :=
  match nth_error l i with
  | Some a => Return a
  | None => Panic (IndexOutOfRange i (length l))
  end.

(** ** Go's [int] *)

Definition intSize : Z := 64.
Definition minInt : Z := - 2 ^ (intSize - 1).
Definition maxInt : Z := 2 ^ (intSize - 1) - 1.

(** Two's complement wrap-around of an integer result. *)
Definition wrapInt (z : Z) : Z := (z - minInt) mod 2 ^ intSize + minInt.

Definition intAdd (a b : Z) : Z := wrapInt (a + b).
Definition intSub (a b : Z) : Z := wrapInt (a - b).

(** [float64(n)] for an [int] n: the nearest binary64 value, ties to even. *)
Definition float64 (n : Z) : float :=
  SF2Prim (binary_normalize 53 1024 n 0 false).

(** ** Package strings *)

Module strings.

Fixpoint hasPrefix (p s : bytes) : bool :=
  match p, s with
  | [], _ => true
  | a :: p', c :: s' => Ascii.eqb a c && hasPrefix p' s'
  | _ :: _, [] => false
  end.

(** The loop of [genSplit]: cut at the leftmost occurrences of [sep], which
    do not overlap.  [skip] counts the bytes of a separator still to pass,
    [cur] is the current segment, reversed. *)
Fixpoint splitFrom (sep : bytes) (skip : nat) (cur s : bytes) : list bytes :=
  match s with
  | [] => [rev cur]
  | c :: s' =>
      match skip with
      | S k => splitFrom sep k cur s'
      | O =>
          if hasPrefix sep s
          then rev cur :: splitFrom sep (length sep - 1) [] s'
          else splitFrom sep O (c :: cur) s'
      end
  end.

(** [strings.Split(s, sep)] for a separator that is not empty (the code
    splits at "]," and at ","). *)
Definition Split (s sep : string) : list string :=
  map stringOf (splitFrom (bytesOf sep) O [] (bytesOf s)).

(** [strings.Join(elems, sep)]. *)
Fixpoint Join (elems : list string) (sep : string) : string :=
  match elems with
  | [] => EmptyString
  | [e] => e
  | e :: rest => append e (append sep (Join rest sep))
  end.

Definition inCutset (cutset : bytes) (c : ascii) : bool :=
  existsb (Ascii.eqb c) cutset.

Fixpoint dropWhile (f : ascii -> bool) (s : bytes) : bytes :=
  match s with
  | c :: s' => if f c then dropWhile f s' else s
  | [] => []
  end.

(** [strings.TrimLeft(s, cutset)] and [strings.TrimRight(s, cutset)] for a
    cutset of ASCII bytes, where Go compares byte by byte. *)
Definition TrimLeft (s cutset : string) : string :=
  stringOf (dropWhile (inCutset (bytesOf cutset)) (bytesOf s)).

Definition TrimRight (s cutset : string) : string :=
  stringOf (rev (dropWhile (inCutset (bytesOf cutset)) (rev (bytesOf s)))).

(** [unicode.IsSpace] on one byte: '\t', '\n', '\v', '\f', '\r', ' '. *)
Definition asciiSpace (c : ascii) : bool :=
  let n := byteVal c in
  ((9 <=? n) && (n <=? 13)) || (n =? 32).

(** The code points above 0x7F that [unicode.IsSpace] accepts, in UTF-8:
    U+0085, U+00A0 (two bytes) and U+1680, U+2000..U+200A, U+2028, U+2029,
    U+202F, U+205F, U+3000 (three bytes). *)
Definition space2 (b0 b1 : ascii) : bool :=
  (byteVal b0 =? 194) && ((byteVal b1 =? 133) || (byteVal b1 =? 160)).

Definition space3 (b0 b1 b2 : ascii) : bool :=
  let x := byteVal b0 in
  let y := byteVal b1 in
  let z := byteVal b2 in
  ((x =? 225) && (y =? 154) && (z =? 128))
  || ((x =? 226) && (y =? 128)
      && (((128 <=? z) && (z <=? 138)) || (z =? 168) || (z =? 169) || (z =? 175)))
  || ((x =? 226) && (y =? 129) && (z =? 159))
  || ((x =? 227) && (y =? 128) && (z =? 128)).

(** Drop the white space runes at the front of [s]. *)
Fixpoint trimSpaceLeft (s : bytes) : bytes :=
  match s with
  | [] => []
  | b0 :: s1 =>
      if asciiSpace b0 then trimSpaceLeft s1
      else
        match s1 with
        | [] => s
        | b1 :: s2 =>
            if space2 b0 b1 then trimSpaceLeft s2
            else
              match s2 with
              | [] => s
              | b2 :: s3 => if space3 b0 b1 b2 then trimSpaceLeft s3 else s
              end
        end
  end.

(** Drop the white space runes at the back; [r] is the string reversed, so
    the last byte of a rune comes first. *)
Fixpoint trimSpaceRightRev (r : bytes) : bytes :=
  match r with
  | [] => []
  | b0 :: r1 =>
      if asciiSpace b0 then trimSpaceRightRev r1
      else
        match r1 with
        | [] => r
        | b1 :: r2 =>
            if space2 b1 b0 then trimSpaceRightRev r2
            else
              match r2 with
              | [] => r
              | b2 :: r3 => if space3 b2 b1 b0 then trimSpaceRightRev r3 else r
              end
        end
  end.

(** [strings.TrimSpace(s)]. *)
Definition TrimSpace (s : string) : string :=
  stringOf (rev (trimSpaceRightRev (rev (trimSpaceLeft (bytesOf s))))).

End strings.

(** ** Package strconv *)

Module strconv.

Inductive NumError : Type :=
| ErrSyntax
| ErrRange.

Definition maxUint64 : Z := 2 ^ 64 - 1.

Definition isDigit (c : ascii) : bool :=
  (48 <=? byteVal c) && (byteVal c <=? 57).

(** The digit loop of [ParseUint(s, 10, 64)] with [n] the value so far: a
    byte that is no digit is a syntax error; when the value leaves the
    uint64 range the loop stops at once with the range error and the
    largest value, and the bytes after that are not looked at. *)
Fixpoint parseUintLoop (s : bytes) (n : Z) : Z * option NumError :=
  match s with
  | [] => (n, None)
  | c :: s' =>
      if isDigit c then
        let d := byteVal c - 48 in
        let cutoff := maxUint64 / 10 + 1 in
        if cutoff <=? n then (maxUint64, Some ErrRange)
        else
          let n1 := (n * 10 + d) mod 2 ^ 64 in
          if (n1 <? n) || (maxUint64 <? n1) then (maxUint64, Some ErrRange)
          else parseUintLoop s' n1
      else (0, Some ErrSyntax)
  end.

Definition ParseUint (s : bytes) : Z * option NumError :=
  match s with
  | [] => (0, Some ErrSyntax)
  | _ => parseUintLoop s 0
  end.

(** [ParseInt(s, 10, 0)]. *)
Definition ParseInt (s : bytes) : Z * option NumError :=
  match s with
  | [] => (0, Some ErrSyntax)
  | c :: s' =>
      let neg := Ascii.eqb c (byte 45) in
      let body := if Ascii.eqb c (byte 43) || neg then s' else s in
      match ParseUint body with
      | (_, Some ErrSyntax) => (0, Some ErrSyntax)
      | (un, _) =>
          let cutoff := 2 ^ (intSize - 1) in
          if negb neg && (cutoff <=? un) then (cutoff - 1, Some ErrRange)
          else if neg && (cutoff <? un) then (- cutoff, Some ErrRange)
          else (if neg then - un else un, None)
      end
  end.

(** [strconv.Atoi(s)], which is [ParseInt(s, 10, 0)] as an [int]. *)
Definition Atoi (s : string) : Z * option NumError :=
  ParseInt (bytesOf s).

(** [strconv.Itoa(n)], also what [fmt.Sprintf] prints for the verb d. *)
Definition Itoa (n : Z) : string :=
  NilZero.string_of_int (Z.to_int n).

End strconv.

(** ** Package regexp

    The two expressions of the decoder are a literal, followed by greedy
    repetitions of a character class inside capture groups, separated by
    literals.  [matchHere] is the backtracking search that defines Go's
    leftmost-first match: a repetition takes as many bytes as it can and
    gives them back one at a time while the rest of the expression fails. *)

Module regexp.

Inductive atom : Type :=
| Lit (l : string)
| Capture (cls : ascii -> bool) (min : nat).

Definition Regexp := list atom.

(** The class [\w]: digits, ASCII letters and the underscore. *)
Definition wordByte (c : ascii) : bool :=
  let n := byteVal c in
  ((48 <=? n) && (n <=? 57)) || ((65 <=? n) && (n <=? 90))
  || ((97 <=? n) && (n <=? 122)) || (n =? 95).

(** The class [[-\w ]]. *)
Definition dashWordSpace (c : ascii) : bool :=
  (byteVal c =? 45) || wordByte c || (byteVal c =? 32).

Fixpoint stripPrefix (p s : bytes) : option bytes :=
  match p, s with
  | [], _ => Some s
  | a :: p', c :: s' => if Ascii.eqb a c then stripPrefix p' s' else None
  | _ :: _, [] => None
  end.

Section Repetition.
Context {R : Type}.
Variable cls : ascii -> bool.
Variable min : nat.
(** What follows the repetition, given the bytes captured and the rest. *)
Variable k : bytes -> bytes -> option R.

Fixpoint matchRep (acc s : bytes) : option R :=
  let stop := if (min <=? List.length acc)%nat then k (rev acc) s else None in
  match s with
  | c :: s' =>
      if cls c then
        match matchRep (c :: acc) s' with
        | Some r => Some r
        | None => stop
        end
      else stop
  | [] => stop
  end.
End Repetition.

(** Match [re] at the start of [s]: the captured groups and what is left
    of [s] after the match. *)
Fixpoint matchHere (re : Regexp) (s : bytes) : option (list bytes * bytes) :=
  match re with
  | [] => Some ([], s)
  | Lit l :: re' =>
      match stripPrefix (bytesOf l) s with
      | Some s' => matchHere re' s'
      | None => None
      end
  | Capture cls min :: re' =>
      matchRep cls min
        (fun cap rest =>
           match matchHere re' rest with
           | Some (caps, r) => Some (cap :: caps, r)
           | None => None
           end)
        [] s
  end.

(** Successive matches that do not overlap, each as the matched text
    followed by its groups.  [skip] counts the bytes of the last match
    still to pass.  (Both expressions start with a literal, so no match is
    empty.) *)
Fixpoint findAllFrom (re : Regexp) (skip : nat) (s : bytes) {struct s}
  : list (list bytes) :=
  match s with
  | [] =>
      match skip, matchHere re [] with
      | O, Some (caps, _) => [[] :: caps]
      | _, _ => []
      end
  | _ :: s' =>
      match skip with
      | S j => findAllFrom re j s'
      | O =>
          match matchHere re s with
          | Some (caps, rest) =>
              let n := (List.length s - List.length rest)%nat in
              (firstn n s :: caps) :: findAllFrom re (n - 1) s'
          | None => findAllFrom re O s'
          end
      end
  end.

(** [re.FindAllStringSubmatch(s, -1)]. *)
Definition FindAllStringSubmatch (re : Regexp) (s : string) : list (list string) :=
  map (map stringOf) (findAllFrom re O (bytesOf s)).

End regexp.

(** ** Buffered channels

    A channel value is [None] for Go's nil channel and otherwise the buffer,
    oldest element first, with its capacity.  The operations below are the
    ones the controller uses, each of them atomic. *)

Module channel.

Record buffered (A : Type) : Type := mkChan {
  buf : list A;
  cap : nat
}.
Arguments mkChan {A} buf cap.
Arguments buf {A} b.
Arguments cap {A} b.

Definition chan (A : Type) := option (buffered A).

(** [make(chan A, n)]. *)
Definition make {A : Type} (n : nat) : chan A := Some (mkChan [] n).

(** [len(ch)], which is 0 for the nil channel. *)
Definition len {A : Type} (ch : chan A) : nat :=
  match ch with
  | Some b => List.length (buf b)
  | None => O
  end.

(** A send that is a case of a [select] with a [default]: the send happens
    when it can proceed at once, that is when the buffer has room.  A send
    on the nil channel never proceeds.  [None] is the default case. *)
Definition trySend {A : Type} (ch : chan A) (a : A) : option (chan A) :=
  match ch with
  | Some b =>
      if (List.length (buf b) <? cap b)%nat
      then Some (Some (mkChan (buf b ++ [a]) (cap b)))
      else None
  | None => None
  end.

(** A receive that can proceed: the oldest element and the channel after
    it.  [None] when the receive would block (empty buffer, nil channel). *)
Definition tryRecv {A : Type} (ch : chan A) : option (A * chan A) :=
  match ch with
  | Some b =>
      match buf b with
      | a :: rest => Some (a, Some (mkChan rest (cap b)))
      | [] => None
      end
  | None => None
  end.

End channel.

(** ** network/access_point.go: data *)

Definition accessPointRequestBufferSize : nat := 10.

(** A fixed-size array [[6]A]. *)
Record array6 (A : Type) : Type := mkArray6 {
  at0 : A; at1 : A; at2 : A; at3 : A; at4 : A; at5 : A
}.
Arguments mkArray6 {A} at0 at1 at2 at3 at4 at5.
Arguments at0 {A} a.
Arguments at1 {A} a.
Arguments at2 {A} a.
Arguments at3 {A} a.
Arguments at4 {A} a.
Arguments at5 {A} a.

(** The slice [a[:]] over the whole array. *)
Definition toSlice {A : Type} (a : array6 A) : list A :=
  [at0 a; at1 a; at2 a; at3 a; at4 a; at5 a].

(** The array after the slice over it has been written to; a slice keeps its
    length, [a] is the array before. *)
Definition ofSlice {A : Type} (a : array6 A) (l : list A) : array6 A :=
  match l with
  | [x0; x1; x2; x3; x4; x5] => mkArray6 x0 x1 x2 x3 x4 x5
  | _ => a
  end.

(** Modelled from the spec: [model.Team] is declared in the model package,
    which is not among the sources.  The controller reads two of its
    fields, [Id] and [WpaKey]; the specification gives them as an integer
    and a string. *)
Record Team : Type := mkTeam {
  Id : Z;
  WpaKey : string
}.

(** [[6]*model.Team]: a nil pointer is [None]. *)
Definition Teams := array6 (option Team).

Record TeamWifiStatus : Type := mkTeamWifiStatus {
  TeamId : Z;
  RadioLinked : bool;
  MBits : float
}.

Record AccessPoint : Type := mkAccessPoint {
  isVividType : bool;
  address : string;
  username : string;
  password : string;
  teamChannel : Z;
  networkSecurityEnabled : bool;
  configRequestChan : channel.chan Teams;
  TeamWifiStatuses : array6 TeamWifiStatus;
  initialStatusesFetched : bool
}.

(** The zero value of [TeamWifiStatus] and of [AccessPoint]. *)
Definition zeroStatus : TeamWifiStatus := mkTeamWifiStatus 0 false 0%float.

Definition zeroAccessPoint : AccessPoint :=
  mkAccessPoint false EmptyString EmptyString EmptyString 0 false None
    (mkArray6 zeroStatus zeroStatus zeroStatus zeroStatus zeroStatus zeroStatus)
    false.

(** The errors of the controller.  The code builds them with [fmt.Errorf];
    each constructor stands for one message and keeps its arguments. *)
Inductive error : Type :=
| InvalidPosition (position : Z)
    (* "invalid team position %d" *)
| InvalidCredential (wpaKey : string) (teamId : Z)
    (* "invalid WPA key '%s' configured for team %d" *)
| MalformedStatus (got : nat)
    (* "Could not parse wifi info; expected 6 team networks, got %d." *)
| QueueFull
    (* "WiFi config request buffer full" *)
| WifiInfoError (cause : error)
    (* "Error getting wifi info from AP: %v" *)
| BtuInfoError (cause : error)
    (* "Error getting BTU info from AP: %v" *)
| CommandTimedOut
    (* "WiFi SSH command timed out after %d seconds" *)
| SshError (msg : string).
    (* an error of the ssh package: dial, session or remote command *)

Definition isNil (e : option error) : bool :=
  match e with
  | None => true
  | Some _ => false
  end.

Definition setStatuses (ap : AccessPoint) (s : array6 TeamWifiStatus) : AccessPoint :=
  mkAccessPoint (isVividType ap) (address ap) (username ap) (password ap)
    (teamChannel ap) (networkSecurityEnabled ap) (configRequestChan ap)
    s (initialStatusesFetched ap).

Definition setInitialStatusesFetched (ap : AccessPoint) (b : bool) : AccessPoint :=
  mkAccessPoint (isVividType ap) (address ap) (username ap) (password ap)
    (teamChannel ap) (networkSecurityEnabled ap) (configRequestChan ap)
    (TeamWifiStatuses ap) b.

Definition setConfigRequestChan (ap : AccessPoint) (ch : channel.chan Teams) : AccessPoint :=
  mkAccessPoint (isVividType ap) (address ap) (username ap) (password ap)
    (teamChannel ap) (networkSecurityEnabled ap) ch
    (TeamWifiStatuses ap) (initialStatusesFetched ap).

(** ** The configuration generator *)

Local Open Scope string_scope.

Definition quoteString : string := String dquote EmptyString.

Definition newline : string := String (byte 10) EmptyString.

(** [fmt.Sprintf("uci batch <<ENDCONFIG\n%s\nENDCONFIG\n", commandList)]. *)
Definition addConfigurationHeader (commandList : string) : string :=
  "uci batch <<ENDCONFIG" ++ newline ++ commandList ++ newline ++ "ENDCONFIG" ++ newline.

(** [fmt.Sprintf("no-team-%d", position)]. *)
Definition placeholder (position : Z) : string :=
  "no-team-" ++ strconv.Itoa position.

(** The three (or four) set directives of one station. *)
Definition stationCommands (vivid : bool) (position : Z) (ssid key : string) : list string :=
  let iface := "set wireless.@wifi-iface[" ++ strconv.Itoa position ++ "]" in
  List.app
    [iface ++ ".disabled='0'";
     iface ++ ".ssid='" ++ ssid ++ "'";
     iface ++ ".key='" ++ key ++ "'"]
    (if vivid then [iface ++ ".sae_password='" ++ key ++ "'"] else []).

(** Verifies WPA key validity and produces the configuration command for
    the given team.  [len(team.WpaKey)] counts bytes. *)
Definition generateTeamAccessPointConfig (ap : AccessPoint) (team : option Team)
    (position : Z) : string * option error :=
  if (position <? 1)%Z || (position >? 6)%Z then
    ("", Some (InvalidPosition position))
  else
    match team with
    | None =>
        let ssid := placeholder position in
        let key := placeholder position in
        (strings.Join (stationCommands (isVividType ap) position ssid key) newline, None)
    | Some t =>
        if (String.length (WpaKey t) <? 8)%nat || (63 <? String.length (WpaKey t))%nat then
          ("", Some (InvalidCredential (WpaKey t) (Id t)))
        else
          let ssid := strconv.Itoa (Id t) in
          let key := WpaKey t in
          (strings.Join (stationCommands (isVividType ap) position ssid key) newline, None)
    end.

(** ** The status decoder *)

Definition ssidRe : regexp.Regexp :=
  [regexp.Lit "ESSID: "; regexp.Lit quoteString;
   regexp.Capture regexp.dashWordSpace 0; regexp.Lit quoteString].

Definition linkQualityRe : regexp.Regexp :=
  [regexp.Lit "Link Quality: "; regexp.Capture regexp.dashWordSpace 1;
   regexp.Lit "/"; regexp.Capture regexp.dashWordSpace 1].

(** One round of the loop over [statuses]: record [i] from the [i]-th match
    of each expression. *)
Definition decodeOne (ssids linkQualities : list (list string)) (i : nat)
    (status : TeamWifiStatus) : go TeamWifiStatus :=
  m <- index ssids i ;;
  ssid <- index m 1 ;;
  let teamId := fst (strconv.Atoi ssid) in
  q <- index linkQualities i ;;
  linkQualityNumerator <- index q 1 ;;
  Return (mkTeamWifiStatus teamId (negb (String.eqb linkQualityNumerator "unknown"))
            (MBits status)).

(** The loop [for i := range statuses], from index [i] on. *)
Fixpoint decodeLoop (ssids linkQualities : list (list string)) (i : nat)
    (statuses : list TeamWifiStatus) : go (list TeamWifiStatus) :=
  match statuses with
  | [] => Return []
  | status :: rest =>
      status' <- decodeOne ssids linkQualities i status ;;
      rest' <- decodeLoop ssids linkQualities (S i) rest ;;
      Return (status' :: rest')
  end.

(** [decodeWifiInfo(wifiInfo, statuses)]: the slice after the call and the
    error returned. *)
Definition decodeWifiInfo (wifiInfo : string) (statuses : list TeamWifiStatus)
    : go (list TeamWifiStatus * option error) :=
  let ssids := regexp.FindAllStringSubmatch ssidRe wifiInfo in
  let linkQualities := regexp.FindAllStringSubmatch linkQualityRe wifiInfo in
  if (List.length ssids <? 6)%nat || (List.length linkQualities <? 6)%nat then
    Return (statuses, Some (MalformedStatus (List.length ssids)))
  else
    statuses' <- decodeLoop ssids linkQualities 0 statuses ;;
    Return (statuses', None).

(** ** The bandwidth sampler *)

(** The fields of one sample line:
    [strings.Split(strings.TrimRight(strings.TrimLeft(strings.TrimSpace(line), "["), "]"), ",")]. *)
Definition sampleFields (line : string) : list string :=
  strings.Split (strings.TrimRight (strings.TrimLeft (strings.TrimSpace line) "[") "]") ",".

(** [strconv.Atoi(strings.TrimSpace(field))] with the error dropped. *)
Definition counter (field : string) : Z :=
  fst (strconv.Atoi (strings.TrimSpace field)).

(** The constant [0.000008] as a [float64]: the binary64 value nearest to
    8/1000000. *)
Definition megabitsPerByte : float := 0x1.0c6f7a0b5ed8dp-17%float.

(** The value computed from the four byte counters:
    [float64(rXBytes-rXBytesOld+tXBytes-tXBytesOld) * 0.000008 / 5.0]. *)
Definition mBitsOf (rXBytes tXBytes rXBytesOld tXBytesOld : Z) : float :=
  (float64 (intSub (intAdd (intSub rXBytes rXBytesOld) tXBytes) tXBytesOld)
   * megabitsPerByte / 5)%float.

(** Parses the bytes of the bandwidth monitor and returns the 5 second
    average in megabits per second. *)
Definition parseBtu (response : string) : go float :=
  let mBits := 0%float in
  let lines := strings.Split response "]," in
  if (6 <? List.length lines)%nat then
    l5 <- index lines (List.length lines - 6) ;;
    let fiveCnt := sampleFields l5 in
    l1 <- index lines (List.length lines - 1) ;;
    let lastCnt := sampleFields l1 in
    f <- index lastCnt 1 ;;
    let rXBytes := counter f in
    f <- index lastCnt 3 ;;
    let tXBytes := counter f in
    f <- index fiveCnt 1 ;;
    let rXBytesOld := counter f in
    f <- index fiveCnt 3 ;;
    let tXBytesOld := counter f in
    Return (mBitsOf rXBytes tXBytes rXBytesOld tXBytesOld)
  else Return mBits.

(** ** The controller *)

(** The team id expected at a station: 0 for no team. *)
Definition expectedTeamId (team : option Team) : Z :=
  match team with
  | Some t => Id t
  | None => 0
  end.

(** Returns true if the configured networks as read from the access point
    match the given teams. *)
Definition configIsCorrectForTeams (ap : AccessPoint) (teams : Teams) : bool :=
  if negb (initialStatusesFetched ap) then false
  else
    forallb
      (fun p : option Team * TeamWifiStatus =>
         (TeamId (snd p) =? expectedTeamId (fst p))%Z)
      (combine (toSlice teams) (toSlice (TeamWifiStatuses ap))).

Definition SetSettings (ap : AccessPoint) (isVividType' : bool)
    (address' username' password' : string) (teamChannel' : Z)
    (networkSecurityEnabled' : bool) : AccessPoint :=
  mkAccessPoint isVividType' address' username' password' teamChannel'
    networkSecurityEnabled'
    (* Create config channel the first time this method is called. *)
    (match configRequestChan ap with
     | None => channel.make accessPointRequestBufferSize
     | Some b => Some b
     end)
    (TeamWifiStatuses ap) (initialStatusesFetched ap).

(** Adds a request to the asynchronous queue: a [select] whose only case is
    the send, with a [default]. *)
Definition ConfigureTeamWifi (ap : AccessPoint) (teams : Teams)
    : AccessPoint * option error :=
  match channel.trySend (configRequestChan ap) teams with
  | Some ch => (setConfigRequestChan ap ch, None)
  | None => (ap, Some QueueFull)
  end.

(** The receives of [Run] after the first one: [n] further receives, each
    replacing [request].  [None] when a receive cannot proceed. *)
Fixpoint drain (n : nat) (request : Teams) (ch : channel.chan Teams)
    : option (Teams * channel.chan Teams) :=
  match n with
  | O => Some (request, ch)
  | S k =>
      match channel.tryRecv ch with
      | Some (r, ch') => drain k r ch'
      | None => None
      end
  end.

(** A call of [ConfigureTeamWifi] seen from the channel: the request is
    queued when there is room and dropped otherwise. *)
Definition submit (ch : channel.chan Teams) (teams : Teams) : channel.chan Teams :=
  match channel.trySend ch teams with
  | Some ch' => ch'
  | None => ch
  end.

Definition submitAll (ch : channel.chan Teams) (l : list Teams) : channel.chan Teams :=
  fold_left submit l ch.

(** [drain] while other goroutines call [ConfigureTeamWifi]: the requests
    [later k] are submitted just before the receive that has [k] receives
    after it. *)
Fixpoint drainAmid (later : nat -> list Teams) (n : nat) (request : Teams)
    (ch : channel.chan Teams) : option (Teams * channel.chan Teams) :=
  match n with
  | O => Some (request, ch)
  | S k =>
      match channel.tryRecv (submitAll ch (later k)) with
      | Some (r, ch') => drainAmid later k r ch'
      | None => None
      end
  end.

(** The requests submitted during a drain of [n] receives. *)
Fixpoint arrivals (later : nat -> list Teams) (n : nat) : list Teams :=
  match n with
  | O => []
  | S k => later k ++ arrivals later k
  end.

(** The receive case of [Run] up to the call of the handler, with the
    requests [early] submitted between the first receive and [len], and
    [later] during the loop. *)
Definition receiveLatestAmid (early : list Teams) (later : nat -> list Teams)
    (ch : channel.chan Teams) : option (Teams * channel.chan Teams) :=
  match channel.tryRecv ch with
  | Some (request, ch1) =>
      let ch2 := submitAll ch1 early in
      drainAmid later (channel.len ch2) request ch2
  | None => None
  end.

(** [[6]*model.Team{nil, nil, nil, nil, nil, nil}]. *)
Definition noTeams : Teams := mkArray6 None None None None None None.

(** [a[i].MBits = btu] for [i] below 6. *)
Definition setMBits (a : array6 TeamWifiStatus) (i : nat) (btu : float)
    : array6 TeamWifiStatus :=
  let upd (s : TeamWifiStatus) := mkTeamWifiStatus (TeamId s) (RadioLinked s) btu in
  match i with
  | 0%nat => mkArray6 (upd (at0 a)) (at1 a) (at2 a) (at3 a) (at4 a) (at5 a)
  | 1%nat => mkArray6 (at0 a) (upd (at1 a)) (at2 a) (at3 a) (at4 a) (at5 a)
  | 2%nat => mkArray6 (at0 a) (at1 a) (upd (at2 a)) (at3 a) (at4 a) (at5 a)
  | 3%nat => mkArray6 (at0 a) (at1 a) (at2 a) (upd (at3 a)) (at4 a) (at5 a)
  | 4%nat => mkArray6 (at0 a) (at1 a) (at2 a) (at3 a) (upd (at4 a)) (at5 a)
  | 5%nat => mkArray6 (at0 a) (at1 a) (at2 a) (at3 a) (at4 a) (upd (at5 a))
  | _ => a
  end.

Section Controller.

(** The access point at the other end and the network in between: its
    state, and what one SSH exchange ([ssh.Dial] to address:22 with the
    user name and password, one session, one command, the 30 second limit)
    gives back. *)
Variable Device : Type.
Variable ssh : Device -> string -> string -> string -> string
               -> Device * (string * option error).

(** The controller, the device, and the commands sent so far (latest
    last). *)
Record World : Type := mkWorld {
  ap : AccessPoint;
  device : Device;
  issued : list string
}.

Definition withAp (w : World) (a : AccessPoint) : World :=
  mkWorld a (device w) (issued w).

(** How a call ends: it returns, it panics, or it has not returned (the
    retry loops have no bound; a receive may block).  The world is the one
    reached. *)
Inductive outcome (A : Type) : Type :=
| Done (a : A) (w : World)
| Crashed (p : panic) (w : World)
| Unfinished (w : World).
Arguments Done {A} a w.
Arguments Crashed {A} p w.
Arguments Unfinished {A} w.

Definition worldOf {A : Type} (o : outcome A) : World :=
  match o with
  | Done _ w => w
  | Crashed _ w => w
  | Unfinished w => w
  end.

Definition andThen {A B : Type} (o : outcome A) (k : A -> World -> outcome B)
    : outcome B :=
  match o with
  | Done a w => k a w
  | Crashed p w => Crashed p w
  | Unfinished w => Unfinished w
  end.

(** Logs into the access point via SSH and runs the given shell command. *)
Definition runCommand (w : World) (command : string)
    : World * (string * option error) :=
  let (d, r) := ssh (device w) (address (ap w)) (username (ap w))
                    (password (ap w)) command in
  (mkWorld (ap w) d (issued w ++ [command]), r).

(** Calls the access point to configure the non-team-related settings. *)
Definition ConfigureAdminSettings (w : World) : World * option error :=
  if negb (networkSecurityEnabled (ap w)) then (w, None)
  else
    let commands :=
      ["set wireless.radio0.channel='" ++ strconv.Itoa (teamChannel (ap w)) ++ "'";
       "commit wireless"] in
    let command :=
      "uci batch <<ENDCONFIG && wifi radio0" ++ newline
      ++ strings.Join commands newline ++ newline ++ "ENDCONFIG" ++ newline in
    let (w', r) := runCommand w command in
    (w', snd r).

(** Fetches the current wifi network status from the access point and
    updates the status structure. *)
Definition updateTeamWifiStatuses (w : World) : outcome (option error) :=
  if negb (networkSecurityEnabled (ap w)) then Done None w
  else
    let (w1, r) := runCommand w "iwinfo" in
    match snd r with
    | Some e => Done (Some (WifiInfoError e)) w1
    | None =>
        match decodeWifiInfo (fst r) (toSlice (TeamWifiStatuses (ap w1))) with
        | Panic p => Crashed p w1
        | Return (statuses, err) =>
            let a := setStatuses (ap w1) (ofSlice (TeamWifiStatuses (ap w1)) statuses) in
            match err with
            | Some e => Done (Some (WifiInfoError e)) (withAp w1 a)
            | None =>
                Done None
                  (withAp w1
                     (if negb (initialStatusesFetched a)
                      then setInitialStatusesFetched a true
                      else a))
            end
        end
    end.

(** The loop of [updateTeamWifiBTU] over the stations [todo]. *)
Fixpoint btuLoop (infWifi : list string) (todo : list nat) (w : World)
    : outcome (option error) :=
  match todo with
  | [] => Done None w
  | i :: todo' =>
      match index infWifi i with
      | Panic p => Crashed p w
      | Return inf =>
          let (w1, r) := runCommand w ("luci-bwc -i ath" ++ inf) in
          match snd r with
          | Some e => Done (Some (BtuInfoError e)) w1
          | None =>
              match parseBtu (fst r) with
              | Panic p => Crashed p w1
              | Return btu =>
                  btuLoop infWifi todo'
                    (withAp w1
                       (setStatuses (ap w1)
                          (setMBits (TeamWifiStatuses (ap w1)) i btu)))
              end
          end
      end
  end.

(** Polls the 6 wlans on the ap for bandwidth use and updates data
    structure. *)
Definition updateTeamWifiBTU (w : World) : outcome (option error) :=
  if negb (networkSecurityEnabled (ap w)) then Done None w
  else
    let infWifi :=
      if isVividType (ap w) then ["1"; "11"; "12"; "13"; "14"; "15"]
      else ["0"; "0-1"; "0-2"; "0-3"; "0-4"; "0-5"] in
    btuLoop infWifi (seq 0 6) w.

(** [configureTeams]: both loops, with [fuel] bounding the number of
    commands tried.  [teamIndex] is the station being configured and
    [retryCount] the counter of the log lines. *)
Fixpoint configureTeamsFrom (fuel : nat) (teams : Teams) (teamIndex : nat)
    (retryCount : Z) (w : World) : outcome unit :=
  match fuel with
  | O => Unfinished w
  | S fuel' =>
      if (teamIndex <? 6)%nat then
        match index (toSlice teams) teamIndex with
        | Panic p => Crashed p w
        | Return team =>
            let config :=
              fst (generateTeamAccessPointConfig (ap w) team (Z.of_nat teamIndex + 1)) in
            let command := addConfigurationHeader config in
            let (w1, r) := runCommand w command in
            match snd r with
            | Some _ =>
                configureTeamsFrom fuel' teams teamIndex (intAdd retryCount 1) w1
            | None =>
                configureTeamsFrom fuel' teams (S teamIndex) retryCount w1
            end
        end
      else
        let (w1, _) := runCommand w "uci commit wireless" in
        let (w2, _) := runCommand w1 "wifi reload" in
        andThen (updateTeamWifiStatuses w2)
          (fun err w3 =>
             if isNil err && configIsCorrectForTeams (ap w3) teams
             then Done tt w3
             else configureTeamsFrom fuel' teams 0 retryCount w3)
  end.

Definition configureTeams (fuel : nat) (teams : Teams) (w : World) : outcome unit :=
  configureTeamsFrom fuel teams 0 1 w.

Definition handleTeamWifiConfiguration (fuel : nat) (teams : Teams) (w : World)
    : outcome unit :=
  if negb (networkSecurityEnabled (ap w)) then Done tt w
  else
    andThen (updateTeamWifiStatuses w)
      (fun err w1 =>
         if isNil err && configIsCorrectForTeams (ap w1) teams then Done tt w1
         else
           andThen
             (if negb (isVividType (ap w1))
              then configureTeams fuel noTeams w1
              else Done tt w1)
             (fun _ w2 => configureTeams fuel teams w2)).

(** One round of the loop of [Run], entered when one of the two cases of
    its [select] can proceed: the receive when a request is queued, the
    timer otherwise. *)
Definition runOnce (fuel : nat) (w : World) : outcome unit :=
  match channel.tryRecv (configRequestChan (ap w)) with
  | Some (request, ch) =>
      (* If there are multiple requests queued up, only consider the latest one. *)
      let numExtraRequests := channel.len ch in
      match drain numExtraRequests request ch with
      | Some (request', ch') =>
          handleTeamWifiConfiguration fuel request'
            (withAp w (setConfigRequestChan (ap w) ch'))
      | None => Unfinished (withAp w (setConfigRequestChan (ap w) ch))
      end
  | None =>
      andThen (updateTeamWifiStatuses w)
        (fun _ w1 => andThen (updateTeamWifiBTU w1) (fun _ w2 => Done tt w2))
  end.

(** The methods of [AccessPoint], as operations on the world.  A crash or
    a call that has not returned leaves the world it reached. *)
Inductive operation : Type :=
| OpSetSettings (isVividType' : bool) (address' username' password' : string)
    (teamChannel' : Z) (networkSecurityEnabled' : bool)
| OpConfigureAdminSettings
| OpConfigureTeamWifi (teams : Teams)
| OpHandleTeamWifiConfiguration (fuel : nat) (teams : Teams)
| OpConfigureTeams (fuel : nat) (teams : Teams)
| OpUpdateTeamWifiStatuses
| OpUpdateTeamWifiBTU
| OpRunOnce (fuel : nat).

Definition perform (o : operation) (w : World) : World :=
  match o with
  | OpSetSettings v a u p c e => withAp w (SetSettings (ap w) v a u p c e)
  | OpConfigureAdminSettings => fst (ConfigureAdminSettings w)
  | OpConfigureTeamWifi teams => withAp w (fst (ConfigureTeamWifi (ap w) teams))
  | OpHandleTeamWifiConfiguration fuel teams =>
      worldOf (handleTeamWifiConfiguration fuel teams w)
  | OpConfigureTeams fuel teams => worldOf (configureTeams fuel teams w)
  | OpUpdateTeamWifiStatuses => worldOf (updateTeamWifiStatuses w)
  | OpUpdateTeamWifiBTU => worldOf (updateTeamWifiBTU w)
  | OpRunOnce fuel => worldOf (runOnce fuel w)
  end.

Definition performAll (ops : list operation) (w : World) : World :=
  fold_left (fun w' o => perform o w') ops w.

Definition isSetSettings (o : operation) : bool :=
  match o with
  | OpSetSettings _ _ _ _ _ _ => true
  | _ => false
  end.

End Controller.

Arguments Done {Device A} a w.
Arguments Crashed {Device A} p w.
Arguments Unfinished {Device A} w.
Arguments mkWorld {Device} ap device issued.
Arguments ap {Device} w.
Arguments device {Device} w.
Arguments issued {Device} w.
Arguments worldOf {Device A} o.
Arguments withAp {Device} w a.

(** ** Reading the matches of the decoder *)

(** The number of capture groups of an expression. *)
Fixpoint countGroups (re : regexp.Regexp) : nat :=
  match re with
  | [] => O
  | regexp.Lit _ :: re' => countGroups re'
  | regexp.Capture _ _ :: re' => S (countGroups re')
  end.

(** Group [j] of match [i] (group 0 is the matched text); the empty string
    where there is none. *)
Definition submatch (matches : list (list string)) (i j : nat) : string :=
  nth j (nth i matches []) EmptyString.

(** What the decoder writes into a record, from the name and the numerator
    of the link quality it found for it. *)
Definition decoded (name numerator : string) (old : TeamWifiStatus) : TeamWifiStatus :=
  mkTeamWifiStatus (fst (strconv.Atoi name))
    (negb (String.eqb numerator "unknown")) (MBits old).

(** ** Decimal numerals

    What a string denotes as a number, for the statements about
    [strconv.Atoi]: these definitions know nothing of ranges or errors. *)

(** The value of the digits [s] after the value [n] of the digits before. *)
Fixpoint horner (s : bytes) (n : Z) : Z :=
  match s with
  | [] => n
  | c :: s' => horner s' (n * 10 + (byteVal c - 48))
  end.

Definition allDigits (s : bytes) : bool := forallb strconv.isDigit s.

(** The sign and the rest of a signed numeral. *)
Definition signAndBody (s : bytes) : bool * bytes :=
  match s with
  | c :: s' =>
      if Ascii.eqb c (byte 45) then (true, s')
      else if Ascii.eqb c (byte 43) then (false, s')
      else (false, s)
  | [] => (false, [])
  end.

(** The number a string denotes when it is a decimal numeral: one or more
    digits, with a sign before them or not. *)
Definition numeralValue (s : string) : option Z :=
  let (neg, body) := signAndBody (bytesOf s) in
  match body with
  | [] => None
  | _ =>
      if allDigits body
      then Some (if neg then - horner body 0 else horner body 0)
      else None
  end.

(** The digits a string starts with. *)
Fixpoint leadingDigits (s : bytes) : bytes :=
  match s with
  | c :: s' => if strconv.isDigit c then c :: leadingDigits s' else []
  | [] => []
  end.

(** The value of the digits that the body of a string starts with. *)
Definition leadingValue (s : string) : Z :=
  horner (leadingDigits (snd (signAndBody (bytesOf s)))) 0.

(** ** What the methods keep of the controller *)

(** [a'] has the settings and the queue of [a], and has fetched statuses if
    [a] has. *)
Definition evolves (a a' : AccessPoint) : Prop :=
  isVividType a' = isVividType a
  /\ address a' = address a
  /\ username a' = username a
  /\ password a' = password a
  /\ teamChannel a' = teamChannel a
  /\ networkSecurityEnabled a' = networkSecurityEnabled a
  /\ configRequestChan a' = configRequestChan a
  /\ (initialStatusesFetched a = true -> initialStatusesFetched a' = true).

(** ** Status fetches between two worlds *)

(** [w'] was reached from [w]: its commands are those sent up to [w] and
    then some more. *)
Definition extends {Device : Type} (w w' : World Device) : Prop :=
  exists post, issued w' = List.app (issued w) post.

(** On the way from [w] to [w'] a status fetch returned nil with network
    security on: [updateTeamWifiStatuses] was called in a world [w0]
    reached from [w], where the flag was still false, and its one [iwinfo]
    command is among the commands sent up to [w']. *)
Definition fetchedBetween {Device : Type}
    (ssh : Device -> string -> string -> string -> string
           -> Device * (string * option error))
    (w w' : World Device) : Prop :=
  exists (w0 w1 : World Device) (pre post : list string),
    networkSecurityEnabled (ap w0) = true
    /\ initialStatusesFetched (ap w0) = false
    /\ updateTeamWifiStatuses Device ssh w0 = Done None w1
    /\ issued w0 = List.app (issued w) pre
    /\ issued w' = List.app (issued w) (List.app pre (List.app ["iwinfo"] post)).

(** From [w] to [w'] commands were only added, and the flag went from
    false to true only through such a fetch. *)
Definition traced {Device : Type}
    (ssh : Device -> string -> string -> string -> string
           -> Device * (string * option error))
    (w w' : World Device) : Prop :=
  extends w w'
  /\ (initialStatusesFetched (ap w) = false ->
      initialStatusesFetched (ap w') = true ->
      fetchedBetween ssh w w').

(** ** A device for the examples

    It answers [iwinfo] with station 1 on the network of team 1, linked, and
    the other five on their placeholders, not linked; and a bandwidth query
    with seven samples.  Its state counts the exchanges. *)

Definition iwinfoBlock (n : Z) (ssid quality : string) : string :=
  "ath" ++ strconv.Itoa n ++ "      ESSID: " ++ quoteString ++ ssid ++ quoteString ++ newline
  ++ "          Access Point: 00:25:9C:14:31:6B" ++ newline
  ++ "          Mode: Master  Channel: 157 (5.785 GHz)" ++ newline
  ++ "          Tx-Power: 23 dBm  Link Quality: " ++ quality ++ "/70" ++ newline
  ++ "          Signal: unknown  Noise: -95 dBm" ++ newline ++ newline.

Definition mockInfo : string :=
  iwinfoBlock 0 "1" "70" ++ iwinfoBlock 1 "no-team-2" "unknown"
  ++ iwinfoBlock 2 "no-team-3" "unknown" ++ iwinfoBlock 3 "no-team-4" "unknown"
  ++ iwinfoBlock 4 "no-team-5" "unknown" ++ iwinfoBlock 5 "no-team-6" "unknown".

(** One sample of the bandwidth monitor: time, received bytes and packets,
    transmitted bytes and packets. *)
Definition btuSample (time rxBytes txBytes : Z) : string :=
  "[ " ++ strconv.Itoa time ++ ", " ++ strconv.Itoa rxBytes ++ ", 10, "
  ++ strconv.Itoa txBytes ++ ", 20 ]".

Definition btuDump (samples : list string) : string :=
  strings.Join samples ("," ++ newline).

Definition mockDump : string :=
  btuDump [btuSample 1 0 0; btuSample 2 100 0; btuSample 3 100 0; btuSample 4 100 0;
           btuSample 5 100 0; btuSample 6 100 0; btuSample 7 1000100 625000].

Definition mockSsh (d : nat) (address' username' password' command : string)
    : nat * (string * option error) :=
  (S d,
   (if String.eqb command "iwinfo" then mockInfo
    else if strings.hasPrefix (bytesOf "luci-bwc") (bytesOf command) then mockDump
    else "",
    None)).

(** A status dump with five networks only. *)
Definition shortInfo : string :=
  iwinfoBlock 0 "1" "70" ++ iwinfoBlock 1 "no-team-2" "unknown"
  ++ iwinfoBlock 2 "no-team-3" "unknown" ++ iwinfoBlock 3 "no-team-4" "unknown"
  ++ iwinfoBlock 4 "no-team-5" "unknown".

(** A status dump whose first network has a name of twenty digits. *)
Definition longNameInfo : string :=
  iwinfoBlock 0 "99999999999999999999" "70" ++ iwinfoBlock 1 "no-team-2" "unknown"
  ++ iwinfoBlock 2 "no-team-3" "unknown" ++ iwinfoBlock 3 "no-team-4" "unknown"
  ++ iwinfoBlock 4 "no-team-5" "unknown" ++ iwinfoBlock 5 "no-team-6" "unknown".

Definition zeroStatuses : list TeamWifiStatus :=
  toSlice (TeamWifiStatuses zeroAccessPoint).

(** Samples as (time, received bytes, transmitted bytes), oldest first, and
    the dump the bandwidth monitor prints for them. *)
Definition dumpOf (samples : list (Z * Z * Z)) : string :=
  btuDump (map (fun s => btuSample (fst (fst s)) (snd (fst s)) (snd s)) samples).

(** The throughput as the specification words it: from the latest sample
    and the sample 6 positions before it, and 0 with fewer than 7 samples. *)
Definition specifiedBtu (samples : list (Z * Z * Z)) : float :=
  if (List.length samples <? 7)%nat then 0%float
  else
    let latest := nth (List.length samples - 1) samples (0, 0, 0)%Z in
    let baseline := nth (List.length samples - 1 - 6) samples (0, 0, 0)%Z in
    mBitsOf (snd (fst latest)) (snd latest) (snd (fst baseline)) (snd baseline).

(** The throughput as the code computes it: from the latest sample and the
    sample 5 positions before it. *)
Definition windowBtu (samples : list (Z * Z * Z)) : float :=
  if (List.length samples <? 7)%nat then 0%float
  else
    let latest := nth (List.length samples - 1) samples (0, 0, 0)%Z in
    let baseline := nth (List.length samples - 6) samples (0, 0, 0)%Z in
    mBitsOf (snd (fst latest)) (snd latest) (snd (fst baseline)) (snd baseline).

(** The line of a sample up to its closing bracket. *)
Definition sampleBody (s : Z * Z * Z) : bytes :=
  bytesOf ("[ " ++ strconv.Itoa (fst (fst s)) ++ ", " ++ strconv.Itoa (snd (fst s))
           ++ ", 10, " ++ strconv.Itoa (snd s) ++ ", 20 ").

(** The segments between the "]," separators of a dump of [samples], the
    first of them after the bytes [pre]: the last keeps its bracket, and
    each but the first starts with the newline. *)
Fixpoint segmentsFrom (pre : bytes) (samples : list (Z * Z * Z)) : list bytes :=
  match samples with
  | [] => []
  | [s] => [(pre ++ sampleBody s ++ bytesOf "]")%list]
  | s :: rest => (pre ++ sampleBody s)%list :: segmentsFrom (bytesOf newline) rest
  end.

(** A byte of 7-bit ASCII that is no white space. *)
Definition plainByte (c : ascii) : bool :=
  (byteVal c <? 128)%Z && negb (strings.asciiSpace c).

(** A text that starts and ends with such a byte. *)
Definition plainEnds (l : bytes) : bool :=
  match l with
  | c :: _ => plainByte c
  | [] => false
  end
  && match rev l with
     | c :: _ => plainByte c
     | [] => false
     end.

(** The fields of a sample line between its brackets, with [e] for the
    last one. *)
Definition fieldsText (s : Z * Z * Z) (e : bytes) : bytes :=
  ((bytesOf " " ++ bytesOf (strconv.Itoa (fst (fst s)))) ++ [byte 44]
   ++ (bytesOf " " ++ bytesOf (strconv.Itoa (snd (fst s)))) ++ [byte 44]
   ++ bytesOf " 10" ++ [byte 44]
   ++ (bytesOf " " ++ bytesOf (strconv.Itoa (snd s))) ++ [byte 44]
   ++ e)%list.

(** A digit or the minus sign. *)
Definition numeralByte (c : ascii) : bool :=
  strconv.isDigit c || Ascii.eqb c (byte 45).

(** Seven samples: 100 bytes received between the first and the second,
    nothing after that. *)
Definition sevenSamples : list (Z * Z * Z) :=
  [(1, 0, 0); (2, 100, 0); (3, 100, 0); (4, 100, 0); (5, 100, 0); (6, 100, 0);
   (7, 100, 0)]%Z.

(** A dump of seven samples whose last line was cut after two fields. *)
Definition truncatedDump : string :=
  dumpOf [(1, 0, 0); (2, 100, 0); (3, 100, 0); (4, 100, 0); (5, 100, 0); (6, 100, 0)]%Z
  ++ "," ++ newline ++ "[ 7, 100".

(** A device that answers a bandwidth query with [truncatedDump]. *)
Definition truncatingSsh (d : nat) (address' username' password' command : string)
    : nat * (string * option error) :=
  (S d,
   (if String.eqb command "iwinfo" then mockInfo else truncatedDump, None)).

(** A device that cannot be reached. *)
Definition deadSsh (d : nat) (address' username' password' command : string)
    : nat * (string * option error) :=
  (S d, ("", Some (SshError "dial tcp: i/o timeout"))).

Definition team1 : Team := mkTeam 1 "12345678".
Definition team254 : Team := mkTeam 254 "abcdefgh".

Definition scenarioTeams : Teams := mkArray6 (Some team1) None None None None None.
Definition otherTeams : Teams := mkArray6 (Some team254) None None None None None.

(** The controller after a first [SetSettings], with security on or off. *)
Definition readyAp (enabled : bool) : AccessPoint :=
  SetSettings zeroAccessPoint false "10.0.100.3" "root" "1234Five" 157 enabled.

(** Worlds for the examples: no exchange yet, no command sent. *)
Definition mockWorld (a : AccessPoint) : World nat := mkWorld a O [].

(** The world after a first status fetch from the mock device. *)
Definition fetchedWorld : World nat :=
  worldOf (updateTeamWifiStatuses nat mockSsh (mockWorld (readyAp true))).

(** A controller whose queue holds [requests]. *)
Definition queuedAp (enabled : bool) (requests : list Teams) : AccessPoint :=
  setConfigRequestChan (readyAp enabled)
    (Some (channel.mkChan requests accessPointRequestBufferSize)).

(** Calls of several methods, one after the other. *)
Definition someOperations : list operation :=
  [OpConfigureTeamWifi otherTeams; OpRunOnce 12; OpUpdateTeamWifiBTU;
   OpSetSettings true "10.0.100.2" "admin" "secret" 36 true;
   OpConfigureTeams 4 scenarioTeams; OpConfigureAdminSettings;
   OpHandleTeamWifiConfiguration 3 noTeams; OpUpdateTeamWifiStatuses].

Definition operationsWithoutSettings : list operation :=
  [OpConfigureTeamWifi otherTeams; OpRunOnce 12; OpUpdateTeamWifiBTU;
   OpConfigureTeams 4 scenarioTeams; OpConfigureAdminSettings;
   OpHandleTeamWifiConfiguration 3 noTeams; OpUpdateTeamWifiStatuses].

(** What the decoder makes of [mockInfo]. *)
Definition mockStatuses : list TeamWifiStatus :=
  [mkTeamWifiStatus 1 true 0%float; mkTeamWifiStatus 0 false 0%float;
   mkTeamWifiStatus 0 false 0%float; mkTeamWifiStatus 0 false 0%float;
   mkTeamWifiStatus 0 false 0%float; mkTeamWifiStatus 0 false 0%float].

(** ** The commands of the controller, by name *)

(** The command that [configureTeams] sends for the station of index [k]:
    the header around what the generator returns for team [k] at position
    [k + 1]. *)
Definition stationCommand (a : AccessPoint) (teams : Teams) (k : nat) : string :=
  addConfigurationHeader
    (fst (generateTeamAccessPointConfig a (nth k (toSlice teams) None)
            (Z.of_nat k + 1))).

(** The six bandwidth queries of [updateTeamWifiBTU], in station order. *)
Definition btuCommands (vivid : bool) : list string :=
  map (fun inf => "luci-bwc -i ath" ++ inf)
    (if vivid then ["1"; "11"; "12"; "13"; "14"; "15"]
     else ["0"; "0-1"; "0-2"; "0-3"; "0-4"; "0-5"]).

(** The command of [ConfigureAdminSettings] for a channel. *)
Definition adminCommand (teamChannel' : Z) : string :=
  "uci batch <<ENDCONFIG && wifi radio0" ++ newline
  ++ strings.Join
       ["set wireless.radio0.channel='" ++ strconv.Itoa teamChannel' ++ "'";
        "commit wireless"] newline
  ++ newline ++ "ENDCONFIG" ++ newline.

(** The request queue, where it exists, has the capacity of the code and
    holds no more than that. *)
Definition queueBounded (a : AccessPoint) : Prop :=
  match configRequestChan a with
  | None => True
  | Some b =>
      channel.cap b = accessPointRequestBufferSize
      /\ (List.length (channel.buf b) <= channel.cap b)%nat
  end.

(** Calls of [ConfigureTeamWifi] one after the other: the controller after
    the last and what each call returned. *)
Fixpoint submitMany (a : AccessPoint) (requests : list Teams)
    : AccessPoint * list (option error) :=
  match requests with
  | [] => (a, [])
  | t :: rest =>
      let (a1, e) := ConfigureTeamWifi a t in
      let (a2, es) := submitMany a1 rest in
      (a2, e :: es)
  end.

(** ** Tactics *)

(** Name the result of the next remote command of the goal; [keeps] is the
    lemma that the command leaves the controller as it is. *)
Ltac next_command keeps w1 output err Hap :=
  match goal with
  | |- context [runCommand ?D ?s ?w ?c] =>
      pose proof (keeps w c) as Hap;
      destruct (runCommand D s w c) as [w1 [output err]];
      simpl in Hap
  end.

(** Decide the integer comparisons of the goal, one after the other. *)
Ltac split_tests :=
  repeat match goal with
    | |- context [(?a <=? ?b)%Z] =>
        destruct (Z.leb_spec a b); cbn [negb andb orb]; try lia
    | |- context [(?a <? ?b)%Z] =>
        destruct (Z.ltb_spec a b); cbn [negb andb orb]; try lia
    end;
  try (subst; reflexivity).

(** Evaluate the value of a byte that is a constant. *)
Ltac eval_byteVal :=
  repeat match goal with
    | |- context [byteVal ?c] =>
        let v := eval vm_compute in (byteVal c) in change (byteVal c) with v
    end.

(** * Properties *)

Local Open Scope list_scope.
Local Open Scope Z_scope.

(** ** The controller: the request queue *)

Lemma trySend_room (A : Type) (q : list A) (c : nat) (a : A) :
  (List.length q < c)%nat ->
  channel.trySend (Some (channel.mkChan q c)) a
  = Some (Some (channel.mkChan (q ++ [a]) c)).
Proof.
  intros Hlt. unfold channel.trySend. simpl.
  destruct (Nat.ltb_spec (List.length q) c) as [_ | Hge]; [reflexivity | lia].
Qed.

Lemma trySend_full (A : Type) (q : list A) (c : nat) (a : A) :
  (c <= List.length q)%nat ->
  channel.trySend (Some (channel.mkChan q c)) a = None.
Proof.
  intros Hle. unfold channel.trySend. simpl.
  destruct (Nat.ltb_spec (List.length q) c) as [Hlt | _]; [lia | reflexivity].
Qed.

Lemma last_cons_default (A : Type) (q : list A) (r d : A) :
  last (r :: q) d = last q r.
Proof.
  revert r d. induction q as [| x q IH]; intros r d; [reflexivity |].
  change (last (r :: x :: q) d) with (last (x :: q) d).
  rewrite (IH x d), (IH x r). reflexivity.
Qed.

(** Receiving as many times as the buffer holds gives its last element and
    leaves it empty; no receive blocks. *)
Lemma drain_all (q : list Teams) (c : nat) (request : Teams) :
  drain (List.length q) request (Some (channel.mkChan q c))
  = Some (last q request, Some (channel.mkChan [] c)).
Proof.
  revert request. induction q as [| r q IH]; intros request.
  - reflexivity.
  - simpl drain. rewrite IH, last_cons_default. reflexivity.
Qed.

Lemma drain_len (ch : channel.chan Teams) (request : Teams) :
  exists r ch', drain (channel.len ch) request ch = Some (r, ch') /\ channel.len ch' = O.
Proof.
  destruct ch as [[q c] |].
  - simpl channel.len. rewrite drain_all. eauto.
  - simpl. eauto.
Qed.

(** Submissions only append to the buffer. *)
Lemma submitAll_appends (l q : list Teams) (c : nat) :
  exists acc, submitAll (Some (channel.mkChan q c)) l
              = Some (channel.mkChan (q ++ acc) c)
              /\ incl acc l.
Proof.
  revert q. induction l as [| t l IH]; intros q.
  - exists []. rewrite app_nil_r. split; [reflexivity | apply incl_nil_l].
  - change (submitAll (Some (channel.mkChan q c)) (t :: l))
      with (submitAll (submit (Some (channel.mkChan q c)) t) l).
    unfold submit, channel.trySend. simpl.
    destruct (List.length q <? c)%nat.
    + destruct (IH (q ++ [t])) as [acc [E I]].
      exists (t :: acc). rewrite E, <- app_assoc. split; [reflexivity |].
      apply incl_cons; [left; reflexivity | apply incl_tl, I].
    + destruct (IH q) as [acc [E I]]. exists acc. split; [exact E | apply incl_tl, I].
Qed.

Lemma drainAmid_latest (later : nat -> list Teams) (q extra : list Teams)
    (c : nat) (request : Teams) :
  exists rest,
    drainAmid later (List.length q) request (Some (channel.mkChan (q ++ extra) c))
    = Some (last q request, Some (channel.mkChan (extra ++ rest) c))
    /\ incl rest (arrivals later (List.length q)).
Proof.
  revert extra request. induction q as [| r q IH]; intros extra request.
  - exists []. rewrite app_nil_r. split; [reflexivity | apply incl_nil_l].
  - cbn [drainAmid List.length].
    destruct (submitAll_appends (later (List.length q)) ((r :: q) ++ extra) c)
      as [acc [E I]].
    rewrite E. simpl. rewrite <- app_assoc.
    destruct (IH (extra ++ acc) r) as [rest [E' I']].
    rewrite E'. exists (acc ++ rest). rewrite <- app_assoc.
    split.
    + rewrite <- (last_cons_default _ q r request). reflexivity.
    + apply incl_app; [apply incl_appl, I | apply incl_appr, I'].
Qed.

(** ** The controller: what each method keeps *)

Lemma evolves_refl (a : AccessPoint) : evolves a a.
Proof. unfold evolves. tauto. Qed.

Lemma evolves_trans (a b c : AccessPoint) :
  evolves a b -> evolves b c -> evolves a c.
Proof.
  unfold evolves. intros H1 H2.
  destruct H1 as (V1 & A1 & U1 & P1 & T1 & N1 & C1 & F1).
  destruct H2 as (V2 & A2 & U2 & P2 & T2 & N2 & C2 & F2).
  repeat split; try congruence. auto.
Qed.

Lemma evolves_setStatuses (a : AccessPoint) (s : array6 TeamWifiStatus) :
  evolves a (setStatuses a s).
Proof. unfold evolves. simpl. tauto. Qed.

Lemma evolves_setFetched (a : AccessPoint) :
  evolves a (setInitialStatusesFetched a true).
Proof. unfold evolves. simpl. tauto. Qed.

Section ControllerFacts.

Variable Device : Type.
Variable ssh : Device -> string -> string -> string -> string
               -> Device * (string * option error).

Lemma runCommand_ap (w : World Device) (command : string) :
  ap (fst (runCommand Device ssh w command)) = ap w.
Proof.
  unfold runCommand.
  destruct (ssh (device w) (address (ap w)) (username (ap w)) (password (ap w)) command).
  reflexivity.
Qed.

Lemma runCommand_issued (w : World Device) (command : string) :
  issued (fst (runCommand Device ssh w command)) = issued w ++ [command].
Proof.
  unfold runCommand.
  destruct (ssh (device w) (address (ap w)) (username (ap w)) (password (ap w)) command).
  reflexivity.
Qed.

Lemma updateTeamWifiStatuses_evolves (w : World Device) :
  evolves (ap w) (ap (worldOf (updateTeamWifiStatuses Device ssh w))).
Proof.
  unfold updateTeamWifiStatuses.
  destruct (networkSecurityEnabled (ap w)); simpl; [| apply evolves_refl].
  pose proof (runCommand_ap w "iwinfo") as Hap.
  destruct (runCommand Device ssh w "iwinfo") as [w1 [output err]]. simpl in *.
  rewrite <- Hap.
  destruct err as [e |]; simpl; [apply evolves_refl |].
  destruct (decodeWifiInfo output (toSlice (TeamWifiStatuses (ap w1))))
    as [[statuses [e |]] | p]; simpl; try apply evolves_refl.
  - apply evolves_setStatuses.
  - destruct (initialStatusesFetched (ap w1)); simpl.
    + apply evolves_setStatuses.
    + eapply evolves_trans; [apply evolves_setStatuses | apply evolves_setFetched].
Qed.

Lemma btuLoop_evolves (infWifi : list string) (todo : list nat) (w : World Device) :
  evolves (ap w) (ap (worldOf (btuLoop Device ssh infWifi todo w))).
Proof.
  revert w. induction todo as [| i todo IH]; intros w; simpl.
  - apply evolves_refl.
  - destruct (index infWifi i) as [inf | p]; simpl; [| apply evolves_refl].
    next_command runCommand_ap w1 output err Hap. simpl. rewrite <- Hap.
    destruct err as [e |]; simpl; [apply evolves_refl |].
    destruct (parseBtu output) as [btu | p]; simpl; [| apply evolves_refl].
    eapply evolves_trans; [| apply IH]. simpl. apply evolves_setStatuses.
Qed.

Lemma updateTeamWifiBTU_evolves (w : World Device) :
  evolves (ap w) (ap (worldOf (updateTeamWifiBTU Device ssh w))).
Proof.
  unfold updateTeamWifiBTU.
  destruct (networkSecurityEnabled (ap w)); cbn [negb]; [| apply evolves_refl].
  apply btuLoop_evolves.
Qed.

Lemma configureTeamsFrom_evolves (fuel : nat) (teams : Teams) (teamIndex : nat)
    (retryCount : Z) (w : World Device) :
  evolves (ap w)
    (ap (worldOf (configureTeamsFrom Device ssh fuel teams teamIndex retryCount w))).
Proof.
  revert teamIndex retryCount w.
  induction fuel as [| fuel IH]; intros teamIndex retryCount w; simpl.
  - apply evolves_refl.
  - destruct (teamIndex <? 6)%nat.
    + destruct (index (toSlice teams) teamIndex) as [team | p]; simpl;
        [| apply evolves_refl].
      next_command runCommand_ap w1 output err Hap. simpl. rewrite <- Hap.
      destruct err; apply IH.
    + pose proof (runCommand_ap w "uci commit wireless") as Hap1.
      destruct (runCommand Device ssh w "uci commit wireless") as [w1 r1].
      pose proof (runCommand_ap w1 "wifi reload") as Hap2.
      destruct (runCommand Device ssh w1 "wifi reload") as [w2 r2].
      simpl in *. rewrite <- Hap1, <- Hap2.
      pose proof (updateTeamWifiStatuses_evolves w2) as Hup.
      destruct (updateTeamWifiStatuses Device ssh w2) as [err w3 | p w3 | w3];
        simpl in *; try exact Hup.
      destruct (isNil err && configIsCorrectForTeams (ap w3) teams); simpl.
      * exact Hup.
      * eapply evolves_trans; [exact Hup | apply IH].
Qed.

Lemma handleTeamWifiConfiguration_evolves (fuel : nat) (teams : Teams) (w : World Device) :
  evolves (ap w) (ap (worldOf (handleTeamWifiConfiguration Device ssh fuel teams w))).
Proof.
  unfold handleTeamWifiConfiguration.
  destruct (networkSecurityEnabled (ap w)); simpl; [| apply evolves_refl].
  pose proof (updateTeamWifiStatuses_evolves w) as Hup.
  destruct (updateTeamWifiStatuses Device ssh w) as [err w1 | p w1 | w1];
    simpl in *; try exact Hup.
  destruct (isNil err && configIsCorrectForTeams (ap w1) teams); simpl;
    [exact Hup |].
  eapply evolves_trans; [exact Hup |].
  unfold configureTeams.
  destruct (isVividType (ap w1)); simpl.
  - apply configureTeamsFrom_evolves.
  - pose proof (configureTeamsFrom_evolves fuel noTeams 0 1 w1) as H1.
    destruct (configureTeamsFrom Device ssh fuel noTeams 0 1 w1) as [u w2 | p w2 | w2];
      simpl in *; try exact H1.
    eapply evolves_trans; [exact H1 | apply configureTeamsFrom_evolves].
Qed.

Lemma ConfigureAdminSettings_ap (w : World Device) :
  ap (fst (ConfigureAdminSettings Device ssh w)) = ap w.
Proof.
  unfold ConfigureAdminSettings.
  destruct (networkSecurityEnabled (ap w)); cbn [negb]; [| reflexivity].
  next_command runCommand_ap w1 output err Hap. exact Hap.
Qed.

(** With a request queued, a round of [Run] hands the latest one to the
    handler and leaves the queue empty. *)
Lemma runOnce_request (fuel : nat) (w : World Device) (r : Teams)
    (q : list Teams) (c : nat) :
  configRequestChan (ap w) = Some (channel.mkChan (r :: q) c) ->
  runOnce Device ssh fuel w
  = handleTeamWifiConfiguration Device ssh fuel (last q r)
      (withAp w (setConfigRequestChan (ap w) (Some (channel.mkChan [] c)))).
Proof.
  intros Hch. unfold runOnce. rewrite Hch.
  cbn [channel.tryRecv channel.buf channel.cap channel.len].
  rewrite drain_all. reflexivity.
Qed.

(** Without one, it polls. *)
Lemma runOnce_poll (fuel : nat) (w : World Device) :
  channel.len (configRequestChan (ap w)) = O ->
  runOnce Device ssh fuel w
  = andThen Device (updateTeamWifiStatuses Device ssh w)
      (fun _ w1 =>
         andThen Device (updateTeamWifiBTU Device ssh w1) (fun _ w2 => Done tt w2)).
Proof.
  intros Hlen. unfold runOnce.
  destruct (configRequestChan (ap w)) as [[[| r q] c] |]; try reflexivity.
  discriminate Hlen.
Qed.

Lemma runOnce_fetched (fuel : nat) (w : World Device) :
  initialStatusesFetched (ap w) = true ->
  initialStatusesFetched (ap (worldOf (runOnce Device ssh fuel w))) = true.
Proof.
  intros Hf.
  destruct (configRequestChan (ap w)) as [[[| r q] c] |] eqn:Hch.
  - rewrite runOnce_poll by (rewrite Hch; reflexivity).
    pose proof (updateTeamWifiStatuses_evolves w) as H1.
    destruct (updateTeamWifiStatuses Device ssh w) as [e w1 | p w1 | w1];
      simpl in *; try (apply H1, Hf).
    pose proof (updateTeamWifiBTU_evolves w1) as H2.
    destruct (updateTeamWifiBTU Device ssh w1) as [e2 w2 | p w2 | w2];
      simpl in *; apply H2, H1, Hf.
  - rewrite (runOnce_request fuel w r q c Hch).
    apply handleTeamWifiConfiguration_evolves. exact Hf.
  - rewrite runOnce_poll by (rewrite Hch; reflexivity).
    pose proof (updateTeamWifiStatuses_evolves w) as H1.
    destruct (updateTeamWifiStatuses Device ssh w) as [e w1 | p w1 | w1];
      simpl in *; try (apply H1, Hf).
    pose proof (updateTeamWifiBTU_evolves w1) as H2.
    destruct (updateTeamWifiBTU Device ssh w1) as [e2 w2 | p w2 | w2];
      simpl in *; apply H2, H1, Hf.
Qed.

Lemma perform_fetched (o : operation) (w : World Device) :
  initialStatusesFetched (ap w) = true ->
  initialStatusesFetched (ap (perform Device ssh o w)) = true.
Proof.
  intros Hf. destruct o; cbn [perform].
  - exact Hf.
  - rewrite ConfigureAdminSettings_ap. exact Hf.
  - unfold ConfigureTeamWifi.
    destruct (channel.trySend (configRequestChan (ap w)) teams); exact Hf.
  - apply handleTeamWifiConfiguration_evolves, Hf.
  - apply configureTeamsFrom_evolves, Hf.
  - apply updateTeamWifiStatuses_evolves, Hf.
  - apply updateTeamWifiBTU_evolves, Hf.
  - apply runOnce_fetched, Hf.
Qed.

Lemma performAll_fetched (ops : list operation) (w : World Device) :
  initialStatusesFetched (ap w) = true ->
  initialStatusesFetched (ap (performAll Device ssh ops w)) = true.
Proof.
  revert w. induction ops as [| o ops IH]; intros w Hf; [exact Hf |].
  apply IH, perform_fetched, Hf.
Qed.

(** *** The flag is set by a status fetch that returns nil, and by nothing
    else *)

Lemma extends_refl (w : World Device) : extends w w.
Proof. exists []. rewrite app_nil_r. reflexivity. Qed.

Lemma extends_trans (w w' w'' : World Device) :
  extends w w' -> extends w' w'' -> extends w w''.
Proof.
  intros [p1 H1] [p2 H2]. exists (p1 ++ p2). rewrite H2, H1, app_assoc. reflexivity.
Qed.

Lemma fetchedBetween_before (w w' w'' : World Device) :
  extends w w' -> fetchedBetween ssh w' w'' -> fetchedBetween ssh w w''.
Proof.
  intros [p Hp] (w0 & w1 & pre & post & He & Hf & Hu & H0 & H1).
  exists w0, w1, (p ++ pre), post. repeat split; try assumption.
  - rewrite H0, Hp, app_assoc. reflexivity.
  - rewrite H1, Hp, <- !app_assoc. reflexivity.
Qed.

Lemma fetchedBetween_after (w w' w'' : World Device) :
  fetchedBetween ssh w w' -> extends w' w'' -> fetchedBetween ssh w w''.
Proof.
  intros (w0 & w1 & pre & post & He & Hf & Hu & H0 & H1) [p Hp].
  exists w0, w1, pre, (post ++ p). repeat split; try assumption.
  rewrite Hp, H1, <- !app_assoc. reflexivity.
Qed.

Lemma traced_refl (w : World Device) : traced ssh w w.
Proof. split; [apply extends_refl | congruence]. Qed.

Lemma traced_trans (w w' w'' : World Device) :
  traced ssh w w' -> traced ssh w' w'' -> traced ssh w w''.
Proof.
  intros [E1 F1] [E2 F2]. split; [exact (extends_trans _ _ _ E1 E2) |].
  intros Hf Ht. destruct (initialStatusesFetched (ap w')) eqn:Hm.
  - apply (fetchedBetween_after w w' w''); [apply F1; auto | exact E2].
  - apply (fetchedBetween_before w w' w''); [exact E1 | apply F2; auto].
Qed.

(** A step that sends nothing and keeps the flag. *)
Lemma traced_same (w w' : World Device) :
  issued w' = issued w ->
  initialStatusesFetched (ap w') = initialStatusesFetched (ap w) ->
  traced ssh w w'.
Proof.
  intros Hi Hf. split.
  - exists []. rewrite app_nil_r. exact Hi.
  - congruence.
Qed.

Lemma runCommand_traced (w : World Device) (command : string) :
  traced ssh w (fst (runCommand Device ssh w command)).
Proof.
  split.
  - exists [command]. apply runCommand_issued.
  - rewrite runCommand_ap. congruence.
Qed.

(** The one place where the flag is written: a status fetch leaves the flag
    true where it was false only when it returns nil, with network
    security on and its [iwinfo] sent. *)
Lemma updateTeamWifiStatuses_flips (w : World Device) :
  initialStatusesFetched (ap w) = false ->
  initialStatusesFetched (ap (worldOf (updateTeamWifiStatuses Device ssh w))) = true ->
  networkSecurityEnabled (ap w) = true
  /\ updateTeamWifiStatuses Device ssh w
     = Done None (worldOf (updateTeamWifiStatuses Device ssh w))
  /\ issued (worldOf (updateTeamWifiStatuses Device ssh w)) = issued w ++ ["iwinfo"%string].
Proof.
  intros Hf. unfold updateTeamWifiStatuses.
  destruct (networkSecurityEnabled (ap w)); cbn [negb worldOf]; [| congruence].
  pose proof (runCommand_ap w "iwinfo") as Hap.
  pose proof (runCommand_issued w "iwinfo") as His.
  destruct (runCommand Device ssh w "iwinfo") as [w1 [output err]].
  cbn [fst snd] in *.
  destruct err as [e |]; cbn [worldOf]; [congruence |].
  destruct (decodeWifiInfo output (toSlice (TeamWifiStatuses (ap w1))))
    as [[statuses [e |]] | p]; cbn [worldOf ap withAp issued].
  - cbn [initialStatusesFetched setStatuses]. congruence.
  - intros _. split; [reflexivity |]. split; [reflexivity | exact His].
  - congruence.
Qed.

Lemma updateTeamWifiStatuses_extends (w : World Device) :
  extends w (worldOf (updateTeamWifiStatuses Device ssh w)).
Proof.
  unfold updateTeamWifiStatuses.
  destruct (networkSecurityEnabled (ap w)); cbn [negb worldOf]; [| apply extends_refl].
  pose proof (runCommand_issued w "iwinfo") as His.
  destruct (runCommand Device ssh w "iwinfo") as [w1 [output err]].
  cbn [fst snd] in *.
  assert (E : extends w w1) by (exists ["iwinfo"%string]; exact His).
  destruct err as [e |]; cbn [worldOf]; [exact E |].
  destruct (decodeWifiInfo output (toSlice (TeamWifiStatuses (ap w1))))
    as [[statuses [e |]] | p]; cbn [worldOf]; exact E.
Qed.

Lemma updateTeamWifiStatuses_traced (w : World Device) :
  traced ssh w (worldOf (updateTeamWifiStatuses Device ssh w)).
Proof.
  split; [apply updateTeamWifiStatuses_extends |].
  intros Hf Ht.
  destruct (updateTeamWifiStatuses_flips w Hf Ht) as (He & Hu & His).
  exists w, (worldOf (updateTeamWifiStatuses Device ssh w)), [], [].
  rewrite !app_nil_r. cbn [app]. auto.
Qed.

Lemma btuLoop_traced (infWifi : list string) (todo : list nat) (w : World Device) :
  traced ssh w (worldOf (btuLoop Device ssh infWifi todo w)).
Proof.
  revert w. induction todo as [| i todo IH]; intros w; cbn [btuLoop].
  - apply traced_refl.
  - destruct (index infWifi i) as [inf | p]; cbn [worldOf]; [| apply traced_refl].
    pose proof (runCommand_traced w ("luci-bwc -i ath" ++ inf)%string) as Hr.
    destruct (runCommand Device ssh w ("luci-bwc -i ath" ++ inf)%string)
      as [w1 [output err]].
    cbn [fst snd] in *.
    destruct err as [e |]; cbn [worldOf]; [exact Hr |].
    destruct (parseBtu output) as [btu | p]; cbn [worldOf]; [| exact Hr].
    eapply traced_trans; [exact Hr |].
    eapply traced_trans; [| apply IH].
    apply traced_same; reflexivity.
Qed.

Lemma updateTeamWifiBTU_traced (w : World Device) :
  traced ssh w (worldOf (updateTeamWifiBTU Device ssh w)).
Proof.
  unfold updateTeamWifiBTU.
  destruct (networkSecurityEnabled (ap w)); cbn [negb worldOf]; [| apply traced_refl].
  apply btuLoop_traced.
Qed.

Lemma configureTeamsFrom_traced (fuel : nat) (teams : Teams) (teamIndex : nat)
    (retryCount : Z) (w : World Device) :
  traced ssh w
    (worldOf (configureTeamsFrom Device ssh fuel teams teamIndex retryCount w)).
Proof.
  revert teamIndex retryCount w.
  induction fuel as [| fuel IH]; intros teamIndex retryCount w; cbn [configureTeamsFrom].
  - apply traced_refl.
  - destruct (teamIndex <? 6)%nat.
    + destruct (index (toSlice teams) teamIndex) as [team | p]; cbn [worldOf];
        [| apply traced_refl].
      match goal with
      | |- context [runCommand Device ssh w ?c] =>
          pose proof (runCommand_traced w c) as Hr;
          destruct (runCommand Device ssh w c) as [w1 [output err]]
      end.
      cbn [fst snd] in *.
      destruct err; (eapply traced_trans; [exact Hr | apply IH]).
    + pose proof (runCommand_traced w "uci commit wireless") as H1.
      destruct (runCommand Device ssh w "uci commit wireless") as [w1 r1].
      pose proof (runCommand_traced w1 "wifi reload") as H2.
      destruct (runCommand Device ssh w1 "wifi reload") as [w2 r2].
      cbn [fst] in *.
      pose proof (updateTeamWifiStatuses_traced w2) as H3.
      assert (H : traced ssh w (worldOf (updateTeamWifiStatuses Device ssh w2))).
      { eapply traced_trans; [exact H1 |]. eapply traced_trans; [exact H2 | exact H3]. }
      destruct (updateTeamWifiStatuses Device ssh w2) as [err w3 | p w3 | w3];
        cbn [andThen worldOf] in *; try exact H.
      destruct (isNil err && configIsCorrectForTeams (ap w3) teams); cbn [worldOf].
      * exact H.
      * eapply traced_trans; [exact H | apply IH].
Qed.

Lemma handleTeamWifiConfiguration_traced (fuel : nat) (teams : Teams)
    (w : World Device) :
  traced ssh w (worldOf (handleTeamWifiConfiguration Device ssh fuel teams w)).
Proof.
  unfold handleTeamWifiConfiguration.
  destruct (networkSecurityEnabled (ap w)); cbn [negb worldOf]; [| apply traced_refl].
  pose proof (updateTeamWifiStatuses_traced w) as Hup.
  destruct (updateTeamWifiStatuses Device ssh w) as [err w1 | p w1 | w1];
    cbn [andThen worldOf] in *; try exact Hup.
  destruct (isNil err && configIsCorrectForTeams (ap w1) teams); cbn [worldOf];
    [exact Hup |].
  eapply traced_trans; [exact Hup |].
  unfold configureTeams.
  destruct (isVividType (ap w1)); cbn [negb andThen].
  - apply configureTeamsFrom_traced.
  - pose proof (configureTeamsFrom_traced fuel noTeams 0 1 w1) as H1.
    destruct (configureTeamsFrom Device ssh fuel noTeams 0 1 w1) as [u w2 | p w2 | w2];
      cbn [andThen worldOf] in *; try exact H1.
    eapply traced_trans; [exact H1 | apply configureTeamsFrom_traced].
Qed.

Lemma runOnce_traced (fuel : nat) (w : World Device) :
  traced ssh w (worldOf (runOnce Device ssh fuel w)).
Proof.
  unfold runOnce.
  destruct (channel.tryRecv (configRequestChan (ap w))) as [[request ch] |].
  - destruct (drain (channel.len ch) request ch) as [[request' ch'] |]; cbn [worldOf].
    + eapply traced_trans; [| apply handleTeamWifiConfiguration_traced].
      apply traced_same; reflexivity.
    + apply traced_same; reflexivity.
  - pose proof (updateTeamWifiStatuses_traced w) as H1.
    destruct (updateTeamWifiStatuses Device ssh w) as [e w1 | p w1 | w1];
      cbn [andThen worldOf] in *; try exact H1.
    pose proof (updateTeamWifiBTU_traced w1) as H2.
    destruct (updateTeamWifiBTU Device ssh w1) as [e2 w2 | p w2 | w2];
      cbn [andThen worldOf] in *; exact (traced_trans _ _ _ H1 H2).
Qed.

Lemma ConfigureAdminSettings_traced (w : World Device) :
  traced ssh w (fst (ConfigureAdminSettings Device ssh w)).
Proof.
  unfold ConfigureAdminSettings.
  destruct (networkSecurityEnabled (ap w)); cbn [negb fst]; [| apply traced_refl].
  match goal with
  | |- context [runCommand Device ssh w ?c] =>
      pose proof (runCommand_traced w c) as Hr;
      destruct (runCommand Device ssh w c) as [w1 [output err]]
  end.
  exact Hr.
Qed.

Lemma perform_traced (o : operation) (w : World Device) :
  traced ssh w (perform Device ssh o w).
Proof.
  destruct o; cbn [perform].
  - apply traced_same; reflexivity.
  - apply ConfigureAdminSettings_traced.
  - apply traced_same; [reflexivity |].
    unfold ConfigureTeamWifi.
    destruct (channel.trySend (configRequestChan (ap w)) teams); reflexivity.
  - apply handleTeamWifiConfiguration_traced.
  - apply configureTeamsFrom_traced.
  - apply updateTeamWifiStatuses_traced.
  - apply updateTeamWifiBTU_traced.
  - apply runOnce_traced.
Qed.

Lemma performAll_traced (ops : list operation) (w : World Device) :
  traced ssh w (performAll Device ssh ops w).
Proof.
  revert w. induction ops as [| o ops IH]; intros w; [apply traced_refl |].
  eapply traced_trans; [apply perform_traced | apply IH].
Qed.

(** A status fetch that succeeds sets the flag. *)
Lemma updateTeamWifiStatuses_sets_flag (w w' : World Device) :
  networkSecurityEnabled (ap w) = true ->
  updateTeamWifiStatuses Device ssh w = Done None w' ->
  initialStatusesFetched (ap w') = true.
Proof.
  unfold updateTeamWifiStatuses. intros He. rewrite He. cbn [negb].
  destruct (runCommand Device ssh w "iwinfo") as [w1 [output err]]. cbn [fst snd].
  destruct err as [e |]; [discriminate |].
  destruct (decodeWifiInfo output (toSlice (TeamWifiStatuses (ap w1))))
    as [[statuses [e |]] | p]; try discriminate.
  intros H. injection H as <-. cbn [ap withAp].
  simpl. destruct (initialStatusesFetched (ap w1)) eqn:Hf; simpl;
    [exact Hf | reflexivity].
Qed.

(** C1. [configIsCorrectForTeams] returns false as long as
    [initialStatusesFetched] is false, whatever the stored statuses and the
    requested teams are; the flag, once true, stays true through every
    sequence of operations of the controller; and a status fetch that
    succeeds leaves it true.  Until then the flag stays false: over every
    sequence of operations the flag goes from false to true only where
    [updateTeamWifiStatuses], called with network security on in a world
    reached on the way, returned nil, its [iwinfo] being among the commands
    sent.  So as long as no status fetch returns nil, or no [iwinfo] has
    been sent, the flag is false and [configIsCorrectForTeams] returns
    false for all teams. *)
Theorem configIsCorrect_gated_by_monotonic_flag
    (a : AccessPoint) (teams : Teams) (ops : list operation) (w w' : World Device) :
  (initialStatusesFetched a = false -> configIsCorrectForTeams a teams = false)
  /\ (initialStatusesFetched (ap w) = true ->
      initialStatusesFetched (ap (performAll Device ssh ops w)) = true)
  /\ (networkSecurityEnabled (ap w) = true ->
      updateTeamWifiStatuses Device ssh w = Done None w' ->
      initialStatusesFetched (ap w') = true)
  /\ (initialStatusesFetched (ap w) = false ->
      initialStatusesFetched (ap (performAll Device ssh ops w)) = true ->
      exists (w0 w1 : World Device) (pre post : list string),
        networkSecurityEnabled (ap w0) = true
        /\ initialStatusesFetched (ap w0) = false
        /\ updateTeamWifiStatuses Device ssh w0 = Done None w1
        /\ issued w0 = issued w ++ pre
        /\ issued (performAll Device ssh ops w)
           = issued w ++ pre ++ ["iwinfo"%string] ++ post)
  /\ (initialStatusesFetched (ap w) = false ->
      (forall (w0 w1 : World Device) (pre : list string),
         networkSecurityEnabled (ap w0) = true ->
         issued w0 = issued w ++ pre ->
         updateTeamWifiStatuses Device ssh w0 <> Done None w1) ->
      forall teams',
        initialStatusesFetched (ap (performAll Device ssh ops w)) = false
        /\ configIsCorrectForTeams (ap (performAll Device ssh ops w)) teams' = false)
  /\ (initialStatusesFetched (ap w) = false ->
      ~ In "iwinfo"%string (issued (performAll Device ssh ops w)) ->
      forall teams',
        initialStatusesFetched (ap (performAll Device ssh ops w)) = false
        /\ configIsCorrectForTeams (ap (performAll Device ssh ops w)) teams' = false).
Proof.
  assert (Gate : forall a' teams',
             initialStatusesFetched a' = false ->
             configIsCorrectForTeams a' teams' = false).
  { intros a' teams' Hf. unfold configIsCorrectForTeams. rewrite Hf. reflexivity. }
  split; [apply Gate |].
  split; [apply performAll_fetched |].
  split; [apply updateTeamWifiStatuses_sets_flag |].
  split; [apply (proj2 (performAll_traced ops w)) |].
  split.
  - intros Hf Hnever teams'.
    destruct (initialStatusesFetched (ap (performAll Device ssh ops w))) eqn:Ht.
    + destruct (proj2 (performAll_traced ops w) Hf Ht)
        as (w0 & w1 & pre & post & He & _ & Hu & H0 & _).
      exfalso. exact (Hnever w0 w1 pre He H0 Hu).
    + split; [reflexivity | apply Gate, Ht].
  - intros Hf Hnone teams'.
    destruct (initialStatusesFetched (ap (performAll Device ssh ops w))) eqn:Ht.
    + destruct (proj2 (performAll_traced ops w) Hf Ht)
        as (w0 & w1 & pre & post & _ & _ & _ & _ & H1).
      exfalso. apply Hnone. rewrite H1.
      apply in_or_app. right. apply in_or_app. right. left. reflexivity.
    + split; [reflexivity | apply Gate, Ht].
Qed.

(** With security disabled a round of [Run] only takes requests off the
    queue. *)
Lemma runOnce_disabled (fuel : nat) (w : World Device) :
  networkSecurityEnabled (ap w) = false ->
  exists ch,
    runOnce Device ssh fuel w = Done tt (withAp w (setConfigRequestChan (ap w) ch)).
Proof.
  intros He.
  assert (Hs : updateTeamWifiStatuses Device ssh w = Done None w)
    by (unfold updateTeamWifiStatuses; rewrite He; reflexivity).
  assert (Hb : updateTeamWifiBTU Device ssh w = Done None w)
    by (unfold updateTeamWifiBTU; rewrite He; reflexivity).
  assert (Hw : withAp w (setConfigRequestChan (ap w) (configRequestChan (ap w))) = w)
    by (destruct w as [[] d i]; reflexivity).
  destruct (configRequestChan (ap w)) as [[[| r q] c] |] eqn:Hch.
  - exists (Some (channel.mkChan [] c)).
    rewrite runOnce_poll by (rewrite Hch; reflexivity).
    rewrite Hs. cbn [andThen]. rewrite Hb, Hw. reflexivity.
  - exists (Some (channel.mkChan [] c)).
    rewrite (runOnce_request fuel w r q c Hch).
    unfold handleTeamWifiConfiguration. cbn. rewrite He. reflexivity.
  - exists None.
    rewrite runOnce_poll by (rewrite Hch; reflexivity).
    rewrite Hs. cbn [andThen]. rewrite Hb, Hw. reflexivity.
Qed.

(** C8. With network security disabled the controller does nothing:
    [ConfigureAdminSettings], the handler of a team configuration, the
    status update and the bandwidth update return (nil where they return an
    error) and leave the whole world as it was: no command issued, the
    device untouched, statuses and flag unchanged.  A round of [Run] issues
    no command either and leaves statuses and flag unchanged. *)
Theorem security_disabled_is_noop (fuel : nat) (teams : Teams) (w : World Device) :
  networkSecurityEnabled (ap w) = false ->
  ConfigureAdminSettings Device ssh w = (w, None)
  /\ handleTeamWifiConfiguration Device ssh fuel teams w = Done tt w
  /\ updateTeamWifiStatuses Device ssh w = Done None w
  /\ updateTeamWifiBTU Device ssh w = Done None w
  /\ (let w' := worldOf (runOnce Device ssh fuel w) in
      issued w' = issued w /\ device w' = device w
      /\ TeamWifiStatuses (ap w') = TeamWifiStatuses (ap w)
      /\ initialStatusesFetched (ap w') = initialStatusesFetched (ap w)).
Proof.
  intros He. split; [| split; [| split; [| split]]].
  - unfold ConfigureAdminSettings. rewrite He. reflexivity.
  - unfold handleTeamWifiConfiguration. rewrite He. reflexivity.
  - unfold updateTeamWifiStatuses. rewrite He. reflexivity.
  - unfold updateTeamWifiBTU. rewrite He. reflexivity.
  - destruct (runOnce_disabled fuel w He) as [ch ->]. cbn. auto.
Qed.

(** ** The controller: submitting and picking up requests *)

Lemma ConfigureTeamWifi_queued (a : AccessPoint) (teams : Teams)
    (q : list Teams) (c : nat) :
  configRequestChan a = Some (channel.mkChan q c) ->
  ConfigureTeamWifi a teams
  = if (List.length q <? c)%nat
    then (setConfigRequestChan a (Some (channel.mkChan (q ++ [teams]) c)), None)
    else (a, Some QueueFull).
Proof.
  intros Hch. unfold ConfigureTeamWifi. rewrite Hch.
  destruct (Nat.ltb_spec (List.length q) c) as [Hlt | Hge].
  - rewrite trySend_room by exact Hlt. reflexivity.
  - rewrite trySend_full by exact Hge. reflexivity.
Qed.

Lemma receiveLatestAmid_latest (early : list Teams) (later : nat -> list Teams)
    (r : Teams) (q : list Teams) (c : nat) :
  exists snapshot rest,
    submitAll (Some (channel.mkChan q c)) early = Some (channel.mkChan snapshot c)
    /\ receiveLatestAmid early later (Some (channel.mkChan (r :: q) c))
       = Some (last snapshot r, Some (channel.mkChan rest c))
    /\ incl rest (arrivals later (List.length snapshot)).
Proof.
  destruct (submitAll_appends early q c) as [acc [E _]].
  destruct (drainAmid_latest later (q ++ acc) [] c r) as [rest [E' I]].
  exists (q ++ acc), rest. split; [exact E |]. split; [| exact I].
  unfold receiveLatestAmid.
  cbn [channel.tryRecv channel.buf channel.cap]. rewrite E.
  cbn [channel.len channel.buf].
  rewrite app_nil_r in E'. exact E'.
Qed.

(** C7. [ConfigureTeamWifi] is one attempt to send that never waits: on a
    queue with room it appends the request and returns nil, on a full queue
    it returns the queue-full error and changes nothing.  A round of [Run]
    that finds requests queued receives them all and calls the handler once,
    with the one queued last; the others are dropped.  This also holds
    while other callers keep submitting: the handler gets the last request
    that was in the queue when [Run] read its length, no receive blocks, and
    what stays queued was submitted after that. *)
Theorem submit_never_blocks_latest_request_wins
    (a : AccessPoint) (teams : Teams) (qa : list Teams) (ca : nat)
    (fuel : nat) (w : World Device) (r : Teams) (q : list Teams) (c : nat)
    (early : list Teams) (later : nat -> list Teams) :
  (configRequestChan a = Some (channel.mkChan qa ca) ->
   ((List.length qa < ca)%nat ->
    ConfigureTeamWifi a teams
    = (setConfigRequestChan a (Some (channel.mkChan (qa ++ [teams]) ca)), None))
   /\ ((ca <= List.length qa)%nat ->
       ConfigureTeamWifi a teams = (a, Some QueueFull)))
  /\ (configRequestChan (ap w) = Some (channel.mkChan (r :: q) c) ->
      runOnce Device ssh fuel w
      = handleTeamWifiConfiguration Device ssh fuel (last q r)
          (withAp w (setConfigRequestChan (ap w) (Some (channel.mkChan [] c)))))
  /\ (exists snapshot rest,
        submitAll (Some (channel.mkChan q c)) early = Some (channel.mkChan snapshot c)
        /\ receiveLatestAmid early later (Some (channel.mkChan (r :: q) c))
           = Some (last snapshot r, Some (channel.mkChan rest c))
        /\ incl rest (arrivals later (List.length snapshot))).
Proof.
  split; [| split].
  - intros Hch. rewrite (ConfigureTeamWifi_queued a teams qa ca Hch). split; intros H.
    + destruct (Nat.ltb_spec (List.length qa) ca); [reflexivity | lia].
    + destruct (Nat.ltb_spec (List.length qa) ca); [lia | reflexivity].
  - apply runOnce_request.
  - apply receiveLatestAmid_latest.
Qed.

(** ** The controller: before the first [SetSettings] *)

Lemma perform_keeps_nil_channel (o : operation) (w : World Device) :
  isSetSettings o = false ->
  configRequestChan (ap w) = None ->
  configRequestChan (ap (perform Device ssh o w)) = None.
Proof.
  intros Ho Hch. destruct o; cbn [perform]; try discriminate Ho.
  - rewrite ConfigureAdminSettings_ap. exact Hch.
  - unfold ConfigureTeamWifi. rewrite Hch. exact Hch.
  - rewrite <- Hch. apply handleTeamWifiConfiguration_evolves.
  - rewrite <- Hch. apply configureTeamsFrom_evolves.
  - rewrite <- Hch. apply updateTeamWifiStatuses_evolves.
  - rewrite <- Hch. apply updateTeamWifiBTU_evolves.
  - rewrite runOnce_poll by (rewrite Hch; reflexivity).
    pose proof (updateTeamWifiStatuses_evolves w) as H1.
    destruct (updateTeamWifiStatuses Device ssh w) as [e w1 | p w1 | w1];
      cbn [andThen worldOf] in *; try (rewrite <- Hch; apply H1).
    pose proof (updateTeamWifiBTU_evolves w1) as H2.
    assert (H3 := evolves_trans _ _ _ H1 H2).
    destruct (updateTeamWifiBTU Device ssh w1) as [e2 w2 | p w2 | w2];
      cbn [andThen worldOf] in *; rewrite <- Hch; apply H3.
Qed.

Lemma performAll_keeps_nil_channel (ops : list operation) (w : World Device) :
  forallb (fun o => negb (isSetSettings o)) ops = true ->
  configRequestChan (ap w) = None ->
  configRequestChan (ap (performAll Device ssh ops w)) = None.
Proof.
  revert w. induction ops as [| o ops IH]; intros w Hops Hch; [exact Hch |].
  cbn [forallb] in Hops. apply andb_true_iff in Hops. destruct Hops as [Ho Hops].
  apply negb_true_iff in Ho.
  apply IH; [exact Hops | apply perform_keeps_nil_channel; assumption].
Qed.

(** C10. As long as [SetSettings] has not been called the request channel
    is nil, whatever else has been called, and then [ConfigureTeamWifi]
    returns the queue-full error at once and leaves the controller as it
    was: the request is queued nowhere. *)
Theorem ConfigureTeamWifi_before_SetSettings
    (ops : list operation) (w : World Device) (teams : Teams) :
  configRequestChan (ap w) = None ->
  forallb (fun o => negb (isSetSettings o)) ops = true ->
  let a := ap (performAll Device ssh ops w) in
  configRequestChan a = None
  /\ ConfigureTeamWifi a teams = (a, Some QueueFull).
Proof.
  intros Hch Hops a.
  assert (Ha : configRequestChan a = None)
    by (apply performAll_keeps_nil_channel; assumption).
  split; [exact Ha |].
  unfold ConfigureTeamWifi. rewrite Ha. reflexivity.
Qed.

End ControllerFacts.

(** ** Package strconv: Atoi and Itoa *)

Lemma isDigit_range (c : ascii) :
  strconv.isDigit c = true <-> 48 <= byteVal c <= 57.
Proof. unfold strconv.isDigit. rewrite andb_true_iff, !Z.leb_le. tauto. Qed.

Lemma horner_ge (s : bytes) (n : Z) :
  allDigits s = true -> 0 <= n -> n <= horner s n.
Proof.
  revert n. induction s as [| c s IH]; intros n Hd Hn; simpl; [lia |].
  simpl in Hd. apply andb_true_iff in Hd. destruct Hd as [Hc Hd].
  apply isDigit_range in Hc.
  specialize (IH (n * 10 + (byteVal c - 48)) Hd). lia.
Qed.

(** Digits whose value fits in uint64 are parsed to that value. *)
Lemma parseUintLoop_value (s : bytes) (n : Z) :
  allDigits s = true -> 0 <= n -> horner s n <= strconv.maxUint64 ->
  strconv.parseUintLoop s n = (horner s n, None).
Proof.
  revert n. induction s as [| c s IH]; intros n Hd Hn Hv; [reflexivity |].
  simpl in Hd. apply andb_true_iff in Hd. destruct Hd as [Hc Hd].
  cbn [strconv.parseUintLoop horner] in *. rewrite Hc.
  apply isDigit_range in Hc.
  pose proof (horner_ge s (n * 10 + (byteVal c - 48)) Hd ltac:(lia)) as Hge.
  unfold strconv.maxUint64 in *.
  change (2 ^ 64) with 18446744073709551616 in *.
  change ((18446744073709551616 - 1) / 10 + 1) with 1844674407370955162.
  destruct (Z.leb_spec 1844674407370955162 n) as [Hcut | Hcut]; [lia |].
  rewrite Z.mod_small by lia.
  destruct (Z.ltb_spec (n * 10 + (byteVal c - 48)) n) as [H1 | H1]; [lia |].
  destruct (Z.ltb_spec (18446744073709551616 - 1) (n * 10 + (byteVal c - 48)))
    as [H2 | H2]; [lia |].
  cbn [orb]. apply IH; [exact Hd | lia | exact Hv].
Qed.

(** Digits whose value does not fit give the range error and the largest
    uint64. *)
Lemma parseUintLoop_range (s : bytes) (n : Z) :
  allDigits s = true -> 0 <= n <= strconv.maxUint64 ->
  strconv.maxUint64 < horner s n ->
  strconv.parseUintLoop s n = (strconv.maxUint64, Some strconv.ErrRange).
Proof.
  revert n. induction s as [| c s IH]; intros n Hd Hn Hv.
  - simpl in Hv. lia.
  - simpl in Hd. apply andb_true_iff in Hd. destruct Hd as [Hc Hd].
    cbn [strconv.parseUintLoop horner] in *. rewrite Hc.
    apply isDigit_range in Hc.
    destruct (Z.leb_spec (strconv.maxUint64 / 10 + 1) n) as [Hcut | Hcut];
      [reflexivity |].
    unfold strconv.maxUint64 in *.
    change (2 ^ 64) with 18446744073709551616 in *.
    change ((18446744073709551616 - 1) / 10 + 1) with 1844674407370955162 in Hcut.
    destruct (Z.le_gt_cases (n * 10 + (byteVal c - 48)) (18446744073709551616 - 1))
      as [Hfit | Hover].
    + rewrite Z.mod_small by lia.
      destruct (Z.ltb_spec (n * 10 + (byteVal c - 48)) n) as [H1 | H1]; [lia |].
      destruct (Z.ltb_spec (18446744073709551616 - 1) (n * 10 + (byteVal c - 48)))
        as [H2 | H2]; [lia |].
      cbn [orb]. apply IH; [exact Hd | lia | exact Hv].
    + assert (Hm : (n * 10 + (byteVal c - 48)) mod 18446744073709551616
                   = n * 10 + (byteVal c - 48) - 18446744073709551616).
      { symmetry. apply Z.mod_unique with (q := 1); lia. }
      rewrite Hm.
      destruct (Z.ltb_spec (n * 10 + (byteVal c - 48) - 18446744073709551616) n)
        as [H1 | H1]; [reflexivity | lia].
Qed.

Lemma leadingDigits_allDigits (s : bytes) : allDigits (leadingDigits s) = true.
Proof.
  induction s as [| a s IH]; [reflexivity |].
  cbn [leadingDigits]. destruct (strconv.isDigit a) eqn:Ha; [| reflexivity].
  unfold allDigits in *. cbn [forallb]. rewrite Ha, IH. reflexivity.
Qed.

(** A byte that is no digit, met before the value has left the range, is
    a syntax error. *)
Lemma parseUintLoop_syntax (s : bytes) (n : Z) :
  allDigits s = false -> 0 <= n ->
  horner (leadingDigits s) n <= strconv.maxUint64 ->
  strconv.parseUintLoop s n = (0, Some strconv.ErrSyntax).
Proof.
  revert n. induction s as [| c s IH]; intros n Hd Hn Hv; [discriminate |].
  cbn [strconv.parseUintLoop leadingDigits allDigits forallb] in *.
  destruct (strconv.isDigit c) eqn:Hc; [| reflexivity].
  cbn [andb horner] in *. apply isDigit_range in Hc.
  pose proof (leadingDigits_allDigits s) as Hld.
  pose proof (horner_ge (leadingDigits s) (n * 10 + (byteVal c - 48)) Hld ltac:(lia))
    as Hge.
  unfold strconv.maxUint64 in *.
  change (2 ^ 64) with 18446744073709551616 in *.
  change ((18446744073709551616 - 1) / 10 + 1) with 1844674407370955162.
  destruct (Z.leb_spec 1844674407370955162 n) as [Hcut | Hcut]; [lia |].
  rewrite Z.mod_small by lia.
  destruct (Z.ltb_spec (n * 10 + (byteVal c - 48)) n) as [H1 | H1]; [lia |].
  destruct (Z.ltb_spec (18446744073709551616 - 1) (n * 10 + (byteVal c - 48)))
    as [H2 | H2]; [lia |].
  cbn [orb]. apply IH; [exact Hd | lia | exact Hv].
Qed.

Lemma ParseUint_digits (body : bytes) :
  body <> [] -> allDigits body = true ->
  strconv.ParseUint body
  = if horner body 0 <=? strconv.maxUint64
    then (horner body 0, None)
    else (strconv.maxUint64, Some strconv.ErrRange).
Proof.
  intros Hne Hd. destruct body as [| c body]; [congruence |].
  unfold strconv.ParseUint.
  destruct (Z.leb_spec (horner (c :: body) 0) strconv.maxUint64) as [Hv | Hv].
  - apply parseUintLoop_value; [exact Hd | lia | exact Hv].
  - apply parseUintLoop_range; [exact Hd | unfold strconv.maxUint64; lia | exact Hv].
Qed.

Lemma ParseUint_syntax (body : bytes) :
  body = [] \/ allDigits body = false ->
  horner (leadingDigits body) 0 <= strconv.maxUint64 ->
  strconv.ParseUint body = (0, Some strconv.ErrSyntax).
Proof.
  intros Hb Hv. destruct body as [| c body]; [reflexivity |].
  destruct Hb as [Hb | Hb]; [discriminate |].
  apply parseUintLoop_syntax; [exact Hb | lia | exact Hv].
Qed.

(** [ParseInt] in terms of the sign and the body of its argument. *)
Lemma ParseInt_signAndBody (s : bytes) :
  s <> [] ->
  strconv.ParseInt s
  = let (neg, body) := signAndBody s in
    match strconv.ParseUint body with
    | (_, Some strconv.ErrSyntax) => (0, Some strconv.ErrSyntax)
    | (un, _) =>
        if negb neg && (2 ^ 63 <=? un) then (2 ^ 63 - 1, Some strconv.ErrRange)
        else if neg && (2 ^ 63 <? un) then (- 2 ^ 63, Some strconv.ErrRange)
        else (if neg then - un else un, None)
    end.
Proof.
  intros Hne. destruct s as [| c s]; [congruence |].
  unfold strconv.ParseInt, signAndBody.
  destruct (Ascii.eqb c (byte 45)) eqn:Hm.
  - rewrite orb_true_r. reflexivity.
  - rewrite orb_false_r. destruct (Ascii.eqb c (byte 43)); reflexivity.
Qed.

Lemma numeralValue_body (s : string) (v : Z) :
  numeralValue s = Some v ->
  exists neg body,
    signAndBody (bytesOf s) = (neg, body) /\ body <> [] /\ allDigits body = true
    /\ v = (if neg then - horner body 0 else horner body 0)
    /\ 0 <= horner body 0.
Proof.
  unfold numeralValue. destruct (signAndBody (bytesOf s)) as [neg body].
  destruct body as [| c body]; [discriminate |].
  destruct (allDigits (c :: body)) eqn:Hd; [| discriminate].
  intros H. injection H as <-. exists neg, (c :: body).
  repeat split; try assumption; try discriminate.
  apply (horner_ge (c :: body) 0 Hd). lia.
Qed.

Lemma signAndBody_nonempty (s : bytes) (neg : bool) (body : bytes) :
  signAndBody s = (neg, body) -> body <> [] -> s <> [].
Proof. destruct s; [intros H; injection H as _ <-; congruence | discriminate]. Qed.

(** A numeral within the range of [int] is parsed to its value, without
    error. *)
Lemma Atoi_numeral (s : string) (v : Z) :
  numeralValue s = Some v -> minInt <= v <= maxInt ->
  strconv.Atoi s = (v, None).
Proof.
  intros Hn Hr. destruct (numeralValue_body s v Hn) as (neg & body & Hs & Hne & Hd & Hv & H0).
  unfold strconv.Atoi.
  rewrite ParseInt_signAndBody by (eapply signAndBody_nonempty; eassumption).
  rewrite Hs, (ParseUint_digits body Hne Hd).
  unfold minInt, maxInt, intSize, strconv.maxUint64 in *.
  change (2 ^ (64 - 1)) with 9223372036854775808 in *.
  change (2 ^ 63) with 9223372036854775808.
  change (2 ^ 64) with 18446744073709551616.
  destruct neg; cbn [negb andb]; split_tests.
Qed.

(** A numeral beyond the range of [int] gives the bound on its side and the
    range error. *)
Lemma Atoi_out_of_range (s : string) (v : Z) :
  numeralValue s = Some v -> v < minInt \/ maxInt < v ->
  strconv.Atoi s = (if v <? 0 then minInt else maxInt, Some strconv.ErrRange).
Proof.
  intros Hn Hr. destruct (numeralValue_body s v Hn) as (neg & body & Hs & Hne & Hd & Hv & H0).
  unfold strconv.Atoi.
  rewrite ParseInt_signAndBody by (eapply signAndBody_nonempty; eassumption).
  rewrite Hs, (ParseUint_digits body Hne Hd).
  unfold minInt, maxInt, intSize, strconv.maxUint64 in *.
  change (2 ^ (64 - 1)) with 9223372036854775808 in *.
  change (2 ^ 63) with 9223372036854775808.
  change (2 ^ 64) with 18446744073709551616.
  destruct neg; cbn [negb andb]; split_tests.
Qed.

(** A string that is no numeral gives 0 and the syntax error, unless the
    digits it starts with leave the uint64 range first. *)
Lemma Atoi_not_numeral (s : string) :
  numeralValue s = None -> leadingValue s <= strconv.maxUint64 ->
  strconv.Atoi s = (0, Some strconv.ErrSyntax).
Proof.
  unfold numeralValue, leadingValue, strconv.Atoi. intros Hn Hv.
  destruct (bytesOf s) as [| c l] eqn:Hs; [reflexivity |].
  rewrite ParseInt_signAndBody by discriminate.
  destruct (signAndBody (c :: l)) as [neg body]. cbn [snd] in Hv.
  rewrite ParseUint_syntax; [reflexivity | | exact Hv].
  destruct body as [| b body]; [left; reflexivity | right].
  destruct (allDigits (b :: body)); [discriminate | reflexivity].
Qed.

(** *** What Itoa prints is read back by Atoi *)

Lemma uint_allDigits (d : Decimal.uint) :
  allDigits (bytesOf (NilEmpty.string_of_uint d)) = true.
Proof. induction d; simpl; try reflexivity; exact IHd. Qed.

Lemma horner_uint_acc (d : Decimal.uint) (acc : positive) :
  horner (bytesOf (NilEmpty.string_of_uint d)) (Z.pos acc)
  = Z.pos (Pos.of_uint_acc d acc).
Proof.
  revert acc. induction d; intros acc; cbn [NilEmpty.string_of_uint bytesOf
    list_ascii_of_string horner Pos.of_uint_acc]; [reflexivity | ..];
    fold (bytesOf (NilEmpty.string_of_uint d));
    match goal with
    | |- horner _ ?n = Z.pos (Pos.of_uint_acc _ ?a) =>
        replace n with (Z.pos a) by (eval_byteVal; lia)
    end; apply IHd.
Qed.

Lemma horner_uint (d : Decimal.uint) :
  horner (bytesOf (NilEmpty.string_of_uint d)) 0 = Z.of_N (Pos.of_uint d).
Proof.
  induction d; cbn [NilEmpty.string_of_uint bytesOf list_ascii_of_string horner
    Pos.of_uint]; [reflexivity | ..];
    fold (bytesOf (NilEmpty.string_of_uint d));
    [exact IHd | ..];
    match goal with
    | |- horner _ ?n = Z.of_N (N.pos (Pos.of_uint_acc _ ?a)) =>
        replace n with (Z.pos a) by (eval_byteVal; lia)
    end; apply horner_uint_acc.
Qed.

Lemma signAndBody_uint (d : Decimal.uint) :
  signAndBody (bytesOf (NilEmpty.string_of_uint d))
  = (false, bytesOf (NilEmpty.string_of_uint d)).
Proof. destruct d; reflexivity. Qed.

Lemma string_of_uint_nonnil (d : Decimal.uint) :
  d <> Decimal.Nil ->
  NilZero.string_of_uint d = NilEmpty.string_of_uint d
  /\ bytesOf (NilEmpty.string_of_uint d) <> [].
Proof. destruct d; intros H; try congruence; split; (reflexivity || discriminate). Qed.

Lemma numeralValue_Itoa (n : Z) : numeralValue (strconv.Itoa n) = Some n.
Proof.
  unfold strconv.Itoa, numeralValue. destruct n as [| p | p]; [reflexivity | |].
  - cbn [Z.to_int NilZero.string_of_int].
    destruct (string_of_uint_nonnil (Pos.to_uint p) (DecimalPos.Unsigned.to_uint_nonnil p))
      as [-> Hne].
    rewrite signAndBody_uint.
    destruct (bytesOf (NilEmpty.string_of_uint (Pos.to_uint p))) as [| c l] eqn:E;
      [congruence |].
    rewrite <- E, uint_allDigits, horner_uint, DecimalPos.Unsigned.of_to.
    reflexivity.
  - cbn [Z.to_int NilZero.string_of_int].
    destruct (string_of_uint_nonnil (Pos.to_uint p) (DecimalPos.Unsigned.to_uint_nonnil p))
      as [-> Hne].
    change (signAndBody (bytesOf (String "-" (NilEmpty.string_of_uint (Pos.to_uint p)))))
      with (true, bytesOf (NilEmpty.string_of_uint (Pos.to_uint p))).
    destruct (bytesOf (NilEmpty.string_of_uint (Pos.to_uint p))) as [| c l] eqn:E;
      [congruence |].
    rewrite <- E, uint_allDigits, horner_uint, DecimalPos.Unsigned.of_to.
    reflexivity.
Qed.

(** Atoi reads back every [int] that Itoa prints. *)
Lemma Atoi_Itoa (n : Z) :
  minInt <= n <= maxInt -> strconv.Atoi (strconv.Itoa n) = (n, None).
Proof. intros Hr. apply Atoi_numeral; [apply numeralValue_Itoa | exact Hr]. Qed.

Lemma Itoa_inj (n m : Z) : strconv.Itoa n = strconv.Itoa m -> n = m.
Proof.
  intros H. pose proof (numeralValue_Itoa n) as Hn. rewrite H, numeralValue_Itoa in Hn.
  congruence.
Qed.

(** ** The configuration generator *)

Lemma placeholder_inj (p p' : Z) : placeholder p = placeholder p' -> p = p'.
Proof.
  unfold placeholder. cbn [append]. intros H. injection H as H. apply Itoa_inj, H.
Qed.

Lemma generate_invalid_position (a : AccessPoint) (team : option Team) (position : Z) :
  position < 1 \/ 6 < position ->
  generateTeamAccessPointConfig a team position = (EmptyString, Some (InvalidPosition position)).
Proof.
  intros H. unfold generateTeamAccessPointConfig.
  destruct (Z.ltb_spec position 1); [reflexivity |].
  destruct (Z.gtb_spec position 6); [reflexivity | lia].
Qed.

Lemma generate_valid_position (a : AccessPoint) (team : option Team) (position : Z) :
  1 <= position <= 6 ->
  generateTeamAccessPointConfig a team position
  = match team with
    | None =>
        (strings.Join
           (stationCommands (isVividType a) position (placeholder position)
              (placeholder position)) newline, None)
    | Some t =>
        if (String.length (WpaKey t) <? 8)%nat || (63 <? String.length (WpaKey t))%nat
        then (EmptyString, Some (InvalidCredential (WpaKey t) (Id t)))
        else
          (strings.Join
             (stationCommands (isVividType a) position (strconv.Itoa (Id t)) (WpaKey t))
             newline, None)
    end.
Proof.
  intros H. unfold generateTeamAccessPointConfig.
  destruct (Z.ltb_spec position 1); [lia |].
  destruct (Z.gtb_spec position 6); [lia |].
  reflexivity.
Qed.

(** The text for an empty station, byte for byte. *)
Lemma generate_placeholder_text (a : AccessPoint) (position : Z) :
  1 <= position <= 6 ->
  let digit := String (ascii_of_nat (Z.to_nat (48 + position))) EmptyString in
  let nl := String (ascii_of_nat 10) EmptyString in
  let iface := ("set wireless.@wifi-iface[" ++ digit ++ "]")%string in
  let name := ("no-team-" ++ digit)%string in
  generateTeamAccessPointConfig a None position
  = ((iface ++ ".disabled='0'" ++ nl
      ++ iface ++ ".ssid='" ++ name ++ "'" ++ nl
      ++ iface ++ ".key='" ++ name ++ "'"
      ++ (if isVividType a
          then nl ++ iface ++ ".sae_password='" ++ name ++ "'"
          else EmptyString))%string,
     None).
Proof.
  intros H.
  assert (C : position = 1 \/ position = 2 \/ position = 3 \/ position = 4
              \/ position = 5 \/ position = 6) by lia.
  destruct a as [vivid address' username' password' channel' enabled ch statuses fetched].
  cbn [isVividType].
  destruct C as [-> | [-> | [-> | [-> | [-> | ->]]]]];
    destruct vivid; vm_compute; reflexivity.
Qed.

(** C4. A position outside 1..6 gives the invalid-position error whatever
    the team is.  For a position in 1..6 and no team the generator succeeds
    and returns, byte for byte, three lines joined by newlines (four on a
    Vivid access point): they enable wifi-iface[position] and set its ssid
    and its key (and its sae_password) to the placeholder "no-team-"
    followed by the position, where the position is written as its decimal
    digit.  Every line addresses wifi-iface[position]; two positions never
    share a placeholder, and the texts returned for two positions
    differ. *)
Theorem generate_position_check_and_placeholder
    (a : AccessPoint) (team : option Team) (position position' : Z) :
  (position < 1 \/ 6 < position ->
   generateTeamAccessPointConfig a team position
   = (EmptyString, Some (InvalidPosition position)))
  /\ (1 <= position <= 6 ->
      let digit := String (ascii_of_nat (Z.to_nat (48 + position))) EmptyString in
      let nl := String (ascii_of_nat 10) EmptyString in
      let iface := ("set wireless.@wifi-iface[" ++ digit ++ "]")%string in
      let name := ("no-team-" ++ digit)%string in
      generateTeamAccessPointConfig a None position
      = ((iface ++ ".disabled='0'" ++ nl
          ++ iface ++ ".ssid='" ++ name ++ "'" ++ nl
          ++ iface ++ ".key='" ++ name ++ "'"
          ++ (if isVividType a
              then nl ++ iface ++ ".sae_password='" ++ name ++ "'"
              else EmptyString))%string,
         None)
      /\ placeholder position = name)
  /\ (placeholder position = placeholder position' -> position = position')
  /\ (1 <= position <= 6 -> 1 <= position' <= 6 -> position <> position' ->
      placeholder position <> placeholder position'
      /\ fst (generateTeamAccessPointConfig a None position)
         <> fst (generateTeamAccessPointConfig a None position')).
Proof.
  split; [| split; [| split]].
  - apply generate_invalid_position.
  - intros H. cbv zeta. split; [apply (generate_placeholder_text a position H) |].
    assert (C : position = 1 \/ position = 2 \/ position = 3 \/ position = 4
                \/ position = 5 \/ position = 6) by lia.
    destruct C as [-> | [-> | [-> | [-> | [-> | ->]]]]]; vm_compute; reflexivity.
  - apply placeholder_inj.
  - intros H H' Hne. split.
    + intros E. apply Hne, placeholder_inj, E.
    + rewrite (generate_placeholder_text a position H),
              (generate_placeholder_text a position' H').
      cbv zeta. cbn [fst append]. intros E.
      injection E as E. apply Hne.
      assert (C : position = 1 \/ position = 2 \/ position = 3 \/ position = 4
                  \/ position = 5 \/ position = 6) by lia.
      assert (C' : position' = 1 \/ position' = 2 \/ position' = 3 \/ position' = 4
                   \/ position' = 5 \/ position' = 6) by lia.
      destruct C as [-> | [-> | [-> | [-> | [-> | ->]]]]];
        destruct C' as [-> | [-> | [-> | [-> | [-> | ->]]]]];
        first [reflexivity | vm_compute in E; discriminate E].
Qed.

(** C5. For a team and a position in 1..6 the generator returns the
    invalid-credential error exactly when the WPA key is shorter than 8 or
    longer than 63 bytes; otherwise it succeeds with the team's id as
    network name and the key as passphrase.  So the lengths 7 and 64 are
    rejected and the lengths 8 and 63 accepted. *)
Theorem generate_checks_key_length (a : AccessPoint) (t : Team) (position : Z) :
  1 <= position <= 6 ->
  (snd (generateTeamAccessPointConfig a (Some t) position)
   = Some (InvalidCredential (WpaKey t) (Id t))
   <-> (String.length (WpaKey t) < 8 \/ 63 < String.length (WpaKey t))%nat)
  /\ ((8 <= String.length (WpaKey t) <= 63)%nat ->
      generateTeamAccessPointConfig a (Some t) position
      = (strings.Join
           (stationCommands (isVividType a) position (strconv.Itoa (Id t)) (WpaKey t))
           newline,
         None))
  /\ ((String.length (WpaKey t) = 7 \/ String.length (WpaKey t) = 64)%nat ->
      generateTeamAccessPointConfig a (Some t) position
      = (EmptyString, Some (InvalidCredential (WpaKey t) (Id t))))
  /\ ((String.length (WpaKey t) = 8 \/ String.length (WpaKey t) = 63)%nat ->
      snd (generateTeamAccessPointConfig a (Some t) position) = None).
Proof.
  intros Hp. rewrite (generate_valid_position a (Some t) position Hp).
  destruct (Nat.ltb_spec (String.length (WpaKey t)) 8) as [H8 | H8];
    destruct (Nat.ltb_spec 63 (String.length (WpaKey t))) as [H63 | H63];
    cbn [orb snd]; repeat split; intros; try reflexivity; try lia; try discriminate.
Qed.

(** ** Package regexp: every match has its groups *)

Lemma matchRep_continues (R : Type) (cls : ascii -> bool) (min : nat)
    (k : bytes -> bytes -> option R) (acc s : bytes) (r : R) :
  regexp.matchRep cls min k acc s = Some r ->
  exists cap rest, k cap rest = Some r.
Proof.
  revert acc. induction s as [| c s IH]; intros acc; cbn [regexp.matchRep].
  - destruct (min <=? List.length acc)%nat; [eauto | discriminate].
  - destruct (cls c).
    + destruct (regexp.matchRep cls min k (c :: acc) s) as [r' |] eqn:E.
      * intros H. injection H as <-. eapply IH, E.
      * destruct (min <=? List.length acc)%nat; [eauto | discriminate].
    + destruct (min <=? List.length acc)%nat; [eauto | discriminate].
Qed.

Lemma matchHere_groups (re : regexp.Regexp) (s : bytes) (caps : list bytes)
    (rest : bytes) :
  regexp.matchHere re s = Some (caps, rest) ->
  List.length caps = countGroups re.
Proof.
  revert s caps rest. induction re as [| a re IH]; intros s caps rest.
  - intros H. injection H as <- _. reflexivity.
  - destruct a as [l | cls min]; cbn [regexp.matchHere countGroups].
    + destruct (regexp.stripPrefix (bytesOf l) s) as [s' |]; [apply IH | discriminate].
    + intros H. apply matchRep_continues in H. destruct H as (cap & rest' & H).
      destruct (regexp.matchHere re rest') as [[caps' r] |] eqn:E; [| discriminate].
      injection H as <- _. cbn [List.length]. f_equal. eapply IH, E.
Qed.

Lemma findAllFrom_groups (re : regexp.Regexp) (skip : nat) (s : bytes)
    (m : list bytes) :
  In m (regexp.findAllFrom re skip s) ->
  List.length m = S (countGroups re).
Proof.
  revert skip. induction s as [| c s IH]; intros skip; cbn [regexp.findAllFrom].
  - destruct skip; [| intros []].
    destruct (regexp.matchHere re []) as [[caps rest] |] eqn:E; [| intros []].
    intros [<- | []]. cbn [List.length]. f_equal. eapply matchHere_groups, E.
  - destruct skip as [| j]; [| apply IH].
    destruct (regexp.matchHere re (c :: s)) as [[caps rest] |] eqn:E; [| apply IH].
    intros [<- | H]; [| eapply IH, H].
    cbn [List.length]. f_equal. eapply matchHere_groups, E.
Qed.

Lemma FindAllStringSubmatch_groups (re : regexp.Regexp) (s : string)
    (m : list string) :
  In m (regexp.FindAllStringSubmatch re s) ->
  List.length m = S (countGroups re).
Proof.
  unfold regexp.FindAllStringSubmatch. intros H.
  apply in_map_iff in H. destruct H as (m' & <- & H).
  rewrite length_map. eapply findAllFrom_groups, H.
Qed.

(** ** Package regexp: what a match is *)

Lemma stripPrefix_Some (p s s' : bytes) :
  regexp.stripPrefix p s = Some s' <-> s = p ++ s'.
Proof.
  revert s. induction p as [| a p IH]; intros s; cbn [regexp.stripPrefix app].
  - split; [intros H; injection H as ->; reflexivity | intros ->; reflexivity].
  - destruct s as [| c s]; [split; discriminate |].
    destruct (Ascii.eqb_spec a c) as [-> | Hne].
    + rewrite IH. split; [intros ->; reflexivity | intros H; injection H as ->; reflexivity].
    + split; [discriminate | intros H; injection H as H _; congruence].
Qed.

(** A repetition that matched took bytes of its class, at least [min] with
    those taken before, and what follows matched the rest. *)
Lemma matchRep_sound (R : Type) (cls : ascii -> bool) (min : nat)
    (k : bytes -> bytes -> option R) (acc s : bytes) (r : R) :
  regexp.matchRep cls min k acc s = Some r ->
  exists pre rest,
    s = pre ++ rest /\ forallb cls pre = true
    /\ (min <= List.length acc + List.length pre)%nat
    /\ k (rev acc ++ pre) rest = Some r.
Proof.
  revert acc. induction s as [| c s IH]; intros acc; cbn [regexp.matchRep].
  - destruct (Nat.leb_spec min (List.length acc)) as [Hm | Hm]; [| discriminate].
    intros Hk. exists [], []. rewrite !app_nil_r. cbn [List.length forallb].
    repeat split; [lia | exact Hk].
  - assert (Hstop : (if (min <=? List.length acc)%nat then k (rev acc) (c :: s) else None)
                    = Some r ->
                    exists pre rest,
                      c :: s = pre ++ rest /\ forallb cls pre = true
                      /\ (min <= List.length acc + List.length pre)%nat
                      /\ k (rev acc ++ pre) rest = Some r).
    { destruct (Nat.leb_spec min (List.length acc)) as [Hm | Hm]; [| discriminate].
      intros Hk. exists [], (c :: s). rewrite !app_nil_r. cbn [List.length forallb app].
      repeat split; [lia | exact Hk]. }
    destruct (cls c) eqn:Hc; [| exact Hstop].
    destruct (regexp.matchRep cls min k (c :: acc) s) as [r' |] eqn:E; [| exact Hstop].
    intros H. injection H as ->.
    destruct (IH (c :: acc) E) as (pre & rest & -> & Hp & Hl & Hk).
    exists (c :: pre), rest. cbn [forallb List.length app rev] in *.
    rewrite Hc, Hp. rewrite <- app_assoc in Hk.
    repeat split; [lia | exact Hk].
Qed.

(** A repetition takes the longest run of its class when what follows
    matches after it. *)
Lemma matchRep_longest (R : Type) (cls : ascii -> bool) (min : nat)
    (k : bytes -> bytes -> option R) (acc pre rest : bytes) (r : R) :
  forallb cls pre = true ->
  match rest with
  | c :: _ => cls c = false
  | [] => True
  end ->
  (min <= List.length acc + List.length pre)%nat ->
  k (rev acc ++ pre) rest = Some r ->
  regexp.matchRep cls min k acc (pre ++ rest) = Some r.
Proof.
  revert acc. induction pre as [| c pre IH]; intros acc Hp Hrest Hl Hk.
  - cbn [app List.length] in *. rewrite app_nil_r in Hk.
    destruct rest as [| c rest]; cbn [regexp.matchRep].
    + destruct (Nat.leb_spec min (List.length acc)); [exact Hk | lia].
    + rewrite Hrest. destruct (Nat.leb_spec min (List.length acc)); [exact Hk | lia].
  - cbn [forallb] in Hp. apply andb_true_iff in Hp. destruct Hp as [Hc Hp].
    cbn [app regexp.matchRep]. rewrite Hc.
    rewrite (IH (c :: acc) Hp Hrest); [reflexivity | cbn [List.length] in *; lia |].
    cbn [rev]. rewrite <- app_assoc. exact Hk.
Qed.

(** A match of the ESSID expression at the start of [s] is the text
    ESSID: "name" with a name of bytes of the class, and its group is the
    name. *)
Lemma matchHere_ssid_sound (s : bytes) (caps : list bytes) (rest : bytes) :
  regexp.matchHere ssidRe s = Some (caps, rest) ->
  exists name,
    caps = [name] /\ forallb regexp.dashWordSpace name = true
    /\ s = bytesOf "ESSID: " ++ [dquote] ++ name ++ [dquote] ++ rest.
Proof.
  unfold ssidRe. cbn [regexp.matchHere].
  destruct (regexp.stripPrefix (bytesOf "ESSID: ") s) as [s1 |] eqn:E1; [| discriminate].
  destruct (regexp.stripPrefix (bytesOf quoteString) s1) as [s2 |] eqn:E2; [| discriminate].
  apply stripPrefix_Some in E1, E2. subst s s1.
  intros H. apply matchRep_sound in H. destruct H as (name & r & -> & Hn & _ & Hk).
  destruct (regexp.stripPrefix (bytesOf quoteString) r) as [r' |] eqn:E3; [| discriminate].
  apply stripPrefix_Some in E3. subst r. injection Hk as <- <-.
  exists name. split; [reflexivity | split; [exact Hn | reflexivity]].
Qed.

Lemma matchHere_ssid_complete (name rest : bytes) :
  forallb regexp.dashWordSpace name = true ->
  regexp.matchHere ssidRe (bytesOf "ESSID: " ++ [dquote] ++ name ++ [dquote] ++ rest)
  = Some ([name], rest).
Proof.
  intros Hn. unfold ssidRe. cbn [regexp.matchHere].
  change (bytesOf quoteString) with [dquote].
  rewrite (proj2 (stripPrefix_Some (bytesOf "ESSID: ") _ _) eq_refl).
  rewrite (proj2 (stripPrefix_Some [dquote] _ (name ++ [dquote] ++ rest)) eq_refl).
  apply matchRep_longest; [exact Hn | reflexivity | cbn; lia |].
  cbn [rev app].
  rewrite (proj2 (stripPrefix_Some [dquote] (dquote :: rest) rest) eq_refl).
  reflexivity.
Qed.

(** A match of the link-quality expression is the text
    Link Quality: a/b with [a] and [b] of bytes of the class and not empty;
    its groups are [a] and [b]. *)
Lemma matchHere_linkQuality_sound (s : bytes) (caps : list bytes) (rest : bytes) :
  regexp.matchHere linkQualityRe s = Some (caps, rest) ->
  exists a b,
    caps = [a; b] /\ a <> [] /\ b <> []
    /\ forallb regexp.dashWordSpace a = true
    /\ forallb regexp.dashWordSpace b = true
    /\ s = bytesOf "Link Quality: " ++ a ++ bytesOf "/" ++ b ++ rest.
Proof.
  unfold linkQualityRe. cbn [regexp.matchHere].
  destruct (regexp.stripPrefix (bytesOf "Link Quality: ") s) as [s1 |] eqn:E1;
    [| discriminate].
  apply stripPrefix_Some in E1. subst s.
  intros H. apply matchRep_sound in H. destruct H as (a & r & -> & Ha & La & Hk).
  destruct (regexp.stripPrefix (bytesOf "/") r) as [s2 |] eqn:E2; [| discriminate].
  apply stripPrefix_Some in E2. subst r.
  destruct (regexp.matchRep regexp.dashWordSpace 1 _ [] s2) as [[caps' r'] |] eqn:E3;
    [| discriminate].
  injection Hk as <- <-.
  apply matchRep_sound in E3. destruct E3 as (b & r & -> & Hb & Lb & Hk).
  injection Hk as <- <-.
  exists a, b. cbn [List.length Nat.add rev app] in *.
  repeat split; try assumption; intros ->; cbn [List.length] in *; lia.
Qed.

Lemma matchHere_linkQuality_complete (a b rest : bytes) :
  a <> [] -> b <> [] ->
  forallb regexp.dashWordSpace a = true ->
  forallb regexp.dashWordSpace b = true ->
  match rest with
  | c :: _ => regexp.dashWordSpace c = false
  | [] => True
  end ->
  regexp.matchHere linkQualityRe
    (bytesOf "Link Quality: " ++ a ++ bytesOf "/" ++ b ++ rest)
  = Some ([a; b], rest).
Proof.
  intros Ha Hb Ca Cb Hrest. unfold linkQualityRe. cbn [regexp.matchHere].
  rewrite (proj2 (stripPrefix_Some (bytesOf "Link Quality: ") _ _) eq_refl).
  apply matchRep_longest; [exact Ca | reflexivity | |].
  - destruct a; [congruence | cbn; lia].
  - cbn [rev app].
    rewrite (proj2 (stripPrefix_Some (bytesOf "/") _ (b ++ rest)) eq_refl).
    rewrite (matchRep_longest _ regexp.dashWordSpace 1 _ [] b rest ([b], rest));
      [reflexivity | exact Cb | exact Hrest | | reflexivity].
    destruct b; [congruence | cbn; lia].
Qed.

(** Every match that is found is a match at some place of the text; its
    first entry is the text matched there. *)
Lemma findAllFrom_sound (re : regexp.Regexp) (skip : nat) (s : bytes)
    (m : list bytes) :
  In m (regexp.findAllFrom re skip s) ->
  exists before here caps rest,
    s = before ++ here
    /\ regexp.matchHere re here = Some (caps, rest)
    /\ m = firstn (List.length here - List.length rest) here :: caps.
Proof.
  revert skip. induction s as [| c s IH]; intros skip; cbn [regexp.findAllFrom].
  - destruct skip; [| intros []].
    destruct (regexp.matchHere re []) as [[caps rest] |] eqn:E; [| intros []].
    intros [<- | []]. exists [], [], caps, rest.
    split; [reflexivity |]. split; [exact E |].
    destruct rest; reflexivity.
  - assert (Htail : forall j, In m (regexp.findAllFrom re j s) ->
                    exists before here caps rest,
                      c :: s = before ++ here
                      /\ regexp.matchHere re here = Some (caps, rest)
                      /\ m = firstn (List.length here - List.length rest) here :: caps).
    { intros j H. destruct (IH j H) as (before & here & caps & rest & -> & Hm & Hw).
      exists (c :: before), here, caps, rest. repeat split; assumption. }
    destruct skip as [| j]; [| apply Htail].
    destruct (regexp.matchHere re (c :: s)) as [[caps rest] |] eqn:E; [| apply Htail].
    intros [<- | H]; [| eapply Htail, H].
    exists [], (c :: s), caps, rest. repeat split. exact E.
Qed.

(** The ESSID matches of a text: each is ESSID: "name" and its group 1 is
    the name. *)
Lemma ssid_match_shape (wifiInfo : string) (m : list string) :
  In m (regexp.FindAllStringSubmatch ssidRe wifiInfo) ->
  exists name,
    forallb regexp.dashWordSpace name = true
    /\ m = [stringOf (bytesOf "ESSID: " ++ [dquote] ++ name ++ [dquote]); stringOf name].
Proof.
  unfold regexp.FindAllStringSubmatch. intros H.
  apply in_map_iff in H. destruct H as (m' & <- & H).
  apply findAllFrom_sound in H.
  destruct H as (before & here & caps & rest & _ & Hm & ->).
  apply matchHere_ssid_sound in Hm. destruct Hm as (name & -> & Hn & ->).
  exists name. split; [exact Hn |]. cbn [map]. f_equal. f_equal.
  rewrite !app_assoc, length_app, Nat.add_sub, firstn_app, firstn_all, Nat.sub_diag.
  cbn [firstn]. rewrite app_nil_r, <- !app_assoc. reflexivity.
Qed.

(** The link-quality matches of a text: each is Link Quality: a/b, its
    group 1 the numerator [a]. *)
Lemma linkQuality_match_shape (wifiInfo : string) (m : list string) :
  In m (regexp.FindAllStringSubmatch linkQualityRe wifiInfo) ->
  exists a b,
    a <> [] /\ b <> []
    /\ forallb regexp.dashWordSpace a = true
    /\ forallb regexp.dashWordSpace b = true
    /\ m = [stringOf (bytesOf "Link Quality: " ++ a ++ bytesOf "/" ++ b);
            stringOf a; stringOf b].
Proof.
  unfold regexp.FindAllStringSubmatch. intros H.
  apply in_map_iff in H. destruct H as (m' & <- & H).
  apply findAllFrom_sound in H.
  destruct H as (before & here & caps & rest & _ & Hm & ->).
  apply matchHere_linkQuality_sound in Hm.
  destruct Hm as (a & b & -> & Ha & Hb & Ca & Cb & ->).
  exists a, b. repeat split; try assumption. cbn [map]. f_equal. f_equal.
  rewrite !app_assoc, length_app, Nat.add_sub, firstn_app, firstn_all, Nat.sub_diag.
  cbn [firstn]. rewrite app_nil_r, <- !app_assoc. reflexivity.
Qed.

(** ** The status decoder *)

Lemma index_nth (A : Type) (l : list A) (i : nat) (d : A) :
  (i < List.length l)%nat -> index l i = Return (nth i l d).
Proof.
  intros H. unfold index.
  destruct (nth_error l i) as [a |] eqn:E.
  - rewrite (nth_error_nth l i d E). reflexivity.
  - apply nth_error_None in E. lia.
Qed.

Lemma index_Return (A : Type) (l : list A) (i : nat) (a d : A) :
  index l i = Return a -> (i < List.length l)%nat /\ nth i l d = a.
Proof.
  unfold index. destruct (nth_error l i) as [x |] eqn:E; [| discriminate].
  intros H. injection H as <-. split.
  - apply nth_error_Some. congruence.
  - apply nth_error_nth, E.
Qed.

(** A round of the loop that does not panic writes [decoded]. *)
Lemma decodeOne_Return (ssids linkQualities : list (list string)) (i : nat)
    (old status : TeamWifiStatus) :
  decodeOne ssids linkQualities i old = Return status ->
  status = decoded (submatch ssids i 1) (submatch linkQualities i 1) old.
Proof.
  unfold decodeOne, bind, submatch, decoded.
  destruct (index ssids i) as [m |] eqn:E1; [| discriminate].
  destruct (index m 1) as [ssid |] eqn:E2; [| discriminate].
  destruct (index linkQualities i) as [q |] eqn:E3; [| discriminate].
  destruct (index q 1) as [numerator |] eqn:E4; [| discriminate].
  apply (index_Return _ _ _ _ []) in E1, E3. destruct E1 as [_ ->], E3 as [_ ->].
  apply (index_Return _ _ _ _ EmptyString) in E2, E4.
  destruct E2 as [_ ->], E4 as [_ ->].
  intros H. injection H as <-. reflexivity.
Qed.

(** It does not panic where both lists have a match with a first group. *)
Lemma decodeOne_ok (ssids linkQualities : list (list string)) (i : nat)
    (old : TeamWifiStatus) :
  (i < List.length ssids)%nat -> (i < List.length linkQualities)%nat ->
  (forall m, In m ssids -> (2 <= List.length m)%nat) ->
  (forall q, In q linkQualities -> (2 <= List.length q)%nat) ->
  decodeOne ssids linkQualities i old
  = Return (decoded (submatch ssids i 1) (submatch linkQualities i 1) old).
Proof.
  intros H1 H2 G1 G2. unfold decodeOne, bind, submatch, decoded.
  rewrite (index_nth _ ssids i [] H1).
  rewrite (index_nth _ (nth i ssids []) 1 EmptyString)
    by (apply G1, nth_In, H1).
  rewrite (index_nth _ linkQualities i [] H2).
  rewrite (index_nth _ (nth i linkQualities []) 1 EmptyString)
    by (apply G2, nth_In, H2).
  reflexivity.
Qed.

Lemma decodeLoop_ok (ssids linkQualities : list (list string)) (k : nat)
    (statuses : list TeamWifiStatus) :
  (k + List.length statuses <= List.length ssids)%nat ->
  (k + List.length statuses <= List.length linkQualities)%nat ->
  (forall m, In m ssids -> (2 <= List.length m)%nat) ->
  (forall q, In q linkQualities -> (2 <= List.length q)%nat) ->
  exists statuses', decodeLoop ssids linkQualities k statuses = Return statuses'.
Proof.
  intros H1 H2 G1 G2. revert k H1 H2.
  induction statuses as [| old statuses IH]; intros k H1 H2; cbn [decodeLoop].
  - eauto.
  - cbn [List.length] in H1, H2.
    rewrite decodeOne_ok by (assumption || lia). cbn [bind].
    destruct (IH (S k)) as [rest' E]; try lia.
    rewrite E. cbn [bind]. eauto.
Qed.

(** Where the loop returns, record [i] is [decoded] from match [k + i] of
    each expression and from what the record held. *)
Lemma decodeLoop_Return (ssids linkQualities : list (list string)) (k : nat)
    (statuses statuses' : list TeamWifiStatus) :
  decodeLoop ssids linkQualities k statuses = Return statuses' ->
  List.length statuses' = List.length statuses
  /\ forall i old, nth_error statuses i = Some old ->
       nth_error statuses' i
       = Some (decoded (submatch ssids (k + i) 1) (submatch linkQualities (k + i) 1) old).
Proof.
  revert k statuses'.
  induction statuses as [| old0 statuses IH]; intros k statuses'; cbn [decodeLoop].
  - intros H. injection H as <-. split; [reflexivity |].
    intros i old. destruct i; discriminate.
  - destruct (decodeOne ssids linkQualities k old0) as [status |] eqn:E1;
      [| discriminate].
    cbn [bind].
    destruct (decodeLoop ssids linkQualities (S k) statuses) as [rest' |] eqn:E2;
      [| discriminate].
    cbn [bind]. intros H. injection H as <-.
    destruct (IH (S k) rest' E2) as [Hlen Hnth].
    split; [cbn [List.length]; congruence |].
    intros [| i] old; cbn [nth_error].
    + intros H. injection H as <-. rewrite Nat.add_0_r.
      f_equal. apply decodeOne_Return, E1.
    + intros H. rewrite (Hnth i old H). rewrite Nat.add_succ_r. reflexivity.
Qed.

Lemma ssid_matches_have_group (wifiInfo : string) (m : list string) :
  In m (regexp.FindAllStringSubmatch ssidRe wifiInfo) -> (2 <= List.length m)%nat.
Proof. intros H. rewrite (FindAllStringSubmatch_groups _ _ _ H). cbn. lia. Qed.

Lemma linkQuality_matches_have_group (wifiInfo : string) (m : list string) :
  In m (regexp.FindAllStringSubmatch linkQualityRe wifiInfo) -> (2 <= List.length m)%nat.
Proof. intros H. rewrite (FindAllStringSubmatch_groups _ _ _ H). cbn. lia. Qed.

(** C2. On the six status records of the controller [decodeWifiInfo]
    never panics, and it returns an error exactly when the text has fewer
    than 6 matches of the ESSID expression or fewer than 6 matches of the
    link-quality expression; the records are then returned as they were.
    Otherwise it returns no error and six records, where record [i] has the
    team id read from the name of the [i]-th ESSID match, the link flag
    read from the numerator of the [i]-th link-quality match, and the
    bandwidth it held before. *)
Theorem decodeWifiInfo_error_iff_fewer_than_six
    (wifiInfo : string) (statuses : list TeamWifiStatus) :
  List.length statuses = 6%nat ->
  let ssids := regexp.FindAllStringSubmatch ssidRe wifiInfo in
  let linkQualities := regexp.FindAllStringSubmatch linkQualityRe wifiInfo in
  (exists statuses' err, decodeWifiInfo wifiInfo statuses = Return (statuses', err)
     /\ (err <> None <-> (List.length ssids < 6 \/ List.length linkQualities < 6)%nat))
  /\ ((List.length ssids < 6 \/ List.length linkQualities < 6)%nat ->
      decodeWifiInfo wifiInfo statuses
      = Return (statuses, Some (MalformedStatus (List.length ssids))))
  /\ ((6 <= List.length ssids)%nat -> (6 <= List.length linkQualities)%nat ->
      exists statuses',
        decodeWifiInfo wifiInfo statuses = Return (statuses', None)
        /\ List.length statuses' = 6%nat
        /\ forall i old, nth_error statuses i = Some old ->
             nth_error statuses' i
             = Some (mkTeamWifiStatus
                       (fst (strconv.Atoi (submatch ssids i 1)))
                       (negb (String.eqb (submatch linkQualities i 1) "unknown"))
                       (MBits old))).
Proof.
  intros Hlen ssids linkQualities.
  assert (Herr : (List.length ssids < 6 \/ List.length linkQualities < 6)%nat ->
                 decodeWifiInfo wifiInfo statuses
                 = Return (statuses, Some (MalformedStatus (List.length ssids)))).
  { intros H. unfold decodeWifiInfo. fold ssids linkQualities.
    destruct (Nat.ltb_spec (List.length ssids) 6);
      destruct (Nat.ltb_spec (List.length linkQualities) 6);
      cbn [orb]; try reflexivity. lia. }
  assert (Hok : (6 <= List.length ssids)%nat -> (6 <= List.length linkQualities)%nat ->
                exists statuses',
                  decodeWifiInfo wifiInfo statuses = Return (statuses', None)
                  /\ List.length statuses' = 6%nat
                  /\ forall i old, nth_error statuses i = Some old ->
                       nth_error statuses' i
                       = Some (mkTeamWifiStatus
                                 (fst (strconv.Atoi (submatch ssids i 1)))
                                 (negb (String.eqb (submatch linkQualities i 1) "unknown"))
                                 (MBits old))).
  { intros H1 H2. unfold decodeWifiInfo. fold ssids linkQualities.
    destruct (Nat.ltb_spec (List.length ssids) 6); [lia |].
    destruct (Nat.ltb_spec (List.length linkQualities) 6); [lia |].
    cbn [orb].
    destruct (decodeLoop_ok ssids linkQualities 0 statuses) as [statuses' E];
      try (cbn [Nat.add]; lia).
    - apply ssid_matches_have_group.
    - apply linkQuality_matches_have_group.
    - rewrite E. cbn [bind]. exists statuses'.
      destruct (decodeLoop_Return _ _ _ _ _ E) as [Hl Hn].
      split; [reflexivity |]. split; [congruence |]. exact Hn. }
  split; [| split; assumption].
  destruct (Nat.lt_ge_cases (List.length ssids) 6) as [H1 | H1].
  - exists statuses, (Some (MalformedStatus (List.length ssids))).
    split; [apply Herr; left; exact H1 |]. split; [intros _; left; exact H1 | discriminate].
  - destruct (Nat.lt_ge_cases (List.length linkQualities) 6) as [H2 | H2].
    + exists statuses, (Some (MalformedStatus (List.length ssids))).
      split; [apply Herr; right; exact H2 |].
      split; [intros _; right; exact H2 | discriminate].
    + destruct (Hok H1 H2) as (statuses' & E & _).
      exists statuses', None. split; [exact E |].
      split; [congruence | lia].
Qed.

(** C3, as the code has it.  In every record that [decodeWifiInfo] has
    decoded: the team id is the number the network name denotes when the
    name is a decimal numeral (digits, with a sign before them or not)
    within the range of [int]; it is 0 when the name is no numeral, as long
    as the digits the name starts with do not exceed the largest uint64;
    and the link flag is false exactly when the numerator of the link
    quality is the string "unknown". *)
Theorem decoded_team_id_and_link_flag
    (wifiInfo : string) (statuses statuses' : list TeamWifiStatus) (i : nat)
    (status : TeamWifiStatus) :
  decodeWifiInfo wifiInfo statuses = Return (statuses', None) ->
  nth_error statuses' i = Some status ->
  let name := submatch (regexp.FindAllStringSubmatch ssidRe wifiInfo) i 1 in
  let numerator := submatch (regexp.FindAllStringSubmatch linkQualityRe wifiInfo) i 1 in
  (forall v, numeralValue name = Some v -> minInt <= v <= maxInt -> TeamId status = v)
  /\ (numeralValue name = None -> leadingValue name <= strconv.maxUint64 ->
      TeamId status = 0)
  /\ (RadioLinked status = false <-> numerator = "unknown"%string).
Proof.
  intros Hd Hn name numerator. unfold decodeWifiInfo in Hd.
  destruct ((List.length (regexp.FindAllStringSubmatch ssidRe wifiInfo) <? 6)%nat
            || (List.length (regexp.FindAllStringSubmatch linkQualityRe wifiInfo) <? 6)%nat);
    [discriminate |].
  destruct (decodeLoop _ _ 0 statuses) as [sl |] eqn:E; [| discriminate].
  cbn [bind] in Hd. injection Hd as ->.
  destruct (decodeLoop_Return _ _ _ _ _ E) as [Hl Hnth].
  assert (Hi : (i < List.length statuses)%nat)
    by (rewrite <- Hl; apply nth_error_Some; congruence).
  destruct (nth_error statuses i) as [old |] eqn:Eo;
    [| apply nth_error_None in Eo; lia].
  rewrite (Hnth i old Eo) in Hn. cbn [Nat.add] in Hn. injection Hn as <-.
  fold name numerator. unfold decoded. cbn [TeamId RadioLinked].
  split; [| split].
  - intros v Hv Hr. rewrite (Atoi_numeral name v Hv Hr). reflexivity.
  - intros Hv Hr. rewrite (Atoi_not_numeral name Hv Hr). reflexivity.
  - rewrite negb_false_iff. apply String.eqb_eq.
Qed.

(** ** The bandwidth sampler *)

Lemma wrapInt_add_l (x y : Z) : wrapInt (wrapInt x + y) = wrapInt (x + y).
Proof.
  unfold wrapInt.
  replace ((x - minInt) mod 2 ^ intSize + minInt + y - minInt)
    with ((x - minInt) mod 2 ^ intSize + y) by lia.
  rewrite Zplus_mod_idemp_l.
  replace (x - minInt + y) with (x + y - minInt) by lia. reflexivity.
Qed.

Lemma wrapInt_small (z : Z) : minInt <= z <= maxInt -> wrapInt z = z.
Proof.
  unfold wrapInt, minInt, maxInt, intSize. intros H.
  change (2 ^ (64 - 1)) with 9223372036854775808 in *.
  change (2 ^ 64) with 18446744073709551616.
  rewrite Z.mod_small; lia.
Qed.

(** The sum of the two differences, as the code computes it step by step,
    is the exact sum wrapped once. *)
Lemma delta_wraps_once (rx tx rxOld txOld : Z) :
  intSub (intAdd (intSub rx rxOld) tx) txOld = wrapInt (rx - rxOld + tx - txOld).
Proof.
  unfold intSub, intAdd.
  rewrite wrapInt_add_l.
  replace (wrapInt (rx - rxOld + tx) - txOld) with (wrapInt (rx - rxOld + tx) + - txOld)
    by lia.
  rewrite wrapInt_add_l. reflexivity.
Qed.

Lemma index_nth_error (A : Type) (l : list A) (i : nat) (a : A) :
  nth_error l i = Some a -> index l i = Return a.
Proof. intros H. unfold index. rewrite H. reflexivity. Qed.

Lemma index_short (A : Type) (l : list A) (i : nat) :
  (List.length l <= i)%nat -> index l i = Panic (IndexOutOfRange i (List.length l)).
Proof.
  intros H. unfold index. apply nth_error_None in H. rewrite H. reflexivity.
Qed.

(** With fewer than 7 segments the sampler returns 0. *)
Lemma parseBtu_short (response : string) :
  (List.length (strings.Split response "],") <= 6)%nat ->
  parseBtu response = Return 0%float.
Proof.
  intros H. unfold parseBtu.
  destruct (Nat.ltb_spec 6 (List.length (strings.Split response "],")));
    [lia | reflexivity].
Qed.

(** With 7 or more it reads fields 1 and 3 of the last segment and of the
    sixth segment from the end. *)
Lemma parseBtu_window (response latest baseline rx tx rxOld txOld : string) :
  let lines := strings.Split response "]," in
  (6 < List.length lines)%nat ->
  nth_error (rev lines) 0 = Some latest ->
  nth_error (rev lines) 5 = Some baseline ->
  nth_error (sampleFields latest) 1 = Some rx ->
  nth_error (sampleFields latest) 3 = Some tx ->
  nth_error (sampleFields baseline) 1 = Some rxOld ->
  nth_error (sampleFields baseline) 3 = Some txOld ->
  parseBtu response
  = Return (mBitsOf (counter rx) (counter tx) (counter rxOld) (counter txOld)).
Proof.
  intros lines Hlen Hl Hb Hrx Htx Hrxo Htxo. unfold parseBtu. fold lines.
  destruct (Nat.ltb_spec 6 (List.length lines)) as [_ | H]; [| lia].
  rewrite nth_error_rev in Hl, Hb.
  destruct (Nat.ltb_spec 0 (List.length lines)); [| lia].
  destruct (Nat.ltb_spec 5 (List.length lines)); [| lia].
  rewrite (index_nth_error _ _ _ _ Hb). cbn [bind].
  rewrite (index_nth_error _ _ _ _ Hl). cbn [bind].
  rewrite (index_nth_error _ _ _ _ Hrx). cbn [bind].
  rewrite (index_nth_error _ _ _ _ Htx). cbn [bind].
  rewrite (index_nth_error _ _ _ _ Hrxo). cbn [bind].
  rewrite (index_nth_error _ _ _ _ Htxo). cbn [bind].
  reflexivity.
Qed.

(** Where a segment that is read lacks a field, the sampler panics. *)
Lemma parseBtu_panics_without_fields (response latest baseline : string) :
  let lines := strings.Split response "]," in
  (6 < List.length lines)%nat ->
  nth_error (rev lines) 0 = Some latest ->
  nth_error (rev lines) 5 = Some baseline ->
  (List.length (sampleFields latest) < 4 \/ List.length (sampleFields baseline) < 4)%nat ->
  exists p, parseBtu response = Panic p.
Proof.
  intros lines Hlen Hl Hb Hf. unfold parseBtu. fold lines.
  destruct (Nat.ltb_spec 6 (List.length lines)) as [_ | H]; [| lia].
  rewrite nth_error_rev in Hl, Hb.
  destruct (Nat.ltb_spec 0 (List.length lines)); [| lia].
  destruct (Nat.ltb_spec 5 (List.length lines)); [| lia].
  rewrite (index_nth_error _ _ _ _ Hb). cbn [bind].
  rewrite (index_nth_error _ _ _ _ Hl). cbn [bind].
  destruct (index (sampleFields latest) 1) as [f1 | p] eqn:E1;
    cbn [bind]; [| exists p; reflexivity].
  destruct (index (sampleFields latest) 3) as [f3 | p] eqn:E3;
    cbn [bind]; [| exists p; reflexivity].
  destruct (index (sampleFields baseline) 1) as [g1 | p] eqn:E5;
    cbn [bind]; [| exists p; reflexivity].
  destruct (index (sampleFields baseline) 3) as [g3 | p] eqn:E7;
    cbn [bind]; [| exists p; reflexivity].
  apply (index_Return _ _ _ _ EmptyString) in E3, E7.
  destruct E3 as [E3 _], E7 as [E7 _]. lia.
Qed.

(** C6, as stated, fails: of seven samples whose counters move only between
    the first and the second, the code compares the last with the second (5
    positions back) and returns 0, where the sample 6 positions back gives a
    throughput that is not 0. *)
Lemma parseBtu_baseline_is_not_six_back :
  List.length sevenSamples = 7%nat
  /\ parseBtu (dumpOf sevenSamples) = Return 0%float
  /\ PrimFloat.eqb (specifiedBtu sevenSamples) 0%float = false
  /\ parseBtu (dumpOf sevenSamples) <> Return (specifiedBtu sevenSamples).
Proof.
  split; [reflexivity |]. split; [vm_compute; reflexivity |].
  split; [vm_compute; reflexivity |].
  intros H.
  assert (E : match parseBtu (dumpOf sevenSamples) with
              | Return f => PrimFloat.eqb f 0%float
              | Panic _ => false
              end = true) by (vm_compute; reflexivity).
  rewrite H in E. vm_compute in E. discriminate E.
Qed.

(** C9 fails on the code: a dump of seven segments whose last line was cut
    after two fields makes [parseBtu] index past the end of the fields, and
    the panic goes up through [updateTeamWifiBTU] and the round of [Run]
    that polled. *)
Theorem parseBtu_panics_on_truncated_dump :
  List.length (strings.Split truncatedDump "],") = 7%nat
  /\ parseBtu truncatedDump = Panic (IndexOutOfRange 3 2)
  /\ (exists w, updateTeamWifiBTU nat truncatingSsh (mockWorld (readyAp true))
                = Crashed (IndexOutOfRange 3 2) w)
  /\ (exists w, runOnce nat truncatingSsh 0 (mockWorld (readyAp true))
                = Crashed (IndexOutOfRange 3 2) w).
Proof.
  split; [vm_compute; reflexivity |]. split; [vm_compute; reflexivity |].
  split; eexists; vm_compute; reflexivity.
Qed.

(** C3, as stated, fails: a network name of twenty digits is a numeral, and
    the team id decoded from it is the largest [int], not the number the
    name denotes. *)
Lemma long_numeric_name_is_not_its_team_id :
  exists statuses status,
    decodeWifiInfo longNameInfo zeroStatuses = Return (statuses, None)
    /\ nth_error statuses 0 = Some status
    /\ submatch (regexp.FindAllStringSubmatch ssidRe longNameInfo) 0 1
       = "99999999999999999999"%string
    /\ numeralValue "99999999999999999999" = Some 99999999999999999999
    /\ TeamId status = 9223372036854775807
    /\ TeamId status <> 99999999999999999999.
Proof.
  eexists. eexists.
  split; [vm_compute; reflexivity |].
  split; [reflexivity |].
  split; [vm_compute; reflexivity |].
  split; [vm_compute; reflexivity |].
  split; [reflexivity | discriminate].
Qed.

(** * The sampler on the dumps of the bandwidth monitor *)

(** ** Package strings on text of a known shape *)

Lemma bytesOf_append (a b : string) :
  bytesOf (a ++ b)%string = bytesOf a ++ bytesOf b.
Proof.
  unfold bytesOf. induction a as [| c a IH]; [reflexivity |].
  cbn [append list_ascii_of_string]. rewrite IH. reflexivity.
Qed.

Lemma bytesOf_stringOf (l : bytes) : bytesOf (stringOf l) = l.
Proof. apply list_ascii_of_string_of_list_ascii. Qed.

Lemma stringOf_bytesOf (s : string) : stringOf (bytesOf s) = s.
Proof. apply string_of_list_ascii_of_string. Qed.

Lemma hasPrefix_app (p s : bytes) : strings.hasPrefix p (p ++ s) = true.
Proof.
  induction p as [| c p IH]; [reflexivity |].
  cbn [strings.hasPrefix app]. rewrite Ascii.eqb_refl, IH. reflexivity.
Qed.

(** Passing the rest of a separator. *)
Lemma splitFrom_skip (sep cur p s : bytes) :
  strings.splitFrom sep (List.length p) cur (p ++ s) = strings.splitFrom sep O cur s.
Proof.
  induction p as [| c p IH]; [reflexivity |].
  cbn [List.length app]. destruct s as [| x s']; cbn [strings.splitFrom]; exact IH.
Qed.

(** Up to the next separator: a text [a] without the first byte of the
    separator goes to the current segment, which ends there. *)
Lemma splitFrom_cut (c0 : ascii) (sep' cur a rest : bytes) :
  Forall (fun c => Ascii.eqb c0 c = false) a ->
  strings.splitFrom (c0 :: sep') O cur (a ++ (c0 :: sep') ++ rest)
  = (rev cur ++ a) :: strings.splitFrom (c0 :: sep') O [] rest.
Proof.
  intros Ha. revert cur. induction Ha as [| c a Hc Ha IH]; intros cur.
  - cbn [app]. cbn [strings.splitFrom].
    pose proof (hasPrefix_app (c0 :: sep') rest) as Hp. cbn [app] in Hp. rewrite Hp.
    rewrite app_nil_r. f_equal.
    replace (List.length (c0 :: sep') - 1)%nat with (List.length sep')
      by (cbn [List.length]; lia).
    apply splitFrom_skip.
  - cbn [app strings.splitFrom strings.hasPrefix]. rewrite Hc. cbn [andb].
    rewrite IH. cbn [rev]. rewrite <- app_assoc. reflexivity.
Qed.

(** At the end of the text. *)
Lemma splitFrom_end (c0 : ascii) (sep' cur a : bytes) :
  Forall (fun c => Ascii.eqb c0 c = false) a ->
  strings.splitFrom (c0 :: sep') O cur a = [rev cur ++ a].
Proof.
  intros Ha. revert cur. induction Ha as [| c a Hc Ha IH]; intros cur.
  - cbn [strings.splitFrom]. rewrite app_nil_r. reflexivity.
  - cbn [strings.splitFrom strings.hasPrefix]. rewrite Hc. cbn [andb].
    rewrite IH. cbn [rev]. rewrite <- app_assoc. reflexivity.
Qed.

(** The same, where the text ends with the first byte of a separator of two
    bytes or more. *)
Lemma splitFrom_end_bracket (c0 c1 : ascii) (sep' cur a : bytes) :
  Forall (fun c => Ascii.eqb c0 c = false) a ->
  strings.splitFrom (c0 :: c1 :: sep') O cur (a ++ [c0]) = [rev cur ++ a ++ [c0]].
Proof.
  intros Ha. revert cur. induction Ha as [| c a Hc Ha IH]; intros cur.
  - cbn [app strings.splitFrom strings.hasPrefix]. rewrite Ascii.eqb_refl.
    cbn [andb rev]. reflexivity.
  - cbn [app strings.splitFrom strings.hasPrefix]. rewrite Hc. cbn [andb].
    rewrite IH. cbn [rev]. rewrite <- app_assoc. reflexivity.
Qed.

(** White space is trimmed up to the first byte of plain ASCII. *)
Lemma trimSpaceLeft_plain (c : ascii) (s : bytes) :
  plainByte c = true -> strings.trimSpaceLeft (c :: s) = c :: s.
Proof.
  unfold plainByte. intros H. apply andb_true_iff in H. destruct H as [H1 H2].
  apply Z.ltb_lt in H1. apply negb_true_iff in H2.
  cbn [strings.trimSpaceLeft]. rewrite H2.
  destruct s as [| b1 s]; [reflexivity |].
  assert (E2 : strings.space2 c b1 = false).
  { unfold strings.space2. destruct (Z.eqb_spec (byteVal c) 194); [lia | reflexivity]. }
  rewrite E2. destruct s as [| b2 s]; [reflexivity |].
  assert (E3 : strings.space3 c b1 b2 = false).
  { unfold strings.space3. cbv zeta.
    destruct (Z.eqb_spec (byteVal c) 225); [lia |].
    destruct (Z.eqb_spec (byteVal c) 226); [lia |].
    destruct (Z.eqb_spec (byteVal c) 227); [lia | reflexivity]. }
  rewrite E3. reflexivity.
Qed.

Lemma trimSpaceRightRev_plain (c : ascii) (r : bytes) :
  plainByte c = true -> strings.trimSpaceRightRev (c :: r) = c :: r.
Proof.
  unfold plainByte. intros H. apply andb_true_iff in H. destruct H as [H1 H2].
  apply Z.ltb_lt in H1. apply negb_true_iff in H2.
  cbn [strings.trimSpaceRightRev]. rewrite H2.
  destruct r as [| b1 r]; [reflexivity |].
  assert (E2 : strings.space2 b1 c = false).
  { unfold strings.space2.
    destruct (Z.eqb_spec (byteVal c) 133); [lia |].
    destruct (Z.eqb_spec (byteVal c) 160); [lia |].
    cbn [orb]. apply andb_false_r. }
  rewrite E2. destruct r as [| b2 r]; [reflexivity |].
  assert (E3 : strings.space3 b2 b1 c = false).
  { unfold strings.space3. cbv zeta.
    destruct (Z.eqb_spec (byteVal c) 128); [lia |].
    destruct (Z.leb_spec 128 (byteVal c)); [lia |].
    destruct (Z.eqb_spec (byteVal c) 168); [lia |].
    destruct (Z.eqb_spec (byteVal c) 169); [lia |].
    destruct (Z.eqb_spec (byteVal c) 175); [lia |].
    destruct (Z.eqb_spec (byteVal c) 159); [lia |].
    cbn [andb orb]. rewrite !andb_false_r. reflexivity. }
  rewrite E3. reflexivity.
Qed.

Lemma trimSpaceLeft_spaces (ws s : bytes) :
  Forall (fun c => strings.asciiSpace c = true) ws ->
  strings.trimSpaceLeft (ws ++ s) = strings.trimSpaceLeft s.
Proof.
  intros H. induction H as [| c ws Hc _ IH]; [reflexivity |].
  cbn [app strings.trimSpaceLeft]. rewrite Hc. exact IH.
Qed.

Lemma trimSpaceRightRev_spaces (ws r : bytes) :
  Forall (fun c => strings.asciiSpace c = true) ws ->
  strings.trimSpaceRightRev (ws ++ r) = strings.trimSpaceRightRev r.
Proof.
  intros H. induction H as [| c ws Hc _ IH]; [reflexivity |].
  cbn [app strings.trimSpaceRightRev]. rewrite Hc. exact IH.
Qed.

(** [TrimSpace] keeps the text between the white space at both ends. *)
Lemma TrimSpace_between (ws1 core ws2 : bytes) :
  Forall (fun c => strings.asciiSpace c = true) ws1 ->
  Forall (fun c => strings.asciiSpace c = true) ws2 ->
  plainEnds core = true ->
  strings.TrimSpace (stringOf (ws1 ++ core ++ ws2)) = stringOf core.
Proof.
  intros H1 H2 Hc. unfold strings.TrimSpace. rewrite bytesOf_stringOf.
  unfold plainEnds in Hc. apply andb_true_iff in Hc. destruct Hc as [Hf Hl].
  rewrite trimSpaceLeft_spaces by exact H1.
  destruct core as [| c core]; [discriminate |].
  cbn [app]. rewrite trimSpaceLeft_plain by exact Hf.
  change (c :: core ++ ws2) with ((c :: core) ++ ws2).
  rewrite rev_app_distr.
  rewrite trimSpaceRightRev_spaces by (apply Forall_rev, H2).
  destruct (rev (c :: core)) as [| c' r] eqn:E; [discriminate |].
  rewrite trimSpaceRightRev_plain by exact Hl.
  rewrite <- E, rev_involutive. reflexivity.
Qed.

(** ** What Itoa prints *)

Lemma uint_numeralBytes (d : Decimal.uint) :
  Forall (fun c => numeralByte c = true) (bytesOf (NilEmpty.string_of_uint d)).
Proof.
  induction d; cbn [NilEmpty.string_of_uint bytesOf list_ascii_of_string];
    constructor; (reflexivity || exact IHd).
Qed.

Lemma Itoa_numeralBytes (n : Z) :
  Forall (fun c => numeralByte c = true) (bytesOf (strconv.Itoa n)).
Proof.
  unfold strconv.Itoa. destruct n as [| p | p]; cbn [Z.to_int NilZero.string_of_int].
  - repeat constructor.
  - destruct (string_of_uint_nonnil (Pos.to_uint p)
                (DecimalPos.Unsigned.to_uint_nonnil p)) as [-> _].
    apply uint_numeralBytes.
  - destruct (string_of_uint_nonnil (Pos.to_uint p)
                (DecimalPos.Unsigned.to_uint_nonnil p)) as [-> _].
    cbn [bytesOf list_ascii_of_string]. constructor; [reflexivity |].
    apply uint_numeralBytes.
Qed.

Lemma Itoa_nonempty (n : Z) : bytesOf (strconv.Itoa n) <> [].
Proof.
  unfold strconv.Itoa. destruct n as [| p | p]; cbn [Z.to_int NilZero.string_of_int];
    try discriminate.
  destruct (string_of_uint_nonnil (Pos.to_uint p)
              (DecimalPos.Unsigned.to_uint_nonnil p)) as [-> H].
  exact H.
Qed.

Lemma numeralByte_cases (c : ascii) :
  numeralByte c = true ->
  plainByte c = true /\ Ascii.eqb (byte 44) c = false /\ Ascii.eqb (byte 93) c = false.
Proof.
  unfold numeralByte. intros H. apply orb_true_iff in H. destruct H as [H | H].
  - apply isDigit_range in H.
    assert (Hv : forall k, byteVal (byte k) <> byteVal c -> Ascii.eqb (byte k) c = false).
    { intros k Hk. apply Ascii.eqb_neq. congruence. }
    split; [| split].
    + unfold plainByte, strings.asciiSpace. cbv zeta.
      destruct (Z.ltb_spec (byteVal c) 128); [| lia].
      destruct (Z.leb_spec 9 (byteVal c)); [| lia].
      destruct (Z.leb_spec (byteVal c) 13); [lia |].
      destruct (Z.eqb_spec (byteVal c) 32); [lia | reflexivity].
    + apply Hv. change (byteVal (byte 44)) with 44. lia.
    + apply Hv. change (byteVal (byte 93)) with 93. lia.
  - apply Ascii.eqb_eq in H. subst c. repeat split; reflexivity.
Qed.

Lemma Itoa_plainEnds (n : Z) : plainEnds (bytesOf (strconv.Itoa n)) = true.
Proof.
  pose proof (Itoa_numeralBytes n) as H. pose proof (Itoa_nonempty n) as Hne.
  unfold plainEnds. apply andb_true_iff. split.
  - destruct (bytesOf (strconv.Itoa n)) as [| c l]; [congruence |].
    inversion H as [| ? ? Hc _]; subst. apply numeralByte_cases, Hc.
  - apply Forall_rev in H.
    destruct (rev (bytesOf (strconv.Itoa n))) as [| c l] eqn:E.
    + apply (f_equal (@rev ascii)) in E. rewrite rev_involutive in E. cbn in E. congruence.
    + inversion H as [| ? ? Hc _]; subst. apply numeralByte_cases, Hc.
Qed.

Lemma Itoa_no_comma (n : Z) :
  Forall (fun c => Ascii.eqb (byte 44) c = false) (bytesOf (strconv.Itoa n)).
Proof.
  eapply Forall_impl; [| apply Itoa_numeralBytes].
  intros c Hc. apply numeralByte_cases, Hc.
Qed.

Lemma Itoa_no_bracket (n : Z) :
  Forall (fun c => Ascii.eqb (byte 93) c = false) (bytesOf (strconv.Itoa n)).
Proof.
  eapply Forall_impl; [| apply Itoa_numeralBytes].
  intros c Hc. apply numeralByte_cases, Hc.
Qed.

(** A field holding a number after a space is read back as that number. *)
Lemma counter_Itoa (n : Z) :
  minInt <= n <= maxInt ->
  counter (stringOf (bytesOf " " ++ bytesOf (strconv.Itoa n))) = n.
Proof.
  intros Hr. unfold counter.
  pose proof (TrimSpace_between (bytesOf " ") (bytesOf (strconv.Itoa n)) []) as H.
  rewrite app_nil_r in H. rewrite H.
  - rewrite stringOf_bytesOf, Atoi_Itoa by exact Hr. reflexivity.
  - repeat constructor.
  - constructor.
  - apply Itoa_plainEnds.
Qed.

(** ** One line of a dump *)

Lemma TrimLeft_bracket (c : ascii) (x : bytes) :
  Ascii.eqb c (byte 91) = false ->
  strings.TrimLeft (stringOf (byte 91 :: c :: x)) "[" = stringOf (c :: x).
Proof.
  intros Hc. unfold strings.TrimLeft. rewrite bytesOf_stringOf.
  cbn [strings.dropWhile strings.inCutset bytesOf list_ascii_of_string existsb].
  change (Ascii.eqb (byte 91) "[") with true. cbn [orb].
  change "["%char with (byte 91). rewrite Hc. reflexivity.
Qed.

Lemma TrimRight_keep (c : ascii) (x : bytes) :
  Ascii.eqb c (byte 93) = false ->
  strings.TrimRight (stringOf (x ++ [c])) "]" = stringOf (x ++ [c]).
Proof.
  intros Hc. unfold strings.TrimRight. rewrite bytesOf_stringOf, rev_app_distr.
  cbn [rev app strings.dropWhile strings.inCutset bytesOf list_ascii_of_string existsb].
  change "]"%char with (byte 93). rewrite Hc. cbn [orb rev].
  rewrite rev_involutive. reflexivity.
Qed.

Lemma TrimRight_bracket (c : ascii) (x : bytes) :
  Ascii.eqb c (byte 93) = false ->
  strings.TrimRight (stringOf (x ++ [c; byte 93])) "]" = stringOf (x ++ [c]).
Proof.
  intros Hc. unfold strings.TrimRight. rewrite bytesOf_stringOf, rev_app_distr.
  cbn [rev app strings.dropWhile strings.inCutset bytesOf list_ascii_of_string existsb].
  change (Ascii.eqb (byte 93) "]") with true. cbn [orb].
  change "]"%char with (byte 93). rewrite Hc. cbn [orb rev].
  rewrite rev_involutive. reflexivity.
Qed.

(** Five fields between four commas. *)
Lemma Split_five_fields (a b c d e : bytes) :
  Forall (fun x => Ascii.eqb (byte 44) x = false) a ->
  Forall (fun x => Ascii.eqb (byte 44) x = false) b ->
  Forall (fun x => Ascii.eqb (byte 44) x = false) c ->
  Forall (fun x => Ascii.eqb (byte 44) x = false) d ->
  Forall (fun x => Ascii.eqb (byte 44) x = false) e ->
  strings.Split (stringOf (a ++ [byte 44] ++ b ++ [byte 44] ++ c ++ [byte 44]
                           ++ d ++ [byte 44] ++ e)) ","
  = [stringOf a; stringOf b; stringOf c; stringOf d; stringOf e].
Proof.
  intros Ha Hb Hc Hd He. unfold strings.Split. rewrite bytesOf_stringOf.
  change (bytesOf ",") with [byte 44].
  rewrite (splitFrom_cut (byte 44) [] [] a _ Ha).
  rewrite (splitFrom_cut (byte 44) [] [] b _ Hb).
  rewrite (splitFrom_cut (byte 44) [] [] c _ Hc).
  rewrite (splitFrom_cut (byte 44) [] [] d _ Hd).
  rewrite (splitFrom_end (byte 44) [] [] e He).
  reflexivity.
Qed.

Lemma sampleBody_fieldsText (s : Z * Z * Z) :
  sampleBody s = byte 91 :: fieldsText s (bytesOf " 20 ").
Proof.
  unfold sampleBody, fieldsText. rewrite !bytesOf_append.
  cbn [bytesOf list_ascii_of_string app]. reflexivity.
Qed.

Lemma fieldsText_app (s : Z * Z * Z) (e e' : bytes) :
  fieldsText s (e ++ e') = fieldsText s e ++ e'.
Proof. unfold fieldsText. rewrite <- !app_assoc. reflexivity. Qed.

Lemma fieldsText_snoc (s : Z * Z * Z) (e : bytes) (c : ascii) :
  fieldsText s (e ++ [c]) = fieldsText s e ++ [c].
Proof. apply fieldsText_app. Qed.

Lemma fieldsText_head (s : Z * Z * Z) (e : bytes) :
  exists x, fieldsText s e = byte 32 :: x.
Proof. unfold fieldsText. cbn [bytesOf list_ascii_of_string app]. eauto. Qed.

Lemma space_then_Itoa_no_comma (n : Z) :
  Forall (fun x => Ascii.eqb (byte 44) x = false)
    (bytesOf " " ++ bytesOf (strconv.Itoa n)).
Proof. apply Forall_app. split; [repeat constructor | apply Itoa_no_comma]. Qed.

(** The fields of a line, whatever its last field is. *)
Lemma Split_fieldsText (s : Z * Z * Z) (e : bytes) :
  Forall (fun x => Ascii.eqb (byte 44) x = false) e ->
  strings.Split (stringOf (fieldsText s e)) ","
  = [stringOf (bytesOf " " ++ bytesOf (strconv.Itoa (fst (fst s))));
     stringOf (bytesOf " " ++ bytesOf (strconv.Itoa (snd (fst s))));
     stringOf (bytesOf " 10");
     stringOf (bytesOf " " ++ bytesOf (strconv.Itoa (snd s)));
     stringOf e].
Proof.
  intros He. unfold fieldsText.
  apply Split_five_fields; try apply space_then_Itoa_no_comma; try exact He.
  repeat constructor.
Qed.

(** The fields of a line of a dump: a line may start with the newline that
    follows the separator, and the last line ends with its bracket. *)
Lemma sampleFields_line (pre suf : bytes) (s : Z * Z * Z) :
  pre = [] \/ pre = bytesOf newline ->
  suf = [] \/ suf = [byte 93] ->
  exists f0 f4,
    sampleFields (stringOf (pre ++ sampleBody s ++ suf))
    = [f0;
       stringOf (bytesOf " " ++ bytesOf (strconv.Itoa (snd (fst s))));
       stringOf (bytesOf " 10");
       stringOf (bytesOf " " ++ bytesOf (strconv.Itoa (snd s)));
       f4].
Proof.
  intros Hpre Hsuf. unfold sampleFields. rewrite sampleBody_fieldsText.
  assert (Hws : Forall (fun c => strings.asciiSpace c = true) pre)
    by (destruct Hpre as [-> | ->]; repeat constructor).
  destruct (fieldsText_head s (bytesOf " 20")) as [x Hx].
  destruct Hsuf as [-> | ->].
  - (* a line that is not the last: "[ t, rx, 10, tx, 20 " *)
    rewrite app_nil_r.
    change (bytesOf " 20 ") with (bytesOf " 20" ++ [byte 32]).
    rewrite fieldsText_snoc.
    change (byte 91 :: fieldsText s (bytesOf " 20") ++ [byte 32])
      with ((byte 91 :: fieldsText s (bytesOf " 20")) ++ [byte 32]).
    rewrite (TrimSpace_between pre _ [byte 32] Hws); [| repeat constructor |].
    + rewrite Hx, TrimLeft_bracket by reflexivity. rewrite <- Hx.
      change (bytesOf " 20") with (bytesOf " 2" ++ [byte 48]).
      rewrite fieldsText_snoc, TrimRight_keep by reflexivity.
      rewrite <- fieldsText_snoc, Split_fieldsText by repeat constructor.
      eauto.
    + unfold plainEnds. cbn [rev]. 
      change (bytesOf " 20") with (bytesOf " 2" ++ [byte 48]).
      rewrite fieldsText_snoc, rev_app_distr. reflexivity.
  - (* the last line: "[ t, rx, 10, tx, 20 ]" *)
    change (byte 91 :: fieldsText s (bytesOf " 20 ")) with
      ([byte 91] ++ fieldsText s (bytesOf " 20 ")).
    rewrite <- app_assoc, <- fieldsText_snoc.
    pose proof (TrimSpace_between pre
                  ([byte 91] ++ fieldsText s (bytesOf " 20 " ++ [byte 93])) [] Hws) as HT.
    rewrite app_nil_r in HT. rewrite HT; [| constructor |].
    + destruct (fieldsText_head s (bytesOf " 20 " ++ [byte 93])) as [y Hy].
      cbn [app]. rewrite Hy, TrimLeft_bracket by reflexivity. rewrite <- Hy.
      change (bytesOf " 20 " ++ [byte 93]) with (bytesOf " 20" ++ [byte 32; byte 93]).
      rewrite fieldsText_app, TrimRight_bracket by reflexivity.
      rewrite <- fieldsText_snoc, Split_fieldsText by repeat constructor.
      eauto.
    + unfold plainEnds. cbn [app rev].
      rewrite fieldsText_snoc, rev_app_distr. reflexivity.
Qed.

(** ** The segments of a dump *)

Lemma btuSample_bytes (s : Z * Z * Z) :
  bytesOf (btuSample (fst (fst s)) (snd (fst s)) (snd s)) = sampleBody s ++ [byte 93].
Proof.
  unfold btuSample, sampleBody. rewrite !bytesOf_append.
  cbn [bytesOf list_ascii_of_string app].
  repeat (rewrite <- app_assoc; cbn [app]). reflexivity.
Qed.

Lemma sampleBody_no_bracket (s : Z * Z * Z) :
  Forall (fun c => Ascii.eqb (byte 93) c = false) (sampleBody s).
Proof.
  rewrite sampleBody_fieldsText. unfold fieldsText.
  constructor; [reflexivity |].
  repeat (apply Forall_app; split);
    try apply Itoa_no_bracket; repeat constructor.
Qed.

Lemma dumpOf_cons (s s' : Z * Z * Z) (rest : list (Z * Z * Z)) :
  bytesOf (dumpOf (s :: s' :: rest))
  = sampleBody s ++ [byte 93; byte 44] ++ byte 10 :: bytesOf (dumpOf (s' :: rest)).
Proof.
  unfold dumpOf, btuDump. cbn [map strings.Join].
  rewrite !bytesOf_append, btuSample_bytes.
  cbn [bytesOf list_ascii_of_string app newline]. rewrite <- app_assoc. reflexivity.
Qed.

Lemma splitFrom_dump (samples : list (Z * Z * Z)) (cur : bytes) :
  samples <> [] ->
  strings.splitFrom [byte 93; byte 44] O cur (bytesOf (dumpOf samples))
  = segmentsFrom (rev cur) samples.
Proof.
  revert cur. induction samples as [| s samples IH]; intros cur Hne; [congruence |].
  destruct samples as [| s' rest].
  - unfold dumpOf, btuDump. cbn [map strings.Join segmentsFrom].
    rewrite btuSample_bytes.
    apply splitFrom_end_bracket, sampleBody_no_bracket.
  - rewrite dumpOf_cons.
    rewrite (splitFrom_cut (byte 93) [byte 44] cur (sampleBody s) _
               (sampleBody_no_bracket s)).
    cbn [segmentsFrom]. f_equal.
    cbn [strings.splitFrom strings.hasPrefix].
    change (Ascii.eqb (byte 93) (byte 10)) with false. cbn [andb].
    apply (IH [byte 10]). discriminate.
Qed.

Lemma Split_dumpOf (samples : list (Z * Z * Z)) :
  samples <> [] ->
  strings.Split (dumpOf samples) "]," = map stringOf (segmentsFrom [] samples).
Proof.
  intros Hne. unfold strings.Split. f_equal.
  apply (splitFrom_dump samples [] Hne).
Qed.

Lemma segmentsFrom_length (pre : bytes) (samples : list (Z * Z * Z)) :
  List.length (segmentsFrom pre samples) = List.length samples.
Proof.
  revert pre. induction samples as [| s samples IH]; intros pre; [reflexivity |].
  destruct samples as [| s' rest]; [reflexivity |].
  cbn [segmentsFrom List.length]. f_equal. apply (IH (bytesOf newline)).
Qed.

(** Segment [i] is the line of sample [i], after the newline if it is not
    the first and with its bracket if it is the last. *)
Lemma segmentsFrom_nth (pre : bytes) (samples : list (Z * Z * Z)) (i : nat)
    (s : Z * Z * Z) :
  pre = [] \/ pre = bytesOf newline ->
  nth_error samples i = Some s ->
  exists pre' suf,
    nth_error (segmentsFrom pre samples) i = Some (pre' ++ sampleBody s ++ suf)
    /\ (pre' = [] \/ pre' = bytesOf newline)
    /\ (suf = [] \/ suf = [byte 93]).
Proof.
  revert pre i. induction samples as [| s0 samples IH]; intros pre i Hpre Hs.
  - destruct i; discriminate.
  - destruct samples as [| s' rest].
    + destruct i as [| i]; [| destruct i; discriminate].
      injection Hs as ->. exists pre, [byte 93]. cbn [segmentsFrom nth_error].
      split; [reflexivity | split; [exact Hpre | right; reflexivity]].
    + destruct i as [| i].
      * injection Hs as ->. exists pre, []. cbn [segmentsFrom nth_error].
        rewrite app_nil_r. split; [reflexivity | split; [exact Hpre | left; reflexivity]].
      * cbn [nth_error] in Hs.
        destruct (IH (bytesOf newline) i (or_intror eq_refl) Hs) as (pre' & suf & E & H1 & H2).
        exists pre', suf. cbn [segmentsFrom nth_error].
        split; [exact E | split; assumption].
Qed.

(** The counters that the sampler reads from the line of sample [i]. *)
Lemma dump_line_counters (samples : list (Z * Z * Z)) (i : nat) (s : Z * Z * Z) :
  nth_error samples i = Some s ->
  minInt <= snd (fst s) <= maxInt -> minInt <= snd s <= maxInt ->
  exists line rx tx,
    nth_error (strings.Split (dumpOf samples) "],") i = Some line
    /\ nth_error (sampleFields line) 1 = Some rx
    /\ nth_error (sampleFields line) 3 = Some tx
    /\ counter rx = snd (fst s)
    /\ counter tx = snd s.
Proof.
  intros Hs Hrx Htx.
  assert (Hne : samples <> []) by (destruct samples; [destruct i |]; discriminate).
  destruct (segmentsFrom_nth [] samples i s (or_introl eq_refl) Hs)
    as (pre & suf & E & Hpre & Hsuf).
  destruct (sampleFields_line pre suf s Hpre Hsuf) as (f0 & f4 & Hf).
  exists (stringOf (pre ++ sampleBody s ++ suf)),
         (stringOf (bytesOf " " ++ bytesOf (strconv.Itoa (snd (fst s))))),
         (stringOf (bytesOf " " ++ bytesOf (strconv.Itoa (snd s)))).
  rewrite (Split_dumpOf samples Hne), nth_error_map, E, Hf.
  repeat split; try reflexivity; apply counter_Itoa; assumption.
Qed.

(** ** The sampler on a dump of samples *)

Lemma Split_dumpOf_length (samples : list (Z * Z * Z)) :
  samples <> [] ->
  List.length (strings.Split (dumpOf samples) "],") = List.length samples.
Proof.
  intros Hne. rewrite (Split_dumpOf samples Hne), length_map. apply segmentsFrom_length.
Qed.

(** On the dump that the bandwidth monitor prints for [samples], whose
    counters are within the range of [int], the sampler returns the
    throughput between the latest sample and the sample 5 positions before
    it, and 0 for fewer than 7 samples. *)
Lemma parseBtu_dumpOf (samples : list (Z * Z * Z)) :
  Forall (fun s => (minInt <= snd (fst s) <= maxInt) /\ (minInt <= snd s <= maxInt))
    samples ->
  parseBtu (dumpOf samples) = Return (windowBtu samples).
Proof.
  intros Hr. unfold windowBtu.
  destruct samples as [| s0 rest] eqn:Es; [reflexivity |].
  rewrite <- Es in *.
  assert (Hne : samples <> []) by (rewrite Es; discriminate).
  pose proof (Split_dumpOf_length samples Hne) as Hlen.
  destruct (Nat.ltb_spec (List.length samples) 7) as [Hshort | Hlong].
  - apply parseBtu_short. lia.
  - set (n := List.length samples) in *.
    destruct (nth_error samples (n - 1)) as [sl |] eqn:El;
      [| apply nth_error_None in El; fold n in El; lia].
    destruct (nth_error samples (n - 6)) as [sb |] eqn:Eb;
      [| apply nth_error_None in Eb; fold n in Eb; lia].
    rewrite Forall_forall in Hr.
    destruct (Hr sl (nth_error_In _ _ El)) as [Hl1 Hl2].
    destruct (Hr sb (nth_error_In _ _ Eb)) as [Hb1 Hb2].
    destruct (dump_line_counters samples (n - 1) sl El Hl1 Hl2)
      as (latest & rx & tx & Ll & Frx & Ftx & Crx & Ctx).
    destruct (dump_line_counters samples (n - 6) sb Eb Hb1 Hb2)
      as (baseline & rxOld & txOld & Lb & Frxo & Ftxo & Crxo & Ctxo).
    rewrite (parseBtu_window (dumpOf samples) latest baseline rx tx rxOld txOld).
    + rewrite Crx, Ctx, Crxo, Ctxo.
      rewrite (nth_error_nth _ _ _ El), (nth_error_nth _ _ _ Eb). reflexivity.
    + rewrite Hlen. fold n. lia.
    + rewrite nth_error_rev, Hlen. fold n.
      destruct (Nat.ltb_spec 0 n); [| lia]. exact Ll.
    + rewrite nth_error_rev, Hlen. fold n.
      destruct (Nat.ltb_spec 5 n); [| lia]. exact Lb.
    + exact Frx.
    + exact Ftx.
    + exact Frxo.
    + exact Ftxo.
Qed.

(** C6, as the code has it.  With fewer than 7 segments between "],"
    separators [parseBtu] returns 0.  With 7 or more, where the last segment
    and the sixth segment from the end (5 positions before the last) have
    the fields 1 and 3, it returns
    float64(rx - rxOld + tx - txOld) * 0.000008 / 5.0, rx and tx read from
    the last segment and rxOld and txOld from that earlier one; the sum is
    an [int] and wraps around.  In particular, on the dump of a list of
    samples with counters in the range of [int] it returns 0 for fewer than
    7 samples and otherwise that value for the received and transmitted
    bytes of the latest sample and of the sample 5 positions before it. *)
Theorem parseBtu_five_positions_back
    (response latest baseline rx tx rxOld txOld : string)
    (samples : list (Z * Z * Z)) :
  let lines := strings.Split response "]," in
  ((List.length lines <= 6)%nat -> parseBtu response = Return 0%float)
  /\ ((6 < List.length lines)%nat ->
      nth_error (rev lines) 0 = Some latest ->
      nth_error (rev lines) 5 = Some baseline ->
      nth_error (sampleFields latest) 1 = Some rx ->
      nth_error (sampleFields latest) 3 = Some tx ->
      nth_error (sampleFields baseline) 1 = Some rxOld ->
      nth_error (sampleFields baseline) 3 = Some txOld ->
      parseBtu response
      = Return
          (float64 (wrapInt (counter rx - counter rxOld + counter tx - counter txOld))
           * megabitsPerByte / 5)%float)
  /\ (Forall (fun s => (minInt <= snd (fst s) <= maxInt) /\ (minInt <= snd s <= maxInt))
        samples ->
      parseBtu (dumpOf samples)
      = Return
          (if (List.length samples <? 7)%nat then 0%float
           else
             let latest := nth (List.length samples - 1) samples (0, 0, 0) in
             let baseline := nth (List.length samples - 6) samples (0, 0, 0) in
             (float64 (wrapInt (snd (fst latest) - snd (fst baseline)
                                + snd latest - snd baseline))
              * megabitsPerByte / 5)%float)).
Proof.
  intros lines. split; [| split].
  - apply parseBtu_short.
  - intros Hlen Hl Hb Hrx Htx Hrxo Htxo.
    rewrite (parseBtu_window response latest baseline rx tx rxOld txOld
               Hlen Hl Hb Hrx Htx Hrxo Htxo).
    unfold mBitsOf. rewrite delta_wraps_once. reflexivity.
  - intros Hr. rewrite (parseBtu_dumpOf samples Hr). unfold windowBtu.
    destruct (List.length samples <? 7)%nat; [reflexivity |].
    cbv zeta. unfold mBitsOf. rewrite delta_wraps_once. reflexivity.
Qed.

(** * The theorems at concrete inputs *)

Lemma configIsCorrect_gated_witness :
  configIsCorrectForTeams zeroAccessPoint noTeams = false
  /\ initialStatusesFetched (ap (performAll nat mockSsh someOperations fetchedWorld)) = true
  /\ initialStatusesFetched (ap fetchedWorld) = true
  /\ (let w := performAll nat deadSsh someOperations (mockWorld (readyAp true)) in
      In "iwinfo"%string (issued w)
      /\ map TeamId (toSlice (TeamWifiStatuses (ap w))) = map expectedTeamId (toSlice noTeams)
      /\ initialStatusesFetched (ap w) = false
      /\ configIsCorrectForTeams (ap w) noTeams = false)
  /\ (let w := performAll nat mockSsh
                 [OpSetSettings true "10.0.100.2" "admin" "secret" 36 true;
                  OpConfigureTeamWifi noTeams; OpConfigureAdminSettings;
                  OpUpdateTeamWifiBTU]
                 (mockWorld zeroAccessPoint) in
      initialStatusesFetched (ap w) = false
      /\ configIsCorrectForTeams (ap w) noTeams = false).
Proof.
  split; [| split; [| split; [| split]]].
  - apply (proj1 (configIsCorrect_gated_by_monotonic_flag nat mockSsh
                    zeroAccessPoint noTeams [] fetchedWorld fetchedWorld)).
    reflexivity.
  - apply (proj1 (proj2 (configIsCorrect_gated_by_monotonic_flag nat mockSsh
                           zeroAccessPoint noTeams someOperations fetchedWorld
                           fetchedWorld))).
    vm_compute. reflexivity.
  - apply (proj1 (proj2 (proj2 (configIsCorrect_gated_by_monotonic_flag nat mockSsh
                                  zeroAccessPoint noTeams [] (mockWorld (readyAp true))
                                  fetchedWorld)))).
    + reflexivity.
    + vm_compute. reflexivity.
  - cbv zeta. split; [vm_compute; tauto |]. split; [vm_compute; reflexivity |].
    apply (proj1 (proj2 (proj2 (proj2 (proj2
             (configIsCorrect_gated_by_monotonic_flag nat deadSsh
                zeroAccessPoint noTeams someOperations (mockWorld (readyAp true))
                (mockWorld (readyAp true)))))))).
    + reflexivity.
    + intros w0 w1 pre He _. unfold updateTeamWifiStatuses, runCommand, deadSsh.
      rewrite He. cbn [negb snd]. discriminate.
  - cbv zeta.
    apply (proj2 (proj2 (proj2 (proj2 (proj2
             (configIsCorrect_gated_by_monotonic_flag nat mockSsh
                zeroAccessPoint noTeams
                [OpSetSettings true "10.0.100.2" "admin" "secret" 36 true;
                 OpConfigureTeamWifi noTeams; OpConfigureAdminSettings;
                 OpUpdateTeamWifiBTU]
                (mockWorld zeroAccessPoint) (mockWorld zeroAccessPoint))))))).
    + reflexivity.
    + vm_compute. intuition discriminate.
Defined.

Lemma decodeWifiInfo_error_iff_witness :
  decodeWifiInfo shortInfo zeroStatuses = Return (zeroStatuses, Some (MalformedStatus 5))
  /\ exists statuses',
       decodeWifiInfo mockInfo zeroStatuses = Return (statuses', None)
       /\ List.length statuses' = 6%nat.
Proof.
  split.
  - apply (proj1 (proj2 (decodeWifiInfo_error_iff_fewer_than_six shortInfo zeroStatuses
                           eq_refl))).
    left. vm_compute. lia.
  - destruct (proj2 (proj2 (decodeWifiInfo_error_iff_fewer_than_six mockInfo zeroStatuses
                              eq_refl)))
      as (statuses' & E & L & _).
    + vm_compute. lia.
    + vm_compute. lia.
    + exists statuses'. split; assumption.
Defined.

Lemma decoded_team_id_witness :
  decodeWifiInfo mockInfo zeroStatuses = Return (mockStatuses, None)
  /\ (nth_error mockStatuses 0 = Some (mkTeamWifiStatus 1 true 0%float)
      /\ numeralValue "1" = Some 1
      /\ TeamId (mkTeamWifiStatus 1 true 0%float) = 1)
  /\ (nth_error mockStatuses 1 = Some (mkTeamWifiStatus 0 false 0%float)
      /\ numeralValue "no-team-2" = None
      /\ TeamId (mkTeamWifiStatus 0 false 0%float) = 0).
Proof.
  assert (E : decodeWifiInfo mockInfo zeroStatuses = Return (mockStatuses, None))
    by (vm_compute; reflexivity).
  split; [exact E |]. split.
  - split; [reflexivity |]. split; [reflexivity |].
    pose proof (decoded_team_id_and_link_flag mockInfo zeroStatuses mockStatuses 0
                  (mkTeamWifiStatus 1 true 0%float) E eq_refl) as H.
    cbv zeta in H.
    assert (N : submatch (regexp.FindAllStringSubmatch ssidRe mockInfo) 0 1 = "1"%string)
      by (vm_compute; reflexivity).
    rewrite N in H. destruct H as (H1 & _ & _).
    apply H1; [reflexivity | vm_compute; split; discriminate].
  - split; [reflexivity |]. split; [reflexivity |].
    pose proof (decoded_team_id_and_link_flag mockInfo zeroStatuses mockStatuses 1
                  (mkTeamWifiStatus 0 false 0%float) E eq_refl) as H.
    cbv zeta in H.
    assert (N : submatch (regexp.FindAllStringSubmatch ssidRe mockInfo) 1 1
                = "no-team-2"%string) by (vm_compute; reflexivity).
    rewrite N in H. destruct H as (_ & H2 & _).
    apply H2; [reflexivity | vm_compute; discriminate].
Defined.

Lemma generate_position_witness :
  let nl := String (ascii_of_nat 10) EmptyString in
  generateTeamAccessPointConfig zeroAccessPoint (Some team1) 0
  = (EmptyString, Some (InvalidPosition 0))
  /\ generateTeamAccessPointConfig zeroAccessPoint None 7
     = (EmptyString, Some (InvalidPosition 7))
  /\ generateTeamAccessPointConfig zeroAccessPoint None 3
     = (("set wireless.@wifi-iface[3].disabled='0'" ++ nl
         ++ "set wireless.@wifi-iface[3].ssid='no-team-3'" ++ nl
         ++ "set wireless.@wifi-iface[3].key='no-team-3'")%string,
        None)
  /\ generateTeamAccessPointConfig
       (SetSettings zeroAccessPoint true "10.0.100.2" "admin" "secret" 36 true) None 6
     = (("set wireless.@wifi-iface[6].disabled='0'" ++ nl
         ++ "set wireless.@wifi-iface[6].ssid='no-team-6'" ++ nl
         ++ "set wireless.@wifi-iface[6].key='no-team-6'" ++ nl
         ++ "set wireless.@wifi-iface[6].sae_password='no-team-6'")%string,
        None)
  /\ placeholder 3 <> placeholder 4
  /\ fst (generateTeamAccessPointConfig zeroAccessPoint None 3)
     <> fst (generateTeamAccessPointConfig zeroAccessPoint None 4).
Proof.
  cbv zeta. split; [| split; [| split; [| split]]].
  - apply (proj1 (generate_position_check_and_placeholder zeroAccessPoint (Some team1) 0 0)).
    left. lia.
  - apply (proj1 (generate_position_check_and_placeholder zeroAccessPoint None 7 7)).
    right. lia.
  - exact (proj1 (proj1 (proj2 (generate_position_check_and_placeholder
                                  zeroAccessPoint None 3 3))
                    ltac:(lia))).
  - exact (proj1 (proj1 (proj2 (generate_position_check_and_placeholder
                                  (SetSettings zeroAccessPoint true "10.0.100.2" "admin"
                                     "secret" 36 true) None 6 6))
                    ltac:(lia))).
  - apply (proj2 (proj2 (proj2 (generate_position_check_and_placeholder
                                  zeroAccessPoint None 3 4))));
      lia.
Defined.

Lemma generate_checks_key_length_witness :
  snd (generateTeamAccessPointConfig zeroAccessPoint (Some (mkTeam 254 "1234567")) 1)
  = Some (InvalidCredential "1234567" 254)
  /\ snd (generateTeamAccessPointConfig zeroAccessPoint (Some (mkTeam 254 "12345678")) 6)
     = None.
Proof.
  split.
  - apply (proj1 (generate_checks_key_length zeroAccessPoint (mkTeam 254 "1234567") 1
                    ltac:(lia))).
    left. simpl. lia.
  - apply (proj2 (proj2 (proj2 (generate_checks_key_length zeroAccessPoint
                                  (mkTeam 254 "12345678") 6 ltac:(lia))))).
    left. reflexivity.
Defined.

Lemma parseBtu_five_positions_back_witness :
  parseBtu (dumpOf [(1, 0, 0); (2, 100, 0)]) = Return 0%float
  /\ parseBtu mockDump
     = Return (float64 (wrapInt (1000100 - 100 + 625000 - 0))
               * megabitsPerByte / 5)%float
  /\ parseBtu (dumpOf sevenSamples) = Return 0%float.
Proof.
  split; [| split].
  3: { rewrite (proj2 (proj2 (parseBtu_five_positions_back EmptyString EmptyString
                                EmptyString EmptyString EmptyString EmptyString
                                EmptyString sevenSamples))).
       - vm_compute. reflexivity.
       - unfold sevenSamples, minInt, maxInt, intSize.
         repeat constructor; cbn; lia. }
  - apply (proj1 (parseBtu_five_positions_back (dumpOf [(1, 0, 0); (2, 100, 0)])
                    EmptyString EmptyString EmptyString EmptyString EmptyString
                    EmptyString [])).
    vm_compute. lia.
  - apply (proj1 (proj2 (parseBtu_five_positions_back mockDump
                           (String (byte 10) "[ 7, 1000100, 10, 625000, 20 ]")
                           (String (byte 10) "[ 2, 100, 10, 0, 20 ")
                           " 1000100" " 625000" " 100" " 0" []))).
    + vm_compute. lia.
    + vm_compute. reflexivity.
    + vm_compute. reflexivity.
    + vm_compute. reflexivity.
    + vm_compute. reflexivity.
    + vm_compute. reflexivity.
    + vm_compute. reflexivity.
Defined.

Lemma submit_never_blocks_witness :
  ConfigureTeamWifi (readyAp true) scenarioTeams
  = (queuedAp true [scenarioTeams], None)
  /\ ConfigureTeamWifi (queuedAp true (repeat otherTeams 10)) scenarioTeams
     = (queuedAp true (repeat otherTeams 10), Some QueueFull)
  /\ runOnce nat mockSsh 12 (mockWorld (queuedAp true [otherTeams; noTeams; scenarioTeams]))
     = handleTeamWifiConfiguration nat mockSsh 12 scenarioTeams
         (mockWorld (queuedAp true [])).
Proof.
  split; [| split].
  - apply (proj1 (proj1 (submit_never_blocks_latest_request_wins nat mockSsh
                           (readyAp true) scenarioTeams [] 10 0
                           (mockWorld (readyAp true)) noTeams [] 10 [] (fun _ => []))
                    eq_refl)).
    simpl. lia.
  - apply (proj2 (proj1 (submit_never_blocks_latest_request_wins nat mockSsh
                           (queuedAp true (repeat otherTeams 10)) scenarioTeams
                           (repeat otherTeams 10) 10 0
                           (mockWorld (readyAp true)) noTeams [] 10 [] (fun _ => []))
                    eq_refl)).
    simpl. lia.
  - apply (proj1 (proj2 (submit_never_blocks_latest_request_wins nat mockSsh
                           (readyAp true) scenarioTeams [] 10 12
                           (mockWorld (queuedAp true [otherTeams; noTeams; scenarioTeams]))
                           otherTeams [noTeams; scenarioTeams] 10 [] (fun _ => [])))).
    reflexivity.
Defined.

Lemma security_disabled_witness :
  ConfigureAdminSettings nat mockSsh (mockWorld (readyAp false))
  = (mockWorld (readyAp false), None)
  /\ updateTeamWifiStatuses nat mockSsh (mockWorld (readyAp false))
     = Done None (mockWorld (readyAp false)).
Proof.
  destruct (security_disabled_is_noop nat mockSsh 5 scenarioTeams
              (mockWorld (readyAp false)) eq_refl) as (H1 & _ & H3 & _).
  split; assumption.
Defined.

Lemma ConfigureTeamWifi_before_SetSettings_witness :
  ConfigureTeamWifi
    (ap (performAll nat mockSsh operationsWithoutSettings (mockWorld zeroAccessPoint)))
    scenarioTeams
  = (ap (performAll nat mockSsh operationsWithoutSettings (mockWorld zeroAccessPoint)),
     Some QueueFull).
Proof.
  apply (ConfigureTeamWifi_before_SetSettings nat mockSsh operationsWithoutSettings
           (mockWorld zeroAccessPoint) scenarioTeams eq_refl eq_refl).
Defined.

(** * Examples *)

(** The scenario of the specification: station 1 reports the network of
    team 1, linked, the others their placeholders. *)
Example decode_mockInfo :
  decodeWifiInfo mockInfo zeroStatuses = Return (mockStatuses, None).
Proof. vm_compute. reflexivity. Qed.

(** The configuration is found correct after the first fetch, and nothing
    is written to the device. *)
Example scenario_already_correct :
  exists w,
    handleTeamWifiConfiguration nat mockSsh 0 scenarioTeams (mockWorld (readyAp true))
    = Done tt w
    /\ issued w = ["iwinfo"%string]
    /\ configIsCorrectForTeams (ap w) scenarioTeams = true.
Proof. eexists. split; [vm_compute; reflexivity | split; reflexivity]. Qed.

(** One pass of [configureTeams] is enough: six station commands, the
    commit, the reload and the status fetch. *)
Example scenario_one_pass :
  exists w,
    configureTeams nat mockSsh 7 scenarioTeams (mockWorld (readyAp true)) = Done tt w
    /\ List.length (issued w) = 9%nat
    /\ nth 0 (issued w) EmptyString
       = addConfigurationHeader
           (strings.Join ["set wireless.@wifi-iface[1].disabled='0'"%string;
                          "set wireless.@wifi-iface[1].ssid='1'"%string;
                          "set wireless.@wifi-iface[1].key='12345678'"%string] newline)
    /\ skipn 6 (issued w) = ["uci commit wireless"; "wifi reload"; "iwinfo"]%string.
Proof.
  eexists. split; [vm_compute; reflexivity |].
  split; [reflexivity | split; [vm_compute; reflexivity | reflexivity]].
Qed.

(** Another assignment is not what the device reports: the handler clears
    the stations, pushes the teams and is still at it when the fuel ends. *)
Example other_teams_keep_retrying :
  exists w,
    handleTeamWifiConfiguration nat mockSsh 20 otherTeams (mockWorld (readyAp true))
    = Unfinished w.
Proof. eexists. vm_compute. reflexivity. Qed.

(** Against a device that cannot be reached [configureTeams] never gets
    past the first station. *)
Lemma configureTeams_retries_forever (fuel : nat) (teams : Teams) (retryCount : Z)
    (w : World nat) :
  exists w',
    configureTeamsFrom nat deadSsh fuel teams 0 retryCount w = Unfinished w'
    /\ List.length (issued w') = (List.length (issued w) + fuel)%nat.
Proof.
  revert retryCount w. induction fuel as [| fuel IH]; intros retryCount w.
  - exists w. split; [reflexivity | cbn; lia].
  - cbn [configureTeamsFrom Nat.ltb Nat.leb index toSlice nth_error].
    unfold runCommand, deadSsh. cbn [snd].
    destruct (IH (intAdd retryCount 1)
                (mkWorld (ap w) (S (device w))
                   (issued w ++
                    [addConfigurationHeader
                       (fst (generateTeamAccessPointConfig (ap w) (at0 teams)
                               (Z.of_nat 0 + 1)))]))) as (w' & E & L).
    exists w'. split; [exact E |].
    rewrite L. cbn [issued]. rewrite length_app. cbn [List.length]. lia.
Qed.

(** Ten requests fit the queue; the eleventh is refused. *)
Example queue_holds_ten :
  fold_left (fun a t => fst (ConfigureTeamWifi a t)) (repeat otherTeams 10) (readyAp true)
  = queuedAp true (repeat otherTeams 10)
  /\ ConfigureTeamWifi (queuedAp true (repeat otherTeams 10)) scenarioTeams
     = (queuedAp true (repeat otherTeams 10), Some QueueFull).
Proof. split; reflexivity. Qed.

(** The mock dump: 1000000 bytes received and 625000 sent in the window
    make 2.6 megabits per second (the nearest binary64 value). *)
Example parseBtu_mockDump :
  parseBtu mockDump = Return 0x1.4cccccccccccdp+1%float.
Proof. vm_compute. reflexivity. Qed.

(** The constant of the sampler is 8/1000000 rounded to binary64 (a
    division of two exact values is rounded once). *)
Example megabitsPerByte_is_8e6 :
  megabitsPerByte = (8 / 1000000)%float.
Proof. vm_compute. reflexivity. Qed.

(** What [Atoi] makes of some network names. *)
Example Atoi_names :
  map (fun s => fst (strconv.Atoi s))
    ["254"; "no-team-3"; ""; "007"; "-5"; "12a"; " 1"; "9223372036854775807";
     "9223372036854775808"; "99999999999999999999abc"]%string
  = [254; 0; 0; 7; -5; 0; 0; 9223372036854775807; 9223372036854775807;
     9223372036854775807].
Proof. vm_compute. reflexivity. Qed.

(** * Further properties of the controller *)

(** ** Arrays and slices *)

Lemma ofSlice_toSlice (A : Type) (d a : array6 A) : ofSlice d (toSlice a) = a.
Proof. destruct a. reflexivity. Qed.

Lemma toSlice_length (A : Type) (a : array6 A) : List.length (toSlice a) = 6%nat.
Proof. reflexivity. Qed.

Lemma toSlice_ofSlice (A : Type) (d : array6 A) (l : list A) :
  List.length l = 6%nat -> toSlice (ofSlice d l) = l.
Proof.
  intros H. destruct l as [| x0 [| x1 [| x2 [| x3 [| x4 [| x5 [| x6 l]]]]]]];
    try discriminate H. reflexivity.
Qed.

Lemma setStatuses_same (a : AccessPoint) : setStatuses a (TeamWifiStatuses a) = a.
Proof. destruct a. reflexivity. Qed.

Lemma withAp_same (Device : Type) (w : World Device) : withAp w (ap w) = w.
Proof. destruct w. reflexivity. Qed.

(** ** The decoder on the records of the controller *)

(** On six records the decoder returns: with the error and the records as
    they were, or with six records decoded. *)
Lemma decodeWifiInfo_on_six (wifiInfo : string) (statuses : list TeamWifiStatus) :
  List.length statuses = 6%nat ->
  (exists got, decodeWifiInfo wifiInfo statuses = Return (statuses, Some (MalformedStatus got)))
  \/ (exists statuses',
        decodeWifiInfo wifiInfo statuses = Return (statuses', None)
        /\ List.length statuses' = 6%nat
        /\ forall i old, nth_error statuses i = Some old ->
             nth_error statuses' i
             = Some (decoded (submatch (regexp.FindAllStringSubmatch ssidRe wifiInfo) i 1)
                       (submatch (regexp.FindAllStringSubmatch linkQualityRe wifiInfo) i 1)
                       old)).
Proof.
  intros Hlen. unfold decodeWifiInfo.
  destruct (Nat.ltb_spec (List.length (regexp.FindAllStringSubmatch ssidRe wifiInfo)) 6)
    as [H1 | H1]; [left; eexists; reflexivity |].
  destruct (Nat.ltb_spec (List.length (regexp.FindAllStringSubmatch linkQualityRe wifiInfo)) 6)
    as [H2 | H2]; [left; eexists; reflexivity |].
  right. cbn [orb].
  destruct (decodeLoop_ok (regexp.FindAllStringSubmatch ssidRe wifiInfo)
              (regexp.FindAllStringSubmatch linkQualityRe wifiInfo) 0 statuses)
    as [statuses' E]; try (cbn [Nat.add]; lia).
  - apply ssid_matches_have_group.
  - apply linkQuality_matches_have_group.
  - rewrite E. cbn [bind]. exists statuses'.
    destruct (decodeLoop_Return _ _ _ _ _ E) as [Hl Hn].
    split; [reflexivity |]. split; [congruence | exact Hn].
Qed.

Lemma map_eq_pointwise (A B : Type) (f : A -> B) (l l' : list A) :
  List.length l' = List.length l ->
  (forall i old, nth_error l i = Some old ->
     exists new, nth_error l' i = Some new /\ f new = f old) ->
  map f l' = map f l.
Proof.
  revert l'. induction l as [| x l IH]; intros l' Hlen H.
  - destruct l'; [reflexivity | discriminate].
  - destruct l' as [| y l']; [discriminate |].
    cbn [map]. f_equal.
    + destruct (H O x eq_refl) as (new & E & Hf). injection E as ->. exact Hf.
    + apply IH; [cbn in Hlen; lia |].
      intros i old Hi. apply (H (S i) old Hi).
Qed.

Section ControllerMore.

Variable Device : Type.
Variable ssh : Device -> string -> string -> string -> string
               -> Device * (string * option error).

(** The three ways a status fetch ends when security is enabled. *)
Lemma updateTeamWifiStatuses_enabled (w : World Device) :
  networkSecurityEnabled (ap w) = true ->
  let r := ssh (device w) (address (ap w)) (username (ap w)) (password (ap w)) "iwinfo" in
  let w1 := mkWorld (ap w) (fst r) (issued w ++ ["iwinfo"%string]) in
  match snd (snd r) with
  | Some e => updateTeamWifiStatuses Device ssh w = Done (Some (WifiInfoError e)) w1
  | None =>
      (exists got,
         updateTeamWifiStatuses Device ssh w
         = Done (Some (WifiInfoError (MalformedStatus got))) w1)
      \/ (exists statuses',
            updateTeamWifiStatuses Device ssh w
            = Done None
                (withAp w1 (setInitialStatusesFetched
                              (setStatuses (ap w) (ofSlice (TeamWifiStatuses (ap w)) statuses'))
                              true))
            /\ List.length statuses' = 6%nat
            /\ forall i old, nth_error (toSlice (TeamWifiStatuses (ap w))) i = Some old ->
                 nth_error statuses' i
                 = Some (decoded
                           (submatch (regexp.FindAllStringSubmatch ssidRe (fst (snd r))) i 1)
                           (submatch (regexp.FindAllStringSubmatch linkQualityRe (fst (snd r))) i 1)
                           old))
  end.
Proof.
  intros He. cbv zeta. unfold updateTeamWifiStatuses, runCommand. rewrite He. cbn [negb].
  destruct (ssh (device w) (address (ap w)) (username (ap w)) (password (ap w)) "iwinfo")
    as [d [output err]].
  cbn [fst snd ap]. destruct err as [e |]; [reflexivity |].
  destruct (decodeWifiInfo_on_six output (toSlice (TeamWifiStatuses (ap w)))
              (toSlice_length _ _)) as [[got E] | (statuses' & E & Hl & Hn)];
    rewrite E.
  - left. exists got. rewrite ofSlice_toSlice, setStatuses_same.
    unfold withAp. reflexivity.
  - right. exists statuses'. split; [| split; assumption].
    cbn [initialStatusesFetched setStatuses].
    destruct (initialStatusesFetched (ap w)) eqn:Hf; cbn [negb]; [| reflexivity].
    f_equal. f_equal. unfold setInitialStatusesFetched, setStatuses. cbn.
    rewrite Hf. reflexivity.
Qed.

(** A status fetch that returns an error leaves the controller as it was:
    the statuses last read and the flag stay. *)
Theorem failed_status_fetch_keeps_snapshot (w w' : World Device) (e : error) :
  updateTeamWifiStatuses Device ssh w = Done (Some e) w' ->
  ap w' = ap w
  /\ issued w' = issued w ++ ["iwinfo"%string]
  /\ exists cause, e = WifiInfoError cause.
Proof.
  intros H.
  destruct (networkSecurityEnabled (ap w)) eqn:He.
  - pose proof (updateTeamWifiStatuses_enabled w He) as C. cbv zeta in C.
    destruct (snd (snd (ssh (device w) (address (ap w)) (username (ap w))
                          (password (ap w)) "iwinfo"))) as [e0 |].
    + rewrite C in H. injection H as <- <-. cbn. eauto.
    + destruct C as [[got C] | (statuses' & C & _)]; rewrite C in H.
      * injection H as <- <-. cbn. eauto.
      * discriminate H.
  - unfold updateTeamWifiStatuses in H. rewrite He in H. discriminate H.
Qed.

(** A status fetch that returns nil (with security enabled) has set the
    flag and left in record [i] the team id and the link flag decoded from
    the [i]-th network of what the device answered to iwinfo, with the
    bandwidth the record had. *)
Theorem successful_status_fetch_decodes_answer (w w' : World Device) :
  networkSecurityEnabled (ap w) = true ->
  updateTeamWifiStatuses Device ssh w = Done None w' ->
  let answer :=
    fst (snd (ssh (device w) (address (ap w)) (username (ap w)) (password (ap w))
                "iwinfo")) in
  initialStatusesFetched (ap w') = true
  /\ issued w' = issued w ++ ["iwinfo"%string]
  /\ forall i old,
       nth_error (toSlice (TeamWifiStatuses (ap w))) i = Some old ->
       nth_error (toSlice (TeamWifiStatuses (ap w'))) i
       = Some (mkTeamWifiStatus
                 (fst (strconv.Atoi
                         (submatch (regexp.FindAllStringSubmatch ssidRe answer) i 1)))
                 (negb (String.eqb
                          (submatch (regexp.FindAllStringSubmatch linkQualityRe answer) i 1)
                          "unknown"))
                 (MBits old)).
Proof.
  intros He H answer.
  pose proof (updateTeamWifiStatuses_enabled w He) as C. cbv zeta in C.
  unfold answer.
  destruct (ssh (device w) (address (ap w)) (username (ap w)) (password (ap w)) "iwinfo")
    as [d [output err]].
  cbn [fst snd] in *. destruct err as [e |]; [rewrite C in H; discriminate H |].
  destruct C as [[got C] | (statuses' & C & Hl & Hn)]; rewrite C in H;
    [discriminate H |].
  injection H as <-. cbn [ap withAp issued initialStatusesFetched
    setInitialStatusesFetched TeamWifiStatuses setStatuses].
  split; [reflexivity |]. split; [reflexivity |].
  rewrite toSlice_ofSlice by exact Hl. exact Hn.
Qed.

(** The status fetch keeps the bandwidth of every station, however it
    ends. *)
Theorem status_fetch_keeps_bandwidth (w : World Device) :
  map MBits (toSlice (TeamWifiStatuses (ap (worldOf (updateTeamWifiStatuses Device ssh w)))))
  = map MBits (toSlice (TeamWifiStatuses (ap w))).
Proof.
  destruct (networkSecurityEnabled (ap w)) eqn:He.
  - pose proof (updateTeamWifiStatuses_enabled w He) as C. cbv zeta in C.
    destruct (snd (snd (ssh (device w) (address (ap w)) (username (ap w))
                          (password (ap w)) "iwinfo"))) as [e0 |].
    + rewrite C. reflexivity.
    + destruct C as [[got C] | (statuses' & C & Hl & Hn)]; rewrite C; [reflexivity |].
      cbn [worldOf ap withAp TeamWifiStatuses setInitialStatusesFetched setStatuses].
      rewrite toSlice_ofSlice by exact Hl.
      apply map_eq_pointwise; [rewrite Hl; reflexivity |].
      intros i old Hi. rewrite (Hn i old Hi). eexists. split; reflexivity.
  - unfold updateTeamWifiStatuses. rewrite He. reflexivity.
Qed.

Lemma updateTeamWifiStatuses_no_panic (w w' : World Device) (p : panic) :
  updateTeamWifiStatuses Device ssh w <> Crashed p w'.
Proof.
  destruct (networkSecurityEnabled (ap w)) eqn:He.
  - pose proof (updateTeamWifiStatuses_enabled w He) as C. cbv zeta in C.
    destruct (snd (snd (ssh (device w) (address (ap w)) (username (ap w))
                          (password (ap w)) "iwinfo"))) as [e0 |].
    + rewrite C. discriminate.
    + destruct C as [[got C] | (statuses' & C & _)]; rewrite C; discriminate.
  - unfold updateTeamWifiStatuses. rewrite He. discriminate.
Qed.

Lemma configureTeamsFrom_no_panic (fuel : nat) (teams : Teams) (teamIndex : nat)
    (retryCount : Z) (w w' : World Device) (p : panic) :
  configureTeamsFrom Device ssh fuel teams teamIndex retryCount w <> Crashed p w'.
Proof.
  revert teamIndex retryCount w.
  induction fuel as [| fuel IH]; intros teamIndex retryCount w; cbn [configureTeamsFrom].
  - discriminate.
  - destruct (Nat.ltb_spec teamIndex 6) as [Hlt | Hge].
    + rewrite (index_nth _ (toSlice teams) teamIndex None)
        by (rewrite toSlice_length; exact Hlt).
      destruct (runCommand Device ssh w _) as [w1 [output err]]. cbn [snd].
      destruct err; apply IH.
    + destruct (runCommand Device ssh w "uci commit wireless") as [w1 r1].
      destruct (runCommand Device ssh w1 "wifi reload") as [w2 r2].
      pose proof (updateTeamWifiStatuses_no_panic w2 w' p) as Hn.
      destruct (updateTeamWifiStatuses Device ssh w2) as [err w3 | p3 w3 | w3];
        cbn [andThen].
      * destruct (isNil err && configIsCorrectForTeams (ap w3) teams);
          [discriminate | apply IH].
      * intros H. injection H as -> ->. apply Hn. reflexivity.
      * discriminate.
Qed.

Lemma handleTeamWifiConfiguration_no_panic (fuel : nat) (teams : Teams)
    (w w' : World Device) (p : panic) :
  handleTeamWifiConfiguration Device ssh fuel teams w <> Crashed p w'.
Proof.
  unfold handleTeamWifiConfiguration.
  destruct (networkSecurityEnabled (ap w)); cbn [negb]; [| discriminate].
  pose proof (updateTeamWifiStatuses_no_panic w w' p) as Hn.
  destruct (updateTeamWifiStatuses Device ssh w) as [err w1 | p1 w1 | w1]; cbn [andThen].
  - destruct (isNil err && configIsCorrectForTeams (ap w1) teams); [discriminate |].
    unfold configureTeams.
    destruct (isVividType (ap w1)); cbn [negb andThen].
    + apply configureTeamsFrom_no_panic.
    + pose proof (configureTeamsFrom_no_panic fuel noTeams 0 1 w1 w' p) as Hc.
      destruct (configureTeamsFrom Device ssh fuel noTeams 0 1 w1)
        as [u w2 | p2 w2 | w2]; cbn [andThen].
      * apply configureTeamsFrom_no_panic.
      * intros H. injection H as -> ->. apply Hc. reflexivity.
      * discriminate.
  - intros H. injection H as -> ->. apply Hn. reflexivity.
  - discriminate.
Qed.

(** Neither the status fetch nor the apply cycle can panic, whatever the
    device answers: no index of theirs leaves its array. *)
Theorem status_fetch_and_apply_cycle_never_panic
    (fuel : nat) (teams : Teams) (w w' : World Device) (p : panic) :
  updateTeamWifiStatuses Device ssh w <> Crashed p w'
  /\ configureTeams Device ssh fuel teams w <> Crashed p w'
  /\ handleTeamWifiConfiguration Device ssh fuel teams w <> Crashed p w'.
Proof.
  split; [apply updateTeamWifiStatuses_no_panic |].
  split; [apply configureTeamsFrom_no_panic |].
  apply handleTeamWifiConfiguration_no_panic.
Qed.

(** ** The apply cycle *)

Lemma updateTeamWifiStatuses_issued (w : World Device) :
  networkSecurityEnabled (ap w) = true ->
  issued (worldOf (updateTeamWifiStatuses Device ssh w)) = issued w ++ ["iwinfo"%string].
Proof.
  intros He. pose proof (updateTeamWifiStatuses_enabled w He) as C. cbv zeta in C.
  destruct (snd (snd (ssh (device w) (address (ap w)) (username (ap w))
                        (password (ap w)) "iwinfo"))) as [e0 |].
  - rewrite C. reflexivity.
  - destruct C as [[got C] | (statuses' & C & _)]; rewrite C; reflexivity.
Qed.

Lemma updateTeamWifiStatuses_enabled_after (w : World Device) :
  networkSecurityEnabled (ap (worldOf (updateTeamWifiStatuses Device ssh w)))
  = networkSecurityEnabled (ap w).
Proof. apply (updateTeamWifiStatuses_evolves Device ssh w). Qed.

(** When [configureTeams] returns, the last thing it did was to commit,
    reload and fetch the statuses, and these match the teams. *)
Lemma configureTeamsFrom_Done (fuel : nat) (teams : Teams) (teamIndex : nat)
    (retryCount : Z) (w w' : World Device) :
  networkSecurityEnabled (ap w) = true ->
  configureTeamsFrom Device ssh fuel teams teamIndex retryCount w = Done tt w' ->
  configIsCorrectForTeams (ap w') teams = true
  /\ exists earlier,
       issued w' = issued w ++ earlier
                   ++ ["uci commit wireless"; "wifi reload"; "iwinfo"]%string.
Proof.
  revert teamIndex retryCount w.
  induction fuel as [| fuel IH]; intros teamIndex retryCount w He; cbn [configureTeamsFrom].
  - discriminate.
  - destruct (teamIndex <? 6)%nat.
    + destruct (index (toSlice teams) teamIndex) as [team | p]; [| discriminate].
      match goal with
      | |- context [runCommand Device ssh w ?c] =>
          pose proof (runCommand_ap Device ssh w c) as Hap;
          pose proof (runCommand_issued Device ssh w c) as His;
          set (command := c) in *;
          destruct (runCommand Device ssh w command) as [w1 [output err]]
      end.
      cbn [fst snd] in *.
      assert (He1 : networkSecurityEnabled (ap w1) = true) by (rewrite Hap; exact He).
      intros H.
      assert (H' : exists k rc,
                 configureTeamsFrom Device ssh fuel teams k rc w1 = Done tt w')
        by (destruct err; eauto).
      destruct H' as (k & rc & H').
      destruct (IH k rc w1 He1 H') as [Hc [earlier Hi]].
      split; [exact Hc |]. exists (command :: earlier).
      rewrite Hi, His, <- !app_assoc. reflexivity.
    + pose proof (runCommand_ap Device ssh w "uci commit wireless") as Hap1.
      pose proof (runCommand_issued Device ssh w "uci commit wireless") as His1.
      destruct (runCommand Device ssh w "uci commit wireless") as [w1 r1].
      pose proof (runCommand_ap Device ssh w1 "wifi reload") as Hap2.
      pose proof (runCommand_issued Device ssh w1 "wifi reload") as His2.
      destruct (runCommand Device ssh w1 "wifi reload") as [w2 r2].
      cbn [fst] in *.
      assert (He2 : networkSecurityEnabled (ap w2) = true) by (rewrite Hap2, Hap1; exact He).
      pose proof (updateTeamWifiStatuses_issued w2 He2) as His3.
      pose proof (updateTeamWifiStatuses_enabled_after w2) as He3.
      destruct (updateTeamWifiStatuses Device ssh w2) as [err w3 | p3 w3 | w3];
        cbn [andThen worldOf] in *; try discriminate.
      destruct (isNil err && configIsCorrectForTeams (ap w3) teams) eqn:Hok.
      * intros H. injection H as <-. apply andb_true_iff in Hok.
        split; [apply Hok |]. exists [].
        rewrite His3, His2, His1, <- !app_assoc. reflexivity.
      * intros H. rewrite He2 in He3.
        destruct (IH 0%nat retryCount w3 He3 H) as [Hc [earlier Hi]].
        split; [exact Hc |].
        exists (["uci commit wireless"; "wifi reload"; "iwinfo"]%string ++ earlier).
        rewrite Hi, His3, His2, His1, <- !app_assoc. reflexivity.
Qed.

(** An apply cycle that returns has verified the configuration: with
    security enabled, when the handler of a request or [configureTeams]
    returns, the statuses read last from the device match the requested
    teams station by station, and nothing was sent after that fetch. *)
Theorem apply_cycle_returns_verified
    (fuel : nat) (teams : Teams) (w w' : World Device) :
  networkSecurityEnabled (ap w) = true ->
  (handleTeamWifiConfiguration Device ssh fuel teams w = Done tt w'
   \/ configureTeams Device ssh fuel teams w = Done tt w') ->
  configIsCorrectForTeams (ap w') teams = true
  /\ initialStatusesFetched (ap w') = true
  /\ exists earlier, issued w' = issued w ++ earlier ++ ["iwinfo"%string].
Proof.
  intros He H.
  assert (G : configIsCorrectForTeams (ap w') teams = true
              /\ exists earlier, issued w' = issued w ++ earlier ++ ["iwinfo"%string]).
  { destruct H as [H | H].
    - unfold handleTeamWifiConfiguration in H. rewrite He in H. cbn [negb] in H.
      pose proof (updateTeamWifiStatuses_issued w He) as His.
      pose proof (updateTeamWifiStatuses_enabled_after w) as He1. rewrite He in He1.
      destruct (updateTeamWifiStatuses Device ssh w) as [err w1 | p1 w1 | w1];
        cbn [andThen worldOf] in *; try discriminate.
      destruct (isNil err && configIsCorrectForTeams (ap w1) teams) eqn:Hok.
      + injection H as <-. apply andb_true_iff in Hok.
        split; [apply Hok |]. exists []. rewrite His. reflexivity.
      + unfold configureTeams in H.
        destruct (isVividType (ap w1)); cbn [negb andThen] in H.
        * destruct (configureTeamsFrom_Done _ _ _ _ _ _ He1 H) as [Hc [earlier Hi]].
          split; [exact Hc |].
          exists (["iwinfo"%string] ++ earlier ++ ["uci commit wireless"; "wifi reload"]%string).
          rewrite Hi, His, <- !app_assoc. reflexivity.
        * destruct (configureTeamsFrom Device ssh fuel noTeams 0 1 w1)
            as [u w2 | p2 w2 | w2] eqn:E1; cbn [andThen] in H; try discriminate.
          destruct u.
          destruct (configureTeamsFrom_Done _ _ _ _ _ _ He1 E1) as [_ [earlier1 Hi1]].
          assert (He2 : networkSecurityEnabled (ap w2) = true).
          { pose proof (configureTeamsFrom_evolves Device ssh fuel noTeams 0 1 w1) as Hev.
            rewrite E1 in Hev. cbn [worldOf] in Hev.
            destruct Hev as (_ & _ & _ & _ & _ & Hen & _). rewrite Hen. exact He1. }
          destruct (configureTeamsFrom_Done _ _ _ _ _ _ He2 H) as [Hc [earlier Hi]].
          split; [exact Hc |].
          exists (["iwinfo"%string] ++ earlier1
                  ++ ["uci commit wireless"; "wifi reload"; "iwinfo"]%string
                  ++ earlier ++ ["uci commit wireless"; "wifi reload"]%string).
          rewrite Hi, Hi1, His, <- !app_assoc. reflexivity.
    - destruct (configureTeamsFrom_Done _ _ _ _ _ _ He H) as [Hc [earlier Hi]].
      split; [exact Hc |].
      exists (earlier ++ ["uci commit wireless"; "wifi reload"]%string).
      rewrite Hi, <- !app_assoc. reflexivity. }
  destruct G as [Hc Hi]. split; [exact Hc |]. split; [| exact Hi].
  unfold configIsCorrectForTeams in Hc.
  destruct (initialStatusesFetched (ap w')); [reflexivity | discriminate Hc].
Qed.

(** ** The bandwidth poll *)

Lemma setMBits_keeps (a : array6 TeamWifiStatus) (i : nat) (btu : float) :
  map TeamId (toSlice (setMBits a i btu)) = map TeamId (toSlice a)
  /\ map RadioLinked (toSlice (setMBits a i btu)) = map RadioLinked (toSlice a).
Proof.
  destruct i as [| [| [| [| [| [| i]]]]]]; split; reflexivity.
Qed.

(** The verdict of [configIsCorrectForTeams] depends on the flag and on the
    team ids only. *)
Lemma configIsCorrectForTeams_ids (a a' : AccessPoint) (teams : Teams) :
  initialStatusesFetched a' = initialStatusesFetched a ->
  map TeamId (toSlice (TeamWifiStatuses a')) = map TeamId (toSlice (TeamWifiStatuses a)) ->
  configIsCorrectForTeams a' teams = configIsCorrectForTeams a teams.
Proof.
  intros Hf Hi. unfold configIsCorrectForTeams. rewrite Hf.
  destruct (initialStatusesFetched a); cbn [negb]; [| reflexivity].
  destruct (TeamWifiStatuses a') as [x0 x1 x2 x3 x4 x5],
           (TeamWifiStatuses a) as [y0 y1 y2 y3 y4 y5].
  cbn [toSlice map at0 at1 at2 at3 at4 at5] in Hi.
  injection Hi as H0 H1 H2 H3 H4 H5.
  cbn [toSlice combine forallb at0 at1 at2 at3 at4 at5 fst snd].
  rewrite H0, H1, H2, H3, H4, H5. reflexivity.
Qed.

(** The loop of the bandwidth poll keeps team ids, link flags and the
    fetched flag. *)
Lemma btuLoop_keeps (infWifi : list string) (todo : list nat) (w : World Device) :
  let w' := worldOf (btuLoop Device ssh infWifi todo w) in
  map TeamId (toSlice (TeamWifiStatuses (ap w')))
  = map TeamId (toSlice (TeamWifiStatuses (ap w)))
  /\ map RadioLinked (toSlice (TeamWifiStatuses (ap w')))
     = map RadioLinked (toSlice (TeamWifiStatuses (ap w)))
  /\ initialStatusesFetched (ap w') = initialStatusesFetched (ap w).
Proof.
  revert w. induction todo as [| i todo IH]; intros w; cbn [btuLoop].
  - cbn [worldOf]. auto.
  - destruct (index infWifi i) as [inf | p]; [| cbn [worldOf]; auto].
    pose proof (runCommand_ap Device ssh w ("luci-bwc -i ath" ++ inf)%string) as Hap.
    destruct (runCommand Device ssh w ("luci-bwc -i ath" ++ inf)%string)
      as [w1 [output err]].
    cbn [fst snd] in *.
    destruct err as [e |]; [cbn [worldOf]; rewrite Hap; auto |].
    destruct (parseBtu output) as [btu | p]; [| cbn [worldOf]; rewrite Hap; auto].
    specialize (IH (withAp w1 (setStatuses (ap w1)
                                 (setMBits (TeamWifiStatuses (ap w1)) i btu)))).
    cbv zeta in IH. cbn [ap withAp TeamWifiStatuses setStatuses
      initialStatusesFetched] in IH.
    destruct IH as (H1 & H2 & H3).
    destruct (setMBits_keeps (TeamWifiStatuses (ap w1)) i btu) as [K1 K2].
    cbv zeta. rewrite H1, H2, H3, K1, K2, Hap. auto.
Qed.

(** It sends its queries in order and stops at the first that fails. *)
Lemma btuLoop_issued (infWifi : list string) (todo : list nat) (w : World Device) :
  exists k,
    (k <= List.length todo)%nat
    /\ issued (worldOf (btuLoop Device ssh infWifi todo w))
       = issued w
         ++ firstn k (map (fun i => ("luci-bwc -i ath" ++ nth i infWifi EmptyString)%string)
                        todo).
Proof.
  revert w. induction todo as [| i todo IH]; intros w; cbn [btuLoop].
  - exists 0%nat. cbn [worldOf firstn List.length]. rewrite app_nil_r. split; [lia | reflexivity].
  - destruct (index infWifi i) as [inf | p] eqn:Ei.
    + apply (index_Return _ _ _ _ EmptyString) in Ei. destruct Ei as [Hi <-].
      pose proof (runCommand_issued Device ssh w
                    ("luci-bwc -i ath" ++ nth i infWifi EmptyString)%string) as His.
      destruct (runCommand Device ssh w
                  ("luci-bwc -i ath" ++ nth i infWifi EmptyString)%string)
        as [w1 [output err]].
      cbn [fst snd] in *.
      assert (Stop : exists k,
                 (k <= List.length (i :: todo))%nat
                 /\ issued w1
                    = issued w
                      ++ firstn k
                           (map (fun i => ("luci-bwc -i ath"
                                           ++ nth i infWifi EmptyString)%string)
                              (i :: todo))).
      { exists 1%nat. cbn [firstn map List.length]. split; [lia | exact His]. }
      destruct err as [e |]; [exact Stop |].
      destruct (parseBtu output) as [btu | p]; [| exact Stop].
      destruct (IH (withAp w1 (setStatuses (ap w1)
                                 (setMBits (TeamWifiStatuses (ap w1)) i btu))))
        as (k & Hk & Hi').
      exists (S k). cbn [firstn map List.length]. split; [lia |].
      rewrite Hi'. cbn [issued withAp]. rewrite His, <- app_assoc. reflexivity.
    + exists 0%nat. cbn [worldOf firstn List.length].
      rewrite app_nil_r. split; [lia | reflexivity].
Qed.

(** When it returns nil it has sent them all. *)
Lemma btuLoop_all (infWifi : list string) (todo : list nat) (w w' : World Device) :
  btuLoop Device ssh infWifi todo w = Done None w' ->
  issued w'
  = issued w
    ++ map (fun i => ("luci-bwc -i ath" ++ nth i infWifi EmptyString)%string) todo.
Proof.
  revert w. induction todo as [| i todo IH]; intros w; cbn [btuLoop].
  - intros H. injection H as <-. cbn [map]. rewrite app_nil_r. reflexivity.
  - destruct (index infWifi i) as [inf | p] eqn:Ei; [| discriminate].
    apply (index_Return _ _ _ _ EmptyString) in Ei. destruct Ei as [Hi <-].
    pose proof (runCommand_issued Device ssh w
                  ("luci-bwc -i ath" ++ nth i infWifi EmptyString)%string) as His.
    destruct (runCommand Device ssh w
                ("luci-bwc -i ath" ++ nth i infWifi EmptyString)%string)
      as [w1 [output err]].
    cbn [fst snd] in *.
    destruct err as [e |]; [discriminate |].
    destruct (parseBtu output) as [btu | p]; [| discriminate].
    intros H. rewrite (IH _ H). cbn [issued withAp map].
    rewrite His, <- app_assoc. reflexivity.
Qed.

(** The bandwidth poll changes nothing but bandwidths: team ids, link
    flags and the fetched flag stay, and so does every verdict of
    [configIsCorrectForTeams]. *)
Theorem bandwidth_poll_keeps_verdict (w : World Device) (teams : Teams) :
  let a' := ap (worldOf (updateTeamWifiBTU Device ssh w)) in
  map TeamId (toSlice (TeamWifiStatuses a')) = map TeamId (toSlice (TeamWifiStatuses (ap w)))
  /\ map RadioLinked (toSlice (TeamWifiStatuses a'))
     = map RadioLinked (toSlice (TeamWifiStatuses (ap w)))
  /\ initialStatusesFetched a' = initialStatusesFetched (ap w)
  /\ configIsCorrectForTeams a' teams = configIsCorrectForTeams (ap w) teams.
Proof.
  cbv zeta.
  assert (G : map TeamId (toSlice (TeamWifiStatuses
                                     (ap (worldOf (updateTeamWifiBTU Device ssh w)))))
              = map TeamId (toSlice (TeamWifiStatuses (ap w)))
              /\ map RadioLinked (toSlice (TeamWifiStatuses
                                             (ap (worldOf (updateTeamWifiBTU Device ssh w)))))
                 = map RadioLinked (toSlice (TeamWifiStatuses (ap w)))
              /\ initialStatusesFetched (ap (worldOf (updateTeamWifiBTU Device ssh w)))
                 = initialStatusesFetched (ap w)).
  { unfold updateTeamWifiBTU.
    destruct (networkSecurityEnabled (ap w)); cbn [negb]; [| cbn [worldOf]; auto].
    apply btuLoop_keeps. }
  destruct G as (H1 & H2 & H3).
  split; [exact H1 |]. split; [exact H2 |]. split; [exact H3 |].
  apply configIsCorrectForTeams_ids; assumption.
Qed.

(** With security enabled the bandwidth poll sends the queries for the six
    interfaces of the access point type, in station order, and stops at the
    first one that fails; when it returns nil it has sent all six. *)
Theorem bandwidth_poll_queries_in_order (w : World Device) :
  networkSecurityEnabled (ap w) = true ->
  (exists k,
     (k <= 6)%nat
     /\ issued (worldOf (updateTeamWifiBTU Device ssh w))
        = issued w ++ firstn k (btuCommands (isVividType (ap w))))
  /\ (forall w', updateTeamWifiBTU Device ssh w = Done None w' ->
      issued w' = issued w ++ btuCommands (isVividType (ap w))).
Proof.
  intros He. unfold updateTeamWifiBTU. rewrite He. cbn [negb].
  assert (E : map (fun i =>
                     ("luci-bwc -i ath"
                      ++ nth i (if isVividType (ap w)
                                then ["1"; "11"; "12"; "13"; "14"; "15"]%string
                                else ["0"; "0-1"; "0-2"; "0-3"; "0-4"; "0-5"]%string)
                           EmptyString)%string) (seq 0 6)
              = btuCommands (isVividType (ap w)))
    by (destruct (isVividType (ap w)); reflexivity).
  split.
  - destruct (btuLoop_issued
                (if isVividType (ap w) then ["1"; "11"; "12"; "13"; "14"; "15"]%string
                 else ["0"; "0-1"; "0-2"; "0-3"; "0-4"; "0-5"]%string) (seq 0 6) w)
      as (k & Hk & Hi).
    exists k. split; [exact Hk |]. rewrite Hi, E. reflexivity.
  - intros w' H. rewrite (btuLoop_all _ _ _ _ H), E. reflexivity.
Qed.

(** ** What [configureTeams] sends *)

Lemma configureTeamsFrom_station (fuel : nat) (teams : Teams) (k : nat)
    (retryCount : Z) (w : World Device) :
  (k < 6)%nat ->
  configureTeamsFrom Device ssh (S fuel) teams k retryCount w
  = let r := runCommand Device ssh w (stationCommand (ap w) teams k) in
    match snd (snd r) with
    | Some _ => configureTeamsFrom Device ssh fuel teams k (intAdd retryCount 1) (fst r)
    | None => configureTeamsFrom Device ssh fuel teams (S k) retryCount (fst r)
    end.
Proof.
  intros Hk. cbn [configureTeamsFrom].
  destruct (Nat.ltb_spec k 6) as [_ | H]; [| lia].
  rewrite (index_nth _ (toSlice teams) k None) by (rewrite toSlice_length; exact Hk).
  unfold stationCommand. cbv zeta.
  destruct (runCommand Device ssh w _) as [w1 [output err]]. reflexivity.
Qed.

Lemma stations_pushed (teams : Teams) (n k : nat) (retryCount : Z) (w : World Device) :
  (forall d a u p c, snd (snd (ssh d a u p c)) = None) ->
  (k + n = 6)%nat ->
  exists w1,
    ap w1 = ap w
    /\ issued w1 = issued w ++ map (stationCommand (ap w) teams) (seq k n)
    /\ forall fuel,
         configureTeamsFrom Device ssh (n + fuel) teams k retryCount w
         = configureTeamsFrom Device ssh fuel teams 6 retryCount w1.
Proof.
  intros Hok. revert k w. induction n as [| n IH]; intros k w Hk.
  - exists w. cbn [seq map Nat.add]. rewrite app_nil_r, Nat.add_0_r in *. subst k. auto.
  - pose proof (runCommand_ap Device ssh w (stationCommand (ap w) teams k)) as Hap.
    pose proof (runCommand_issued Device ssh w (stationCommand (ap w) teams k)) as His.
    assert (Herr : snd (snd (runCommand Device ssh w (stationCommand (ap w) teams k))) = None).
    { unfold runCommand.
      pose proof (Hok (device w) (address (ap w)) (username (ap w)) (password (ap w))
                    (stationCommand (ap w) teams k)) as H.
      destruct (ssh (device w) (address (ap w)) (username (ap w)) (password (ap w))
                  (stationCommand (ap w) teams k)) as [d r]. exact H. }
    destruct (IH (S k) (fst (runCommand Device ssh w (stationCommand (ap w) teams k)))
                ltac:(lia)) as (w1 & Hap1 & His1 & Hrun).
    exists w1. split; [congruence |]. split.
    + rewrite His1, His, Hap, <- app_assoc. reflexivity.
    + intros fuel. cbn [Nat.add].
      rewrite configureTeamsFrom_station by lia. cbv zeta. rewrite Herr. apply Hrun.
Qed.

(** When no command fails, one pass of [configureTeams] sends the commands
    of the stations 1 to 6 in that order, then the commit and the reload,
    and then fetches the statuses: it returns if they match the teams and
    starts over with station 1 if not. *)
Theorem configureTeams_one_pass (teams : Teams) (w : World Device) :
  (forall d a u p c, snd (snd (ssh d a u p c)) = None) ->
  exists w8,
    ap w8 = ap w
    /\ issued w8
       = issued w ++ map (stationCommand (ap w) teams) (seq 0 6)
         ++ ["uci commit wireless"; "wifi reload"]%string
    /\ forall fuel,
         configureTeams Device ssh (7 + fuel) teams w
         = andThen Device (updateTeamWifiStatuses Device ssh w8)
             (fun err w9 =>
                if isNil err && configIsCorrectForTeams (ap w9) teams
                then Done tt w9
                else configureTeamsFrom Device ssh fuel teams 0 1 w9).
Proof.
  intros Hok.
  destruct (stations_pushed teams 6 0 1 w Hok eq_refl) as (w6 & Hap & His & Hrun).
  pose proof (runCommand_ap Device ssh w6 "uci commit wireless") as Hap1.
  pose proof (runCommand_issued Device ssh w6 "uci commit wireless") as His1.
  pose proof (runCommand_ap Device ssh (fst (runCommand Device ssh w6 "uci commit wireless"))
                "wifi reload") as Hap2.
  pose proof (runCommand_issued Device ssh
                (fst (runCommand Device ssh w6 "uci commit wireless")) "wifi reload") as His2.
  exists (fst (runCommand Device ssh
                 (fst (runCommand Device ssh w6 "uci commit wireless")) "wifi reload")).
  split; [congruence |]. split.
  - rewrite His2, His1, His, <- !app_assoc. reflexivity.
  - intros fuel. unfold configureTeams.
    change (7 + fuel)%nat with (6 + S fuel)%nat. rewrite Hrun.
    cbn [configureTeamsFrom Nat.ltb Nat.leb].
    destruct (runCommand Device ssh w6 "uci commit wireless") as [w7 r7].
    cbn [fst]. destruct (runCommand Device ssh w7 "wifi reload") as [w8 r8].
    reflexivity.
Qed.

(** When every command fails, [configureTeams] sends the command of
    station 1 again and again: it neither moves on to station 2 nor gives
    up, and the controller stays as it was. *)
Theorem configureTeams_retries_station_one (fuel : nat) (teams : Teams)
    (w : World Device) :
  (forall d a u p c, snd (snd (ssh d a u p c)) <> None) ->
  exists w',
    configureTeams Device ssh fuel teams w = Unfinished w'
    /\ ap w' = ap w
    /\ issued w' = issued w ++ repeat (stationCommand (ap w) teams 0) fuel.
Proof.
  intros Hfail. unfold configureTeams. generalize 1 as retryCount.
  revert w. induction fuel as [| fuel IH]; intros w retryCount.
  - exists w. cbn [configureTeamsFrom repeat]. rewrite app_nil_r. auto.
  - rewrite configureTeamsFrom_station by lia. cbv zeta.
    pose proof (runCommand_ap Device ssh w (stationCommand (ap w) teams 0)) as Hap.
    pose proof (runCommand_issued Device ssh w (stationCommand (ap w) teams 0)) as His.
    assert (Herr : snd (snd (runCommand Device ssh w (stationCommand (ap w) teams 0)))
                   <> None).
    { unfold runCommand.
      pose proof (Hfail (device w) (address (ap w)) (username (ap w)) (password (ap w))
                    (stationCommand (ap w) teams 0)) as H.
      destruct (ssh (device w) (address (ap w)) (username (ap w)) (password (ap w))
                  (stationCommand (ap w) teams 0)) as [d r]. exact H. }
    destruct (snd (snd (runCommand Device ssh w (stationCommand (ap w) teams 0))))
      as [e |]; [| congruence].
    destruct (IH (fst (runCommand Device ssh w (stationCommand (ap w) teams 0)))
                (intAdd retryCount 1)) as (w' & E & Hap' & His').
    exists w'. split; [exact E |]. split; [congruence |].
    rewrite His', His, Hap, <- app_assoc. reflexivity.
Qed.

(** ** The administrative settings *)

Lemma adminCommand_inj (c c' : Z) : adminCommand c = adminCommand c' -> c = c'.
Proof.
  unfold adminCommand. cbn [strings.Join]. intros H.
  apply (f_equal bytesOf) in H. rewrite !bytesOf_append, <- !app_assoc in H.
  do 3 apply app_inv_head in H.
  change (bytesOf "'") with [byte 39] in H. cbn [app] in H.
  apply Itoa_inj.
  assert (Hq : forall n, Forall (fun x => Ascii.eqb (byte 39) x = false)
                           (bytesOf (strconv.Itoa n))).
  { intros n. eapply Forall_impl; [| apply Itoa_numeralBytes].
    intros x Hx. unfold numeralByte in Hx. apply orb_true_iff in Hx.
    destruct Hx as [Hx | Hx].
    - apply isDigit_range in Hx. apply Ascii.eqb_neq. intros <-.
      change (byteVal (byte 39)) with 39 in Hx. lia.
    - apply Ascii.eqb_eq in Hx. subst x. reflexivity. }
  assert (Hs : forall l1 l2 t1 t2 : bytes,
             Forall (fun x => Ascii.eqb (byte 39) x = false) l1 ->
             Forall (fun x => Ascii.eqb (byte 39) x = false) l2 ->
             l1 ++ byte 39 :: t1 = l2 ++ byte 39 :: t2 -> l1 = l2).
  { intros l1. induction l1 as [| x l1 IHl]; intros l2 t1 t2 F1 F2 E.
    - destruct l2 as [| y l2]; [reflexivity |].
      cbn [app] in E. injection E as E _. subst y.
      inversion F2 as [| ? ? Hy _]. discriminate Hy.
    - destruct l2 as [| y l2].
      + cbn [app] in E. injection E as E _. subst x.
        inversion F1 as [| ? ? Hx _]. discriminate Hx.
      + cbn [app] in E. injection E as -> E. f_equal.
        inversion F1; inversion F2; subst. eapply IHl; eassumption. }
  assert (Hb : bytesOf (strconv.Itoa c) = bytesOf (strconv.Itoa c')).
  { eapply (Hs _ _ _ _ (Hq c) (Hq c')). exact H. }
  rewrite <- (stringOf_bytesOf (strconv.Itoa c)), Hb. apply stringOf_bytesOf.
Qed.

(** With security enabled [ConfigureAdminSettings] sends one command, the
    batch that sets the channel of radio0 to [teamChannel]; it returns the
    error of that command as it is and leaves the controller untouched.
    Two channels never give the same command. *)
Theorem ConfigureAdminSettings_sends_channel (w : World Device) (channel' : Z) :
  networkSecurityEnabled (ap w) = true ->
  let r := ssh (device w) (address (ap w)) (username (ap w)) (password (ap w))
             (adminCommand (teamChannel (ap w))) in
  ConfigureAdminSettings Device ssh w
  = (mkWorld (ap w) (fst r) (issued w ++ [adminCommand (teamChannel (ap w))]),
     snd (snd r))
  /\ (adminCommand (teamChannel (ap w)) = adminCommand channel' ->
      teamChannel (ap w) = channel').
Proof.
  intros He. cbv zeta. split; [| apply adminCommand_inj].
  unfold ConfigureAdminSettings, runCommand. rewrite He. cbn [negb].
  fold (adminCommand (teamChannel (ap w))).
  destruct (ssh (device w) (address (ap w)) (username (ap w)) (password (ap w))
              (adminCommand (teamChannel (ap w)))) as [d [output err]].
  reflexivity.
Qed.

(** ** The request queue through all operations *)

Lemma queueBounded_evolves (a a' : AccessPoint) :
  evolves a a' -> queueBounded a -> queueBounded a'.
Proof.
  unfold queueBounded. intros (_ & _ & _ & _ & _ & _ & Hch & _). rewrite Hch. auto.
Qed.

Lemma runOnce_queue (fuel : nat) (w : World Device) :
  queueBounded (ap w) ->
  queueBounded (ap (worldOf (runOnce Device ssh fuel w)))
  /\ (configRequestChan (ap w) <> None ->
      configRequestChan (ap (worldOf (runOnce Device ssh fuel w))) <> None).
Proof.
  intros Hq.
  destruct (configRequestChan (ap w)) as [[[| r q] c] |] eqn:Hch.
  - assert (Hev : evolves (ap w) (ap (worldOf (runOnce Device ssh fuel w)))).
    { rewrite (runOnce_poll Device ssh) by (rewrite Hch; reflexivity).
      pose proof (updateTeamWifiStatuses_evolves Device ssh w) as H1.
      destruct (updateTeamWifiStatuses Device ssh w) as [e w1 | p w1 | w1];
        cbn [andThen worldOf] in *; try exact H1.
      pose proof (updateTeamWifiBTU_evolves Device ssh w1) as H2.
      destruct (updateTeamWifiBTU Device ssh w1) as [e2 w2 | p w2 | w2];
        cbn [andThen worldOf] in *; eapply evolves_trans; eassumption. }
    split; [eapply queueBounded_evolves; eassumption |].
    destruct Hev as (_ & _ & _ & _ & _ & _ & Hc & _). rewrite Hc, Hch. auto.
  - rewrite (runOnce_request Device ssh fuel w r q c Hch).
    pose proof (handleTeamWifiConfiguration_evolves Device ssh fuel (last q r)
                  (withAp w (setConfigRequestChan (ap w) (Some (channel.mkChan [] c)))))
      as Hev.
    unfold queueBounded in Hq. rewrite Hch in Hq. cbn in Hq.
    split.
    + eapply queueBounded_evolves; [exact Hev |].
      unfold queueBounded. cbn. split; [apply Hq | lia].
    + destruct Hev as (_ & _ & _ & _ & _ & _ & Hc & _). rewrite Hc. cbn. discriminate.
  - assert (Hev : evolves (ap w) (ap (worldOf (runOnce Device ssh fuel w)))).
    { rewrite (runOnce_poll Device ssh) by (rewrite Hch; reflexivity).
      pose proof (updateTeamWifiStatuses_evolves Device ssh w) as H1.
      destruct (updateTeamWifiStatuses Device ssh w) as [e w1 | p w1 | w1];
        cbn [andThen worldOf] in *; try exact H1.
      pose proof (updateTeamWifiBTU_evolves Device ssh w1) as H2.
      destruct (updateTeamWifiBTU Device ssh w1) as [e2 w2 | p w2 | w2];
        cbn [andThen worldOf] in *; eapply evolves_trans; eassumption. }
    split; [eapply queueBounded_evolves; eassumption |]. congruence.
Qed.

Lemma perform_queue (o : operation) (w : World Device) :
  queueBounded (ap w) ->
  queueBounded (ap (perform Device ssh o w))
  /\ (configRequestChan (ap w) <> None ->
      configRequestChan (ap (perform Device ssh o w)) <> None).
Proof.
  intros Hq.
  assert (Ev : forall a', evolves (ap w) a' ->
                 queueBounded a'
                 /\ (configRequestChan (ap w) <> None -> configRequestChan a' <> None)).
  { intros a' Hev. split; [eapply queueBounded_evolves; eassumption |].
    destruct Hev as (_ & _ & _ & _ & _ & _ & Hc & _). rewrite Hc. auto. }
  destruct o; cbn [perform].
  - unfold queueBounded in *. cbn [ap withAp SetSettings configRequestChan].
    destruct (configRequestChan (ap w)) as [b |].
    + split; [exact Hq | discriminate].
    + split; [cbn; split; [reflexivity | lia] | congruence].
  - rewrite (ConfigureAdminSettings_ap Device ssh). auto.
  - unfold ConfigureTeamWifi, channel.trySend, queueBounded in *.
    destruct (configRequestChan (ap w)) as [[q c] |] eqn:Hch; cbn [channel.buf channel.cap] in *.
    + destruct (Nat.ltb_spec (List.length q) c) as [Hlt | Hge];
        cbn [fst ap withAp setConfigRequestChan configRequestChan].
      * split; [| discriminate]. cbn. rewrite length_app. cbn.
        split; [apply Hq | lia].
      * rewrite Hch. split; [exact Hq | discriminate].
    + cbn [fst ap withAp]. rewrite Hch. auto.
  - apply Ev, handleTeamWifiConfiguration_evolves.
  - apply Ev, configureTeamsFrom_evolves.
  - apply Ev, updateTeamWifiStatuses_evolves.
  - apply Ev, updateTeamWifiBTU_evolves.
  - apply runOnce_queue, Hq.
Qed.

(** Whatever methods are called, in whatever order, the request queue never
    holds more than the 10 requests of its capacity, and once [SetSettings]
    has created it, it is never nil again. *)
Theorem queue_stays_bounded (ops : list operation) (w : World Device) :
  queueBounded (ap w) ->
  queueBounded (ap (performAll Device ssh ops w))
  /\ (configRequestChan (ap w) <> None ->
      configRequestChan (ap (performAll Device ssh ops w)) <> None).
Proof.
  revert w. induction ops as [| o ops IH]; intros w Hq; [auto |].
  cbn [performAll fold_left].
  destruct (perform_queue o w Hq) as [Hq1 Hn1].
  destruct (IH (perform Device ssh o w) Hq1) as [Hq2 Hn2].
  split; [exact Hq2 | auto].
Qed.

End ControllerMore.

(** ** Where a round of [Run] can crash *)

Section ControllerCrash.

Variable Device : Type.
Variable ssh : Device -> string -> string -> string -> string
               -> Device * (string * option error).

(** A crash of the loop of the bandwidth poll is the panic of [parseBtu]
    on an answer that came without an error. *)
Lemma btuLoop_crash (infWifi : list string) (todo : list nat) (w w' : World Device)
    (p : panic) :
  (forall i, In i todo -> (i < List.length infWifi)%nat) ->
  btuLoop Device ssh infWifi todo w = Crashed p w' ->
  exists w0 query output,
    In query (map (fun inf => ("luci-bwc -i ath" ++ inf)%string) infWifi)
    /\ runCommand Device ssh w0 query = (w', (output, None))
    /\ parseBtu output = Panic p.
Proof.
  revert w. induction todo as [| i todo IH]; intros w Hin; cbn [btuLoop].
  - discriminate.
  - rewrite (index_nth _ infWifi i EmptyString) by (apply Hin; left; reflexivity).
    destruct (runCommand Device ssh w ("luci-bwc -i ath" ++ nth i infWifi EmptyString)%string)
      as [w1 [output err]] eqn:Er.
    cbn [fst snd].
    destruct err as [e |]; [discriminate |].
    destruct (parseBtu output) as [btu | p0] eqn:Ep.
    + apply IH. intros j Hj. apply Hin. right. exact Hj.
    + intros H. injection H as -> ->.
      exists w, ("luci-bwc -i ath" ++ nth i infWifi EmptyString)%string, output.
      split; [| split; assumption].
      apply (in_map (fun inf => ("luci-bwc -i ath" ++ inf)%string)).
      apply nth_In, Hin. left. reflexivity.
Qed.

(** A round of [Run] can crash in one place only.  When it does, no request
    was pending and network security is on: the round was a poll, and the
    crash is the panic of [parseBtu] on the answer that the device gave,
    without an error, to one of the six bandwidth queries.  A round that
    handles a request never crashes. *)
Theorem run_round_crashes_only_on_bandwidth_answer
    (fuel : nat) (w w' : World Device) (p : panic) :
  runOnce Device ssh fuel w = Crashed p w' ->
  channel.len (configRequestChan (ap w)) = 0%nat
  /\ networkSecurityEnabled (ap w) = true
  /\ exists w0 query output,
       In query (btuCommands (isVividType (ap w)))
       /\ runCommand Device ssh w0 query = (w', (output, None))
       /\ parseBtu output = Panic p.
Proof.
  unfold runOnce.
  destruct (channel.tryRecv (configRequestChan (ap w))) as [[request ch] |] eqn:Er.
  - destruct (drain (channel.len ch) request ch) as [[request' ch'] |];
      [| discriminate].
    intros H. exfalso.
    exact (handleTeamWifiConfiguration_no_panic Device ssh _ _ _ _ _ H).
  - intros H.
    assert (Hlen : channel.len (configRequestChan (ap w)) = 0%nat).
    { unfold channel.tryRecv in Er. unfold channel.len.
      destruct (configRequestChan (ap w)) as [b |]; [| reflexivity].
      destruct (channel.buf b); [reflexivity | discriminate]. }
    split; [exact Hlen |].
    pose proof (updateTeamWifiStatuses_evolves Device ssh w) as Hev.
    pose proof (updateTeamWifiStatuses_no_panic Device ssh w w' p) as Hn.
    destruct (updateTeamWifiStatuses Device ssh w) as [err w1 | p1 w1 | w1];
      cbn [andThen worldOf] in *.
    + destruct Hev as (Hv & _ & _ & _ & _ & He & _).
      destruct (updateTeamWifiBTU Device ssh w1) as [err2 w2 | p2 w2 | w2] eqn:Eb;
        cbn [andThen] in H; try discriminate.
      injection H as -> ->.
      unfold updateTeamWifiBTU in Eb. rewrite He in Eb.
      destruct (networkSecurityEnabled (ap w)); cbn [negb] in Eb; [| discriminate].
      split; [reflexivity |].
      apply btuLoop_crash in Eb.
      * unfold btuCommands. rewrite <- Hv. exact Eb.
      * intros i Hi. apply in_seq in Hi.
        destruct (isVividType (ap w1)); cbn [List.length]; lia.
    + exfalso. apply Hn. injection H as -> ->. reflexivity.
    + discriminate.
Qed.

End ControllerCrash.

(** ** Settings and submissions *)

(** Once the queue exists, updating the settings and submitting a request
    commute: the settings are overwritten, the request is queued or refused
    just the same, and whatever was queued stays queued. *)
Theorem SetSettings_commutes_with_submission
    (a : AccessPoint) (teams : Teams) (vivid : bool)
    (address' username' password' : string) (teamChannel' : Z) (enabled : bool) :
  configRequestChan a <> None ->
  ConfigureTeamWifi
    (SetSettings a vivid address' username' password' teamChannel' enabled) teams
  = (SetSettings (fst (ConfigureTeamWifi a teams))
       vivid address' username' password' teamChannel' enabled,
     snd (ConfigureTeamWifi a teams))
  /\ configRequestChan
       (SetSettings a vivid address' username' password' teamChannel' enabled)
     = configRequestChan a.
Proof.
  intros Hch. unfold ConfigureTeamWifi, SetSettings.
  destruct (configRequestChan a) as [b |] eqn:E; [| congruence].
  cbn [configRequestChan]. split; [| reflexivity].
  destruct (channel.trySend (Some b) teams) as [ch |] eqn:Es; cbn [fst snd].
  - unfold setConfigRequestChan. cbn.
    unfold channel.trySend in Es.
    destruct (List.length (channel.buf b) <? channel.cap b)%nat; [| discriminate].
    injection Es as <-. reflexivity.
  - cbn. rewrite E. reflexivity.
Qed.

Lemma submitMany_queue (l : list Teams) (a : AccessPoint) (q : list Teams) (c : nat) :
  configRequestChan a = Some (channel.mkChan q c) ->
  (List.length q <= c)%nat ->
  fst (submitMany a l)
  = setConfigRequestChan a
      (Some (channel.mkChan (q ++ firstn (c - List.length q) l) c))
  /\ snd (submitMany a l)
     = repeat None (Nat.min (c - List.length q) (List.length l))
       ++ repeat (Some QueueFull) (List.length l - (c - List.length q)).
Proof.
  revert a q. induction l as [| t l IH]; intros a q Hch Hle.
  - cbn [submitMany fst snd firstn List.length repeat Nat.sub].
    rewrite firstn_nil, app_nil_r, Nat.min_0_r. cbn [repeat app].
    split; [| reflexivity]. destruct a. cbn in Hch. subst. reflexivity.
  - cbn [submitMany]. rewrite (ConfigureTeamWifi_queued a t q c Hch).
    destruct (Nat.ltb_spec (List.length q) c) as [Hlt | Hge].
    + destruct (IH (setConfigRequestChan a (Some (channel.mkChan (q ++ [t]) c)))
                  (q ++ [t]) eq_refl) as [H1 H2].
      { rewrite length_app. cbn. lia. }
      destruct (submitMany (setConfigRequestChan a
                              (Some (channel.mkChan (q ++ [t]) c))) l) as [a2 es].
      cbn [fst snd] in *. rewrite length_app in *. cbn [List.length] in *.
      replace (c - List.length q)%nat with (S (c - (List.length q + 1)))%nat by lia.
      cbn [firstn]. split.
      * rewrite H1, <- app_assoc. reflexivity.
      * rewrite H2. cbn [Nat.min repeat app Nat.sub]. reflexivity.
    + destruct (IH a q Hch Hle) as [H1 H2].
      destruct (submitMany a l) as [a2 es]. cbn [fst snd] in *.
      replace (c - List.length q)%nat with 0%nat in * by lia.
      cbn [firstn Nat.min repeat app Nat.sub List.length] in *.
      rewrite Nat.sub_0_r in H2.
      split; [exact H1 |]. rewrite H2. reflexivity.
Qed.

(** Of requests submitted one after the other to a queue holding [q], the
    first ones are queued in their order until the queue is full, each of
    them answered with nil; all the later ones are answered with the
    queue-full error and leave no trace. *)
Theorem submissions_fill_the_queue_in_order
    (a : AccessPoint) (q requests : list Teams) (c : nat) :
  configRequestChan a = Some (channel.mkChan q c) ->
  (List.length q <= c)%nat ->
  let room := (c - List.length q)%nat in
  configRequestChan (fst (submitMany a requests))
  = Some (channel.mkChan (q ++ firstn room requests) c)
  /\ snd (submitMany a requests)
     = repeat None (Nat.min room (List.length requests))
       ++ repeat (Some QueueFull) (List.length requests - room).
Proof.
  intros Hch Hle room.
  destruct (submitMany_queue requests a q c Hch Hle) as [H1 H2].
  rewrite H1. split; [reflexivity | exact H2].
Qed.

(** ** The decoder on any slice *)

Lemma decodeOne_Return_fits (ssids linkQualities : list (list string)) (i : nat)
    (old status : TeamWifiStatus) :
  decodeOne ssids linkQualities i old = Return status ->
  (i < List.length ssids)%nat /\ (i < List.length linkQualities)%nat.
Proof.
  unfold decodeOne, bind.
  destruct (index ssids i) as [m |] eqn:E1; [| discriminate].
  destruct (index m 1) as [ssid |]; [| discriminate].
  destruct (index linkQualities i) as [q |] eqn:E3; [| discriminate].
  intros _. apply (index_Return _ _ _ _ []) in E1, E3. tauto.
Qed.

Lemma decodeLoop_Return_fits (ssids linkQualities : list (list string)) (k : nat)
    (statuses statuses' : list TeamWifiStatus) :
  statuses <> [] ->
  decodeLoop ssids linkQualities k statuses = Return statuses' ->
  (k + List.length statuses <= List.length ssids)%nat
  /\ (k + List.length statuses <= List.length linkQualities)%nat.
Proof.
  revert k statuses'.
  induction statuses as [| old statuses IH]; intros k statuses' Hne; [congruence |].
  cbn [decodeLoop List.length].
  destruct (decodeOne ssids linkQualities k old) as [status |] eqn:E1; [| discriminate].
  cbn [bind].
  destruct (decodeLoop ssids linkQualities (S k) statuses) as [rest' |] eqn:E2;
    [| discriminate].
  intros _. apply decodeOne_Return_fits in E1.
  destruct statuses as [| next statuses].
  - cbn [List.length]. lia.
  - destruct (IH (S k) rest' ltac:(discriminate) E2) as [H1 H2]. lia.
Qed.

(** [decodeWifiInfo] is written for the six records of the controller, but
    takes any slice.  On a text with at least six matches of each
    expression it returns exactly when the slice is no longer than either
    list of matches; on a longer slice it panics with an index out of
    range. *)
Theorem decodeWifiInfo_returns_iff_slice_fits
    (wifiInfo : string) (statuses : list TeamWifiStatus) :
  let ssids := regexp.FindAllStringSubmatch ssidRe wifiInfo in
  let linkQualities := regexp.FindAllStringSubmatch linkQualityRe wifiInfo in
  (6 <= List.length ssids)%nat -> (6 <= List.length linkQualities)%nat ->
  ((exists statuses', decodeWifiInfo wifiInfo statuses = Return (statuses', None))
   <-> (List.length statuses <= List.length ssids
        /\ List.length statuses <= List.length linkQualities)%nat)
  /\ ((List.length ssids < List.length statuses
       \/ List.length linkQualities < List.length statuses)%nat ->
      exists i n, decodeWifiInfo wifiInfo statuses = Panic (IndexOutOfRange i n)).
Proof.
  intros ssids linkQualities H1 H2.
  assert (Hiff : (exists statuses', decodeWifiInfo wifiInfo statuses = Return (statuses', None))
                 <-> (List.length statuses <= List.length ssids
                      /\ List.length statuses <= List.length linkQualities)%nat).
  { unfold decodeWifiInfo. fold ssids linkQualities.
    destruct (Nat.ltb_spec (List.length ssids) 6); [lia |].
    destruct (Nat.ltb_spec (List.length linkQualities) 6); [lia |].
    cbn [orb]. split.
    - intros [statuses' E].
      destruct (decodeLoop ssids linkQualities 0 statuses) as [sl |] eqn:El;
        [| discriminate].
      destruct statuses as [| old statuses]; [cbn [List.length]; lia |].
      apply decodeLoop_Return_fits in El; [| discriminate].
      cbn [Nat.add] in El. exact El.
    - intros [G1 G2].
      destruct (decodeLoop_ok ssids linkQualities 0 statuses) as [statuses' E];
        try (cbn [Nat.add]; lia).
      + apply ssid_matches_have_group.
      + apply linkQuality_matches_have_group.
      + exists statuses'. rewrite E. reflexivity. }
  split; [exact Hiff |].
  intros Hlong.
  destruct (decodeWifiInfo wifiInfo statuses) as [[statuses' err] | [i n]] eqn:E.
  - exfalso. unfold decodeWifiInfo in E. fold ssids linkQualities in E.
    destruct (Nat.ltb_spec (List.length ssids) 6); [lia |].
    destruct (Nat.ltb_spec (List.length linkQualities) 6); [lia |].
    cbn [orb] in E.
    destruct (decodeLoop ssids linkQualities 0 statuses) as [sl |] eqn:El;
      [| discriminate].
    destruct statuses as [| old statuses]; [cbn [List.length] in Hlong; lia |].
    apply decodeLoop_Return_fits in El; [| discriminate].
    cbn [Nat.add] in El. lia.
  - eauto.
Qed.

Lemma decodeOne_MBits (ssids linkQualities : list (list string)) (i : nat)
    (s t : TeamWifiStatus) :
  MBits s = MBits t ->
  decodeOne ssids linkQualities i s = decodeOne ssids linkQualities i t.
Proof. intros H. unfold decodeOne. rewrite H. reflexivity. Qed.

Lemma decodeLoop_MBits (ssids linkQualities : list (list string)) (k : nat)
    (s t : list TeamWifiStatus) :
  Forall2 (fun x y => MBits x = MBits y) s t ->
  decodeLoop ssids linkQualities k s = decodeLoop ssids linkQualities k t.
Proof.
  intros H. revert k. induction H as [| x y s t Hxy Hst IH]; intros k.
  - reflexivity.
  - cbn [decodeLoop]. rewrite (decodeOne_MBits _ _ _ x y Hxy), (IH (S k)).
    reflexivity.
Qed.

Lemma decodeOne_keeps_MBits (ssids linkQualities : list (list string)) (i : nat)
    (old status : TeamWifiStatus) :
  decodeOne ssids linkQualities i old = Return status -> MBits old = MBits status.
Proof. intros H. rewrite (decodeOne_Return _ _ _ _ _ H). reflexivity. Qed.

Lemma decodeLoop_keeps_MBits (ssids linkQualities : list (list string)) (k : nat)
    (statuses statuses' : list TeamWifiStatus) :
  decodeLoop ssids linkQualities k statuses = Return statuses' ->
  Forall2 (fun x y => MBits x = MBits y) statuses statuses'.
Proof.
  revert k statuses'.
  induction statuses as [| old statuses IH]; intros k statuses'; cbn [decodeLoop].
  - intros H. injection H as <-. constructor.
  - destruct (decodeOne ssids linkQualities k old) as [status |] eqn:E1;
      [| discriminate].
    cbn [bind].
    destruct (decodeLoop ssids linkQualities (S k) statuses) as [rest' |] eqn:E2;
      [| discriminate].
    cbn [bind]. intros H. injection H as <-.
    constructor; [exact (decodeOne_keeps_MBits _ _ _ _ _ E1) | exact (IH _ _ E2)].
Qed.

(** What a successful decoding leaves in the records depends on the text
    and on the bandwidth values they held, and on nothing else: the ids and
    the link flags of before are overwritten.  So decoding the same text
    into the result once more changes nothing. *)
Theorem decodeWifiInfo_overwrites_ids_and_flags
    (wifiInfo : string) (s t s' : list TeamWifiStatus) :
  Forall2 (fun x y => MBits x = MBits y) s t ->
  decodeWifiInfo wifiInfo s = Return (s', None) ->
  decodeWifiInfo wifiInfo t = Return (s', None)
  /\ decodeWifiInfo wifiInfo s' = Return (s', None).
Proof.
  intros Hst Hs.
  assert (Hsame : forall u, Forall2 (fun x y => MBits x = MBits y) s u ->
                       decodeWifiInfo wifiInfo u = Return (s', None)).
  { intros u Hu. unfold decodeWifiInfo in *.
    destruct ((List.length (regexp.FindAllStringSubmatch ssidRe wifiInfo) <? 6)%nat
              || (List.length (regexp.FindAllStringSubmatch linkQualityRe wifiInfo) <? 6)%nat);
      [discriminate |].
    rewrite <- (decodeLoop_MBits _ _ 0 s u Hu). exact Hs. }
  split; [apply Hsame, Hst |].
  apply Hsame. unfold decodeWifiInfo in Hs.
  destruct ((List.length (regexp.FindAllStringSubmatch ssidRe wifiInfo) <? 6)%nat
            || (List.length (regexp.FindAllStringSubmatch linkQualityRe wifiInfo) <? 6)%nat);
    [discriminate |].
  destruct (decodeLoop _ _ 0 s) as [sl |] eqn:E; [| discriminate].
  cbn [bind] in Hs. injection Hs as <-.
  exact (decodeLoop_keeps_MBits _ _ _ _ _ E).
Qed.

(** ** The names the generator writes, as the decoder reads them *)

Lemma numeralByte_dashWordSpace (c : ascii) :
  numeralByte c = true -> regexp.dashWordSpace c = true.
Proof.
  destruct c as [[] [] [] [] [] [] [] []]; vm_compute; intros H;
    first [reflexivity | discriminate H].
Qed.

Lemma Itoa_dashWordSpace (n : Z) :
  forallb regexp.dashWordSpace (bytesOf (strconv.Itoa n)) = true.
Proof.
  apply forallb_forall. intros c Hc.
  apply numeralByte_dashWordSpace.
  pose proof (Itoa_numeralBytes n) as H. rewrite Forall_forall in H. apply H, Hc.
Qed.

Lemma Atoi_placeholder (position : Z) :
  strconv.Atoi (placeholder position) = (0, Some strconv.ErrSyntax).
Proof.
  apply Atoi_not_numeral.
  - unfold numeralValue, placeholder. rewrite bytesOf_append.
    reflexivity.
  - unfold leadingValue, placeholder. rewrite bytesOf_append. vm_compute. discriminate.
Qed.

(** The network name the generator writes for a station is read back as the
    id that [configIsCorrectForTeams] expects there: the id of the team, or
    0 for the placeholder of an empty station.  The ESSID expression of the
    decoder captures the name whole from a line that quotes it. *)
Theorem generated_name_decodes_to_expected_id
    (a : AccessPoint) (team : option Team) (position : Z) (config : string) :
  minInt <= expectedTeamId team <= maxInt ->
  generateTeamAccessPointConfig a team position = (config, None) ->
  exists ssid key,
    config = strings.Join (stationCommands (isVividType a) position ssid key) newline
    /\ (forall numerator old,
          TeamId (decoded ssid numerator old) = expectedTeamId team)
    /\ (forall rest,
          regexp.matchHere ssidRe
            (bytesOf "ESSID: " ++ [dquote] ++ bytesOf ssid ++ [dquote] ++ rest)
          = Some ([bytesOf ssid], rest)).
Proof.
  intros Hr. unfold generateTeamAccessPointConfig.
  destruct ((position <? 1) || (position >? 6)); [discriminate |].
  destruct team as [t |].
  - destruct ((String.length (WpaKey t) <? 8)%nat || (63 <? String.length (WpaKey t))%nat);
      [discriminate |].
    intros H. injection H as <-.
    exists (strconv.Itoa (Id t)), (WpaKey t). split; [reflexivity |]. split.
    + intros numerator old. unfold decoded. cbn [TeamId expectedTeamId] in *.
      rewrite Atoi_Itoa by exact Hr. reflexivity.
    + intros rest. apply matchHere_ssid_complete, Itoa_dashWordSpace.
  - intros H. injection H as <-.
    exists (placeholder position), (placeholder position).
    split; [reflexivity |]. split.
    + intros numerator old. unfold decoded. cbn [TeamId expectedTeamId].
      rewrite Atoi_placeholder. reflexivity.
    + intros rest. apply matchHere_ssid_complete.
      unfold placeholder. rewrite bytesOf_append, forallb_app, Itoa_dashWordSpace.
      reflexivity.
Qed.

(** ** When the sampler returns *)

(** [parseBtu] returns exactly when the answer has at most 6 segments
    between its "]," separators (the result is then 0), or when the last
    segment and the sixth from the end both have at least 4 fields between
    their commas.  On any other answer it panics with an index out of
    range. *)
Theorem parseBtu_returns_iff_fields_present (response : string) :
  let lines := strings.Split response "]," in
  let latest := nth (List.length lines - 1) lines EmptyString in
  let baseline := nth (List.length lines - 6) lines EmptyString in
  let complete :=
    (List.length lines <= 6)%nat
    \/ (4 <= List.length (sampleFields latest))%nat
       /\ (4 <= List.length (sampleFields baseline))%nat in
  ((exists mBits, parseBtu response = Return mBits) <-> complete)
  /\ ((List.length lines <= 6)%nat -> parseBtu response = Return 0%float)
  /\ (~ complete -> exists i n, parseBtu response = Panic (IndexOutOfRange i n)).
Proof.
  intros lines latest baseline complete.
  assert (Hiff : (exists mBits, parseBtu response = Return mBits) <-> complete).
  { unfold complete, parseBtu. fold lines.
    destruct (Nat.ltb_spec 6 (List.length lines)) as [Hlong | Hshort].
    - rewrite (index_nth _ lines (List.length lines - 6) EmptyString) by lia.
      rewrite (index_nth _ lines (List.length lines - 1) EmptyString) by lia.
      cbn [bind]. fold latest baseline. split.
      + intros [mBits E]. right.
        destruct (index (sampleFields latest) 1) as [f1 |]; [| discriminate].
        destruct (index (sampleFields latest) 3) as [f3 |] eqn:E3; [| discriminate].
        destruct (index (sampleFields baseline) 1) as [g1 |]; [| discriminate].
        destruct (index (sampleFields baseline) 3) as [g3 |] eqn:E7; [| discriminate].
        apply (index_Return _ _ _ _ EmptyString) in E3, E7. lia.
      + intros [H | [H1 H2]]; [lia |].
        rewrite (index_nth _ (sampleFields latest) 1 EmptyString) by lia.
        rewrite (index_nth _ (sampleFields latest) 3 EmptyString) by lia.
        rewrite (index_nth _ (sampleFields baseline) 1 EmptyString) by lia.
        rewrite (index_nth _ (sampleFields baseline) 3 EmptyString) by lia.
        cbn [bind]. eauto.
    - split; [intros _; left; exact Hshort | eauto]. }
  split; [exact Hiff |]. split; [apply parseBtu_short |].
  intros Hn. destruct (parseBtu response) as [mBits | [i n]].
  - exfalso. apply Hn, Hiff. eauto.
  - eauto.
Qed.

(** * The further properties at concrete inputs *)

Lemma failed_status_fetch_witness :
  let w := mockWorld (readyAp true) in
  let w' := worldOf (updateTeamWifiStatuses nat deadSsh w) in
  updateTeamWifiStatuses nat deadSsh w
  = Done (Some (WifiInfoError (SshError "dial tcp: i/o timeout"))) w'
  /\ ap w' = ap w
  /\ issued w' = issued w ++ ["iwinfo"%string].
Proof.
  cbv zeta.
  assert (E : updateTeamWifiStatuses nat deadSsh (mockWorld (readyAp true))
              = Done (Some (WifiInfoError (SshError "dial tcp: i/o timeout")))
                  (worldOf (updateTeamWifiStatuses nat deadSsh (mockWorld (readyAp true)))))
    by (vm_compute; reflexivity).
  split; [exact E |].
  destruct (failed_status_fetch_keeps_snapshot nat deadSsh _ _ _ E) as (H1 & H2 & _).
  split; assumption.
Defined.

Lemma successful_status_fetch_witness :
  updateTeamWifiStatuses nat mockSsh (mockWorld (readyAp true)) = Done None fetchedWorld
  /\ initialStatusesFetched (ap fetchedWorld) = true
  /\ issued fetchedWorld = ["iwinfo"%string].
Proof.
  assert (E : updateTeamWifiStatuses nat mockSsh (mockWorld (readyAp true))
              = Done None fetchedWorld) by (vm_compute; reflexivity).
  split; [exact E |].
  destruct (successful_status_fetch_decodes_answer nat mockSsh
              (mockWorld (readyAp true)) fetchedWorld eq_refl E) as (H1 & H2 & _).
  split; assumption.
Defined.

Lemma apply_cycle_returns_verified_witness :
  let w' := worldOf (configureTeams nat mockSsh 7 scenarioTeams (mockWorld (readyAp true))) in
  configureTeams nat mockSsh 7 scenarioTeams (mockWorld (readyAp true)) = Done tt w'
  /\ configIsCorrectForTeams (ap w') scenarioTeams = true.
Proof.
  cbv zeta.
  assert (E : configureTeams nat mockSsh 7 scenarioTeams (mockWorld (readyAp true))
              = Done tt
                  (worldOf (configureTeams nat mockSsh 7 scenarioTeams
                              (mockWorld (readyAp true)))))
    by (vm_compute; reflexivity).
  split; [exact E |].
  exact (proj1 (apply_cycle_returns_verified nat mockSsh 7 scenarioTeams
                  (mockWorld (readyAp true)) _ eq_refl (or_intror E))).
Defined.

Lemma bandwidth_poll_queries_witness :
  issued (worldOf (updateTeamWifiBTU nat mockSsh (mockWorld (readyAp true))))
  = btuCommands false.
Proof.
  apply (proj2 (bandwidth_poll_queries_in_order nat mockSsh (mockWorld (readyAp true))
                  eq_refl)).
  vm_compute. reflexivity.
Defined.

Lemma configureTeams_one_pass_witness :
  exists w8 : World nat,
    issued w8
    = map (stationCommand (readyAp true) scenarioTeams) (seq 0 6)
      ++ ["uci commit wireless"; "wifi reload"]%string.
Proof.
  destruct (configureTeams_one_pass nat mockSsh scenarioTeams (mockWorld (readyAp true)))
    as (w8 & _ & His & _).
  - intros d a u p c. reflexivity.
  - exists w8. exact His.
Defined.

Lemma configureTeams_retries_witness :
  exists w' : World nat,
    configureTeams nat deadSsh 5 scenarioTeams (mockWorld (readyAp true)) = Unfinished w'
    /\ issued w' = repeat (stationCommand (readyAp true) scenarioTeams 0) 5.
Proof.
  destruct (configureTeams_retries_station_one nat deadSsh 5 scenarioTeams
              (mockWorld (readyAp true))) as (w' & E & _ & His).
  - intros d a u p c. discriminate.
  - exists w'. split; [exact E | exact His].
Defined.

Lemma ConfigureAdminSettings_witness :
  snd (ConfigureAdminSettings nat mockSsh (mockWorld (readyAp true))) = None
  /\ issued (fst (ConfigureAdminSettings nat mockSsh (mockWorld (readyAp true))))
     = [adminCommand 157].
Proof.
  rewrite (proj1 (ConfigureAdminSettings_sends_channel nat mockSsh
                    (mockWorld (readyAp true)) 157 eq_refl)).
  split; reflexivity.
Defined.

Lemma queue_stays_bounded_witness :
  queueBounded (ap (performAll nat mockSsh someOperations (mockWorld zeroAccessPoint)))
  /\ queueBounded
       (ap (performAll nat mockSsh someOperations
              (mockWorld (queuedAp true (repeat otherTeams 10))))).
Proof.
  split.
  - apply (proj1 (queue_stays_bounded nat mockSsh someOperations
                    (mockWorld zeroAccessPoint) I)).
  - apply (proj1 (queue_stays_bounded nat mockSsh someOperations
                    (mockWorld (queuedAp true (repeat otherTeams 10)))
                    (conj eq_refl (le_n 10)))).
Defined.

Lemma SetSettings_commutes_witness :
  ConfigureTeamWifi (SetSettings (readyAp false) true "10.0.100.2" "admin" "secret" 36 true)
    scenarioTeams
  = (SetSettings (queuedAp false [scenarioTeams]) true "10.0.100.2" "admin" "secret" 36 true,
     None).
Proof.
  rewrite (proj1 (SetSettings_commutes_with_submission (readyAp false) scenarioTeams
                    true "10.0.100.2" "admin" "secret" 36 true
                    ltac:(discriminate))).
  reflexivity.
Defined.

Lemma submissions_fill_the_queue_witness :
  configRequestChan
    (fst (submitMany (queuedAp true [otherTeams]) (repeat scenarioTeams 12)))
  = Some (channel.mkChan (otherTeams :: repeat scenarioTeams 9) 10)
  /\ snd (submitMany (queuedAp true [otherTeams]) (repeat scenarioTeams 12))
     = repeat None 9 ++ repeat (Some QueueFull) 3.
Proof.
  exact (submissions_fill_the_queue_in_order (queuedAp true [otherTeams]) [otherTeams]
           (repeat scenarioTeams 12) 10 eq_refl ltac:(cbn; lia)).
Defined.

Lemma decodeWifiInfo_slice_witness :
  (exists statuses', decodeWifiInfo mockInfo zeroStatuses = Return (statuses', None))
  /\ exists i n,
       decodeWifiInfo mockInfo (zeroStatuses ++ [zeroStatus])
       = Panic (IndexOutOfRange i n).
Proof.
  split.
  - apply (proj1 (decodeWifiInfo_returns_iff_slice_fits mockInfo zeroStatuses
                    ltac:(vm_compute; lia) ltac:(vm_compute; lia))).
    vm_compute. lia.
  - apply (proj2 (decodeWifiInfo_returns_iff_slice_fits mockInfo
                    (zeroStatuses ++ [zeroStatus])
                    ltac:(vm_compute; lia) ltac:(vm_compute; lia))).
    vm_compute. lia.
Defined.

Lemma decodeWifiInfo_overwrites_witness :
  decodeWifiInfo mockInfo (map (fun s => mkTeamWifiStatus 9611 true (MBits s)) zeroStatuses)
  = Return (mockStatuses, None)
  /\ decodeWifiInfo mockInfo mockStatuses = Return (mockStatuses, None).
Proof.
  apply (decodeWifiInfo_overwrites_ids_and_flags mockInfo zeroStatuses).
  - repeat constructor.
  - vm_compute. reflexivity.
Defined.

Lemma generated_name_decodes_witness :
  (exists ssid key,
     fst (generateTeamAccessPointConfig (readyAp true) (Some team254) 1)
     = strings.Join (stationCommands false 1 ssid key) newline
     /\ TeamId (decoded ssid "70" zeroStatus) = 254)
  /\ exists ssid key,
       fst (generateTeamAccessPointConfig (readyAp true) None 2)
       = strings.Join (stationCommands false 2 ssid key) newline
       /\ TeamId (decoded ssid "unknown" zeroStatus) = 0.
Proof.
  split.
  - destruct (generated_name_decodes_to_expected_id (readyAp true) (Some team254) 1 _
                ltac:(vm_compute; split; discriminate) eq_refl)
      as (ssid & key & E & Hid & _).
    exists ssid, key. split; [exact E | apply Hid].
  - destruct (generated_name_decodes_to_expected_id (readyAp true) None 2 _
                ltac:(vm_compute; split; discriminate) eq_refl)
      as (ssid & key & E & Hid & _).
    exists ssid, key. split; [exact E | apply Hid].
Defined.

Lemma run_round_crash_witness :
  channel.len (configRequestChan (readyAp true)) = 0%nat
  /\ exists query output,
       In query (btuCommands false)
       /\ parseBtu output = Panic (IndexOutOfRange 3 2).
Proof.
  destruct (run_round_crashes_only_on_bandwidth_answer nat truncatingSsh 0
              (mockWorld (readyAp true))
              (worldOf (runOnce nat truncatingSsh 0 (mockWorld (readyAp true))))
              (IndexOutOfRange 3 2))
    as (H1 & _ & w0 & query & output & Hq & _ & Hp).
  - vm_compute. reflexivity.
  - split; [exact H1 |]. exists query, output. split; assumption.
Defined.
